(** * genkit-interrupts: the suspend/resume Resolution Loop and the
      completion-gated Conversation Loop

    A shallow embedding of [interruption_handler.go],
    [conversation_loop_handler.go] and the parts of [ask_question_tool.go]
    and of the collaborator interfaces they use, followed by the properties
    of the two loops.

    The collaborators (Generator, user interaction, context) are functions of
    the transcript of calls made so far; each handler is a computation that
    reads the transcript and emits the events of the calls it makes. *)

From Stdlib Require Import String Ascii List ZArith Bool Arith Lia.
Import ListNotations.
Local Open Scope string_scope.
Local Open Scope list_scope.

Set Implicit Arguments.
Set Warnings "-register-all".

(** ** Go values *)

(** Go [error] values that the handlers create or pass on. *)
Inductive error : Type :=
| errorString (s : string)                 (* errors.New(s) *)
| wrapError (msg : string) (err : error)   (* fmt.Errorf(msg + "%w", err) *)
| Canceled                                 (* context.Canceled *)
| DeadlineExceeded                         (* context.DeadlineExceeded *)
| UnsupportedTypeError (type : string)     (* encoding/json *)
| UnsupportedValueError (str : string)     (* encoding/json *)
| UnmarshalTypeError (value field : string). (* encoding/json *)

Inductive float64 : Type :=
| Finite (mantissa exponent : Z)
| NaN
| Inf (negative : bool).

(** The dynamic values an [any] holds here: what a JSON document decodes to
    (nil, bool, float64, string, []any, map[string]any), a []string as the
    tests build it, and a channel, which encoding/json cannot encode.  A map
    is the list of its entries.  A nil slice or nil map nested in a value
    encodes as null and is represented by [Nil]. *)
Inductive any : Type :=
| Nil
| Bool (b : bool)
| Float64 (f : float64)
| Str (s : string)
| Slice (l : list any)
| StrSlice (l : list string)
| Map (m : list (string * any))
| Chan.

(** The name [%T] prints for the dynamic type of a value. *)
Definition typeName (v : any) : string :=
  match v with
  | Nil => "<nil>"
  | Bool _ => "bool"
  | Float64 _ => "float64"
  | Str _ => "string"
  | Slice _ => "[]interface {}"
  | StrSlice _ => "[]string"
  | Map _ => "map[string]interface {}"
  | Chan => "chan int"
  end.

(** ** unicode/utf8

    A Go string is a sequence of bytes; encoding/json reads it rune by
    rune. *)
Module utf8.

Definition rune : Type := N.
Definition RuneError : rune := 0xFFFD%N.
Definition RuneSelf : N := 0x80%N.

Definition byte (c : ascii) : N := N_of_ascii c.

Definition within (lo hi : N) (c : ascii) : bool :=
  ((lo <=? byte c) && (byte c <=? hi))%N.

(** The table [first] with [acceptRanges]: what a leading byte announces,
    an ASCII byte, an invalid byte, or an encoding of [size] bytes whose
    second byte lies between [lo] and [hi]. *)
Inductive info : Type :=
| as_
| xx
| lead (size : nat) (lo hi : N).

Definition first (c : ascii) : info :=
  let b := byte c in
  (if b <? 0x80 then as_
   else if b <? 0xC2 then xx
   else if b <? 0xE0 then lead 2 0x80 0xBF
   else if b =? 0xE0 then lead 3 0xA0 0xBF
   else if b <? 0xED then lead 3 0x80 0xBF
   else if b =? 0xED then lead 3 0x80 0x9F
   else if b <? 0xF0 then lead 3 0x80 0xBF
   else if b =? 0xF0 then lead 4 0x90 0xBF
   else if b <? 0xF4 then lead 4 0x80 0xBF
   else if b =? 0xF4 then lead 4 0x80 0x8F
   else xx)%N.

(** The bits of a byte under [mask]. *)
Definition bits (mask : N) (c : ascii) : N := N.land (byte c) mask.

(** DecodeRuneInString unpacks the first UTF-8 encoding in [s] and returns
    the rune and its width in bytes; [(RuneError, 1)] when the encoding is
    invalid, [(RuneError, 0)] when [s] is empty. *)
Definition DecodeRuneInString (s : string) : rune * nat :=
  match s with
  | EmptyString => (RuneError, 0)
  | String s0 t0 =>
      match first s0 with
      | as_ => (byte s0, 1)
      | xx => (RuneError, 1)
      | lead sz lo hi =>
          match t0 with
          | EmptyString => (RuneError, 1)
          | String s1 t1 =>
              if negb (within lo hi s1) then (RuneError, 1)
              else if (sz <=? 2)%nat then
                (N.lor (N.shiftl (bits 0x1F s0) 6) (bits 0x3F s1), 2)
              else
                match t1 with
                | EmptyString => (RuneError, 1)
                | String s2 t2 =>
                    if negb (within 0x80 0xBF s2) then (RuneError, 1)
                    else if (sz <=? 3)%nat then
                      (N.lor (N.lor (N.shiftl (bits 0x0F s0) 12)
                                    (N.shiftl (bits 0x3F s1) 6))
                             (bits 0x3F s2), 3)
                    else
                      match t2 with
                      | EmptyString => (RuneError, 1)
                      | String s3 _ =>
                          if negb (within 0x80 0xBF s3) then (RuneError, 1)
                          else
                            (N.lor (N.lor (N.lor (N.shiftl (bits 0x07 s0) 18)
                                                 (N.shiftl (bits 0x3F s1) 12))
                                          (N.shiftl (bits 0x3F s2) 6))
                                   (bits 0x3F s3), 4)
                      end
                end
          end
      end
  end.

(** The result of DecodeRuneInString on a byte that starts no valid
    encoding. *)
Definition invalid (decoded : rune * nat) : bool :=
  (fst decoded =? RuneError)%N && (snd decoded =? 1)%nat.

Definition continuation (r : rune) (shift : N) : ascii :=
  ascii_of_N (N.lor 0x80 (N.land (N.shiftr r shift) 0x3F)).

(** AppendRune: the UTF-8 encoding of [r]; of RuneError when [r] is a
    surrogate or out of range. *)
Definition AppendRune (r : rune) : string :=
  (if r <=? 0x7F then String (ascii_of_N r) ""
   else if r <=? 0x7FF then
     String (ascii_of_N (N.lor 0xC0 (N.shiftr r 6)))
       (String (continuation r 0) "")
   else if (r <? 0xD800) || ((0xDFFF <? r) && (r <=? 0xFFFF)) then
     String (ascii_of_N (N.lor 0xE0 (N.shiftr r 12)))
       (String (continuation r 6) (String (continuation r 0) ""))
   else if (0xFFFF <? r) && (r <=? 0x10FFFF) then
     String (ascii_of_N (N.lor 0xF0 (N.shiftr r 18)))
       (String (continuation r 12)
          (String (continuation r 6) (String (continuation r 0) "")))
   else
     String (ascii_of_N 0xEF)
       (String (ascii_of_N 0xBF) (String (ascii_of_N 0xBD) "")))%N.

(** ValidString reports whether [s] consists entirely of valid UTF-8
    encodings; [inside] counts the bytes left of the encoding being
    stepped over. *)
Fixpoint ValidString' (inside : nat) (s : string) : bool :=
  match s with
  | EmptyString => true
  | String _ rest =>
      match inside with
      | S n => ValidString' n rest
      | O =>
          if invalid (DecodeRuneInString s) then false
          else ValidString' (snd (DecodeRuneInString s) - 1) rest
      end
  end.

Definition ValidString (s : string) : bool := ValidString' 0 s.

End utf8.

(** ** encoding/json, on document trees

    [json.Marshal] followed by [json.Unmarshal] prints a document and parses
    it again; the byte string in between is represented by the document. *)
Module json.

Inductive JSON : Type :=
| JNull
| JBool (b : bool)
| JNumber (mantissa exponent : Z)
| JString (s : string)
| JArray (l : list JSON)
| JObject (m : list (string * JSON)).

(** The word an [UnmarshalTypeError] uses for a JSON value. *)
Definition kindOf (j : JSON) : string :=
  match j with
  | JNull => "null"
  | JBool _ => "bool"
  | JNumber _ _ => "number"
  | JString _ => "string"
  | JArray _ => "array"
  | JObject _ => "object"
  end.

(** The first error of a list of results, or all the values. *)
Fixpoint sequence {A : Type} (l : list (error + A)) : error + list A :=
  match l with
  | [] => inr []
  | inl e :: _ => inl e
  | inr a :: rest =>
      match sequence rest with
      | inl e => inl e
      | inr r => inr (a :: r)
      end
  end.

(** Marshal writes the entries of a map in increasing key order. *)
Fixpoint insertByKey {A : Type} (kv : string * A) (l : list (string * A))
  : list (string * A) :=
  match l with
  | [] => [kv]
  | kv' :: rest =>
      if String.leb (fst kv) (fst kv') then kv :: l
      else kv' :: insertByKey kv rest
  end.

Definition sortByKey {A : Type} (l : list (string * A)) : list (string * A) :=
  fold_right insertByKey [] l.

(** appendString writes [src] as a JSON string literal, rune by rune; the
    document holds the string the literal denotes, which is [src] with
    each byte that starts no valid UTF-8 encoding replaced by U+FFFD (the
    escapes of the literal are undone when it is read).  [inside] counts the
    bytes left to copy of the encoding at hand. *)
Fixpoint appendString (inside : nat) (src : string) : string :=
  match src with
  | EmptyString => EmptyString
  | String b rest =>
      match inside with
      | S n => String b (appendString n rest)
      | O =>
          if (utf8.byte b <? utf8.RuneSelf)%N then
            String b (appendString 0 rest)
          else if utf8.invalid (utf8.DecodeRuneInString src) then
            (utf8.AppendRune utf8.RuneError ++ appendString 0 rest)%string
          else
            String b
              (appendString (snd (utf8.DecodeRuneInString src) - 1) rest)
      end
  end.

(** The string a Go string is written and read back as. *)
Definition literal (s : string) : string := appendString 0 s.

(** An entry of a map, its key written as a string literal. *)
Definition keyed {A : Type} (kv : string * (error + A)) : error + (string * A) :=
  match snd kv with
  | inl e => inl e
  | inr a => inr (literal (fst kv), a)
  end.

Fixpoint Marshal (v : any) : error + JSON :=
  match v with
  | Nil => inr JNull
  | Bool b => inr (JBool b)
  | Float64 (Finite m e) => inr (JNumber m e)
  | Float64 NaN => inl (UnsupportedValueError "NaN")
  | Float64 (Inf negative) =>
      inl (UnsupportedValueError (if negative then "-Inf" else "+Inf"))
  | Str s => inr (JString (literal s))
  | StrSlice l => inr (JArray (map (fun s => JString (literal s)) l))
  | Slice l =>
      match sequence (map Marshal l) with
      | inl e => inl e
      | inr js => inr (JArray js)
      end
  | Map m =>
      let entries :=
        (fix each (m : list (string * any)) : list (string * (error + JSON)) :=
           match m with
           | [] => []
           | (k, x) :: rest => (k, Marshal x) :: each rest
           end) m in
      match sequence (map keyed (sortByKey entries)) with
      | inl e => inl e
      | inr js => inr (JObject js)
      end
  | Chan => inl (UnsupportedTypeError "chan int")
  end.

End json.

(** ** ask_question_tool.go *)

(** QuestionInput contains a question to ask the user and optional multiple
    choice answers.  A nil and an empty [Choices] are both []. *)
Record QuestionInput : Type := {
  Question : string;   (* `json:"question"` *)
  Choices : list string (* `json:"choices"` *)
}.

Module decode.
Import json.

(** An ASCII letter in upper case. *)
Definition upper (c : ascii) : ascii :=
  let b := utf8.byte c in
  (if (0x61 <=? b) && (b <=? 0x7A) then ascii_of_N (b - 0x20) else c)%N.

(** foldRune returns the smallest rune of the fold orbit of [r].  Of the
    orbits of unicode.SimpleFold only {K, k, U+212A} and {S, s, U+017F}
    join runes inside and outside ASCII.  The names of the fields are
    ASCII, so every other rune outside ASCII, which folds to a rune outside
    ASCII, is left as it is. *)
Definition foldRune (r : utf8.rune) : utf8.rune :=
  (if (0x61 <=? r) && (r <=? 0x7A) then r - 0x20
   else if r =? 0x17F then 0x53
   else if r =? 0x212A then 0x4B
   else r)%N.

(** appendFoldedName: the folded name of [in_], rune by rune; [inside]
    counts the bytes left of the rune just folded. *)
Fixpoint appendFoldedName (inside : nat) (in_ : string) : string :=
  match in_ with
  | EmptyString => EmptyString
  | String c rest =>
      match inside with
      | S n => appendFoldedName n rest
      | O =>
          if (utf8.byte c <? utf8.RuneSelf)%N then
            String (upper c) (appendFoldedName 0 rest)
          else
            (utf8.AppendRune (foldRune (fst (utf8.DecodeRuneInString in_)))
             ++ appendFoldedName (snd (utf8.DecodeRuneInString in_) - 1) rest)
              %string
      end
  end.

(** foldName returns a folded string such that foldName(x) == foldName(y)
    is identical to bytes.EqualFold(x, y). *)
Definition foldName (in_ : string) : string := appendFoldedName 0 in_.

(** A key is stored into the field whose name it equals or, failing that,
    whose folded name is the folded key. *)
Definition fieldMatch (key name : string) : bool :=
  String.eqb key name || String.eqb (foldName key) (foldName name).

(** A JSON value stored into a Go string: null leaves it alone. *)
Definition intoString (field : string) (j : JSON) (old : string)
  : error + string :=
  match j with
  | JNull => inr old
  | JString s => inr s
  | _ => inl (UnmarshalTypeError (kindOf j) field)
  end.

(** The elements of a JSON array stored one by one into a Go []string:
    element i goes into the string at index i of the backing array (the
    empty string where the array was never written), so a null leaves
    what is there. *)
Fixpoint intoElements (field : string) (l : list JSON) (backing : list string)
  : error + list string :=
  match l with
  | [] => inr []
  | x :: rest =>
      match intoString field x (hd "" backing) with
      | inl e => inl e
      | inr s =>
          match intoElements field rest (tl backing) with
          | inl e => inl e
          | inr r => inr (s :: r)
          end
      end
  end.

(** A JSON value stored into a Go []string with backing array [backing]:
    null makes it nil and an empty array makes it a fresh empty slice; any
    other array is stored element by element into the backing array.  The
    result is the slice and what the backing array holds past its end. *)
Definition intoStrings (field : string) (j : JSON) (backing : list string)
  : error + (list string * list string) :=
  match j with
  | JNull => inr ([], [])
  | JArray [] => inr ([], [])
  | JArray l =>
      match intoElements field l backing with
      | inl e => inl e
      | inr c => inr (c, skipn (length l) backing)
      end
  | _ => inl (UnmarshalTypeError (kindOf j) field)
  end.

(** The entries of an object stored into a QuestionInput, in document
    order; keys matching no field are skipped.  [spare] is what the backing
    array of Choices holds past the end of the slice.  The first type error
    is the error Unmarshal returns. *)
Fixpoint intoFields (entries : list (string * JSON)) (q : QuestionInput)
  (spare : list string) : error + QuestionInput :=
  match entries with
  | [] => inr q
  | (key, j) :: rest =>
      if fieldMatch key "question" then
        match intoString "question" j (Question q) with
        | inl e => inl e
        | inr s =>
            intoFields rest {| Question := s; Choices := Choices q |} spare
        end
      else if fieldMatch key "choices" then
        match intoStrings "choices" j (Choices q ++ spare) with
        | inl e => inl e
        | inr (c, spare') =>
            intoFields rest {| Question := Question q; Choices := c |} spare'
        end
      else intoFields rest q spare
  end.

(** Unmarshal into [q], whose Choices has no capacity beyond its length
    (the caller passes the zero QuestionInput). *)
Definition Unmarshal (j : JSON) (q : QuestionInput) : error + QuestionInput :=
  match j with
  | JNull => inr q
  | JObject m => intoFields m q []
  | _ => inl (UnmarshalTypeError (kindOf j) "")
  end.

End decode.

(** ** interruption_handler.go: getQuestionInput *)

(** getQuestionInput converts an arbitrary input into a QuestionInput.
    The Go function returns [(nil, err)] or [(&questionInput, nil)]. *)
Definition getQuestionInput (input : any) : error + QuestionInput :=
  let questionInput := {| Question := ""; Choices := [] |} in
  match input with
  | Map rawInput =>
      match json.Marshal (Map rawInput) with
      | inl err => inl (wrapError "failed to marshal input: " err)
      | inr jsonBytes =>
          match decode.Unmarshal jsonBytes questionInput with
          | inl err => inl (wrapError "failed to unmarshal input: " err)
          | inr q => inr q
          end
      end
  | _ => inl (errorString ("unexpected input type: " ++ typeName input))
  end.

(** ** The genkit [ai] types the handlers touch *)
Module ai.

Module ToolRequest.
Record t : Type := { Name : string; Ref : string; Input : any }.
End ToolRequest.

Module ToolResponse.
Record t : Type := { Name : string; Ref : string; Output : any }.
End ToolResponse.

Inductive PartKind : Type :=
| PartText | PartMedia | PartData | PartToolRequest | PartToolResponse
| PartCustom | PartReasoning.

Definition isToolRequestKind (k : PartKind) : bool :=
  match k with PartToolRequest => true | _ => false end.

Definition isTextKind (k : PartKind) : bool :=
  match k with PartText => true | _ => false end.

Definition isDataKind (k : PartKind) : bool :=
  match k with PartData => true | _ => false end.

Fixpoint lookup (key : string) (m : list (string * any)) : option any :=
  match m with
  | [] => None
  | (k, v) :: rest => if String.eqb k key then Some v else lookup key rest
  end.

Module Part.
Record t : Type := {
  Kind : PartKind;
  Text : string;
  ToolRequest : option ToolRequest.t;    (* nil when absent *)
  ToolResponse : option ToolResponse.t;  (* nil when absent *)
  Metadata : list (string * any)
}.

Definition IsToolRequest (p : t) : bool := isToolRequestKind (Kind p).

Definition IsText (p : t) : bool := isTextKind (Kind p).

Definition IsData (p : t) : bool := isDataKind (Kind p).

(** A tool request whose metadata has a non-nil "interrupt" entry. *)
Definition IsInterrupt (p : t) : bool :=
  IsToolRequest p &&
  match lookup "interrupt" (Metadata p) with
  | Some Nil | None => false
  | Some _ => true
  end.
End Part.

Inductive Role : Type := RoleSystem | RoleUser | RoleModel | RoleTool.

Module Message.
Record t : Type := { Role_ : Role; Content : list Part.t }.

(** Text returns the contents of a Message as a string: nothing for no
    content, the text of its only part, or the text of its text and data
    parts, concatenated. *)
Definition Text (m : t) : string :=
  match Content m with
  | [] => ""
  | [p] => Part.Text p
  | content =>
      String.concat ""
        (map Part.Text
           (filter (fun p => Part.IsText p || Part.IsData p) content))
  end.
End Message.

Module ModelResponse.
Record t : Type := {
  Message : option Message.t;      (* nil when absent *)
  Request : list Message.t;        (* Request.Messages *)
  FinishReason : string
}.

Definition Interrupts (mr : t) : list Part.t :=
  match Message mr with
  | None => []
  | Some m => filter Part.IsInterrupt (Message.Content m)
  end.

Definition History (mr : t) : list Message.t :=
  match Message mr with
  | None => Request mr
  | Some m => Request mr ++ [m]
  end.

Definition Text (mr : t) : string :=
  match Message mr with
  | None => ""
  | Some m => Message.Text m
  end.
End ModelResponse.

(** The methods of [ai.Tool] the handlers use; [Respond] is called with nil
    options. *)
Record Tool : Type := {
  Name : string;
  Respond : Part.t -> any -> Part.t
}.

(** [WithPrompt(text, args...)]: the only call site passes one argument, an
    error value or nil. *)
Inductive GenerateOption : Type :=
| WithMessages (messages : list Message.t)
| WithTools (tools : list Tool)
| WithToolResponses (parts : list Part.t)
| WithPrompt (text : string) (args : list (option error))
| WithSystem (text : string).

End ai.
Import ai.

(** ** Calls, transcripts and computations *)

(** One call to a collaborator, with what it returned. *)
Inductive Event : Type :=
| LookupToolCall (name : string) (tool : option Tool)
| CtxPoll (done : option error)
| UserInteractionCall (input : QuestionInput) (answer : string)
    (err : option error)
| GenerateCall (opts : list GenerateOption) (result : error + ModelResponse.t)
| GenerateBoolCall (prompt : string) (history : list Message.t)
    (result : error + bool).

Definition Transcript : Type := list Event.

(** How a Go function call ends: [return r, nil], [return nil, err], a
    run-time panic, or not within the iterations allowed. *)
Inductive outcome (A : Type) : Type :=
| Return (a : A)
| Throw (err : error)
| Panic
| OutOfFuel.
Arguments Throw {A} err.
Arguments Panic {A}.
Arguments OutOfFuel {A}.

(** A computation reads the transcript so far and yields its outcome and
    the events it added. *)
Definition M (A : Type) : Type := Transcript -> outcome A * list Event.

Definition ret {A : Type} (a : A) : M A := fun _ => (Return a, []).
Definition throw {A : Type} (err : error) : M A := fun _ => (Throw err, []).
Definition panic {A : Type} : M A := fun _ => (Panic, []).
Definition outOfFuel {A : Type} : M A := fun _ => (OutOfFuel, []).

Definition bind {A B : Type} (m : M A) (k : A -> M B) : M B :=
  fun t =>
    match m t with
    | (Return a, e1) => let (o, e2) := k a (t ++ e1) in (o, e1 ++ e2)
    | (Throw err, e1) => (Throw err, e1)
    | (Panic, e1) => (Panic, e1)
    | (OutOfFuel, e1) => (OutOfFuel, e1)
    end.

(** A call to a collaborator: its answer depends on the transcript, and the
    call is recorded. *)
Definition call {R : Type} (answer : Transcript -> R) (record : R -> Event)
  : M R :=
  fun t => (Return (answer t), [record (answer t)]).

Declare Scope go_scope.
Delimit Scope go_scope with go.
Notation "x <- m ;; k" := (bind m (fun x => k))
  (at level 61, m at next level, right associativity) : go_scope.
Notation "' pat <- m ;; k" := (bind m (fun x => match x with pat => k end))
  (at level 61, pat pattern, m at next level, right associativity) : go_scope.
Local Open Scope go_scope.

(** ** The collaborators *)

(** [context.Context]: [ctx.Err()] at the moment of the call, nil (None)
    while the context is not done. *)
Definition Context : Type := Transcript -> option error.

(** Generator represents an AI model that can generate responses and access
    tools.  [Generate] and [GenerateBool] return a value or a non-nil error. *)
Record Generator : Type := {
  Generate : Transcript -> list GenerateOption -> error + ModelResponse.t;
  LookupTool : Transcript -> string -> option Tool;
  GenerateBool : Transcript -> string -> list Message.t -> error + bool
}.

(** UserInteractionFunc sends questions to the user and returns their
    answer: the pair [(string, error)] as the function returns it. *)
Definition UserInteractionFunc : Type :=
  Transcript -> QuestionInput -> string * option error.

(** [select { case <-ctx.Done(): return nil, ctx.Err(); default: }] *)
Definition checkDone {A : Type} (ctx : Context) (k : M A) : M A :=
  done <- call ctx CtxPoll ;;
  match done with
  | Some err => throw err
  | None => k
  end.

Definition lookupTool (g : Generator) (name : string) : M (option Tool) :=
  call (fun t => LookupTool g t name) (LookupToolCall name).

Definition generate (g : Generator) (opts : list GenerateOption)
  : M ModelResponse.t :=
  r <- call (fun t => Generate g t opts) (GenerateCall opts) ;;
  match r with
  | inl err => throw err
  | inr response => ret response
  end.

Definition generateBool (g : Generator) (prompt : string)
  (history : list Message.t) : M bool :=
  r <- call (fun t => GenerateBool g t prompt history)
            (GenerateBoolCall prompt history) ;;
  match r with
  | inl err => throw err
  | inr b => ret b
  end.

Definition userInteraction (f : UserInteractionFunc) (input : QuestionInput)
  : M (string * option error) :=
  call (fun t => f t input)
       (fun r => UserInteractionCall input (fst r) (snd r)).

(** ** interruption_handler.go *)
Module InterruptionHandler.

(** InterruptionHandler handles interruptions during AI generation,
    specifically for asking clarifying questions. *)
Record t : Type := {
  generator : Generator;
  UserInteraction : UserInteractionFunc
}.

(** [for _, part := range response.Interrupts() { ... }], from [answers]
    as collected so far. *)
Fixpoint forInterrupts (ih : t) (ctx : Context) (askQuestion : Tool)
  (parts : list Part.t) (answers : list Part.t) : M (list Part.t) :=
  match parts with
  | [] => ret answers
  | part :: rest =>
      checkDone ctx (
        match Part.ToolRequest part with
        | None => panic   (* part.ToolRequest.Input on a nil pointer *)
        | Some toolRequest =>
            match getQuestionInput (ToolRequest.Input toolRequest) with
            | inl err => throw err
            | inr questionInput =>
                r <- userInteraction (UserInteraction ih) questionInput ;;
                match snd r with
                | Some err => throw err
                | None =>
                    forInterrupts ih ctx askQuestion rest
                      (answers ++ [Respond askQuestion part (Str (fst r))])
                end
            end
        end)
  end.

(** [for response.FinishReason == "interrupted" { ... }], at most [fuel]
    iterations. *)
Fixpoint forInterrupted (fuel : nat) (ih : t) (ctx : Context)
  (askQuestion : Tool) (response : ModelResponse.t) : M ModelResponse.t :=
  if String.eqb (ModelResponse.FinishReason response) "interrupted" then
    match fuel with
    | 0 => outOfFuel
    | S fuel' =>
        checkDone ctx (
          answers <- forInterrupts ih ctx askQuestion
                       (ModelResponse.Interrupts response) [] ;;
          response' <- generate (generator ih)
                         [WithMessages (ModelResponse.History response);
                          WithTools [askQuestion];
                          WithToolResponses answers] ;;
          forInterrupted fuel' ih ctx askQuestion response')
    end
  else ret response.

(** handleResponse processes the model response, handling any "askQuestion"
    tool calls (interrupts). *)
Definition handleResponse (fuel : nat) (ih : t) (ctx : Context)
  (response : ModelResponse.t) : M ModelResponse.t :=
  askQuestion <- lookupTool (generator ih) "askQuestion" ;;
  match askQuestion with
  | None => throw (errorString "askQuestion tool not found")
  | Some askQuestion => forInterrupted fuel ih ctx askQuestion response
  end.

End InterruptionHandler.

(** ** conversation_loop_handler.go *)
Module ConversationLoopHandler.

Record t : Type := {
  generator : Generator;
  validationPrompt : string;
  interruptionHandler : InterruptionHandler.t
}.

(** [for hasMoreQuestions { ... }]: the body runs once and then again at
    most [n] times; each call of the interruption handler is allowed [fuel]
    iterations. *)
Fixpoint forHasMoreQuestions (n fuel : nat) (cv : t) (ctx : Context)
  (askQuestion : Tool) (response : ModelResponse.t) : M ModelResponse.t :=
  response <- InterruptionHandler.handleResponse fuel
                (interruptionHandler cv) ctx response ;;
  isConversationFinished <- generateBool (generator cv) (validationPrompt cv)
                              (ModelResponse.History response) ;;
  if negb isConversationFinished then
    r <- userInteraction
           (InterruptionHandler.UserInteraction (interruptionHandler cv))
           {| Question := ModelResponse.Text response; Choices := [] |} ;;
    response' <- generate (generator cv)
                   [WithMessages (ModelResponse.History response);
                    WithTools [askQuestion];
                    WithPrompt (fst r) [snd r]] ;;
    match n with
    | 0 => outOfFuel
    | S n' => forHasMoreQuestions n' fuel cv ctx askQuestion response'
    end
  else ret response.

Definition handleResponse (fuel : nat) (cv : t) (ctx : Context)
  (response : ModelResponse.t) : M ModelResponse.t :=
  askQuestion <- lookupTool (generator cv) "askQuestion" ;;
  match askQuestion with
  | None => throw (errorString "askQuestion tool not found")
  | Some askQuestion => forHasMoreQuestions fuel fuel cv ctx askQuestion response
  end.

End ConversationLoopHandler.

(** ** run_agent.go *)

(** ResponseHandler defines the interface for handling model responses:
    its one method, given the iterations allowed. *)
Definition ResponseHandler : Type :=
  nat -> Context -> ModelResponse.t -> M ModelResponse.t.

(** The two types of the repository that implement the interface. *)
Definition interruptionResponseHandler (ih : InterruptionHandler.t)
  : ResponseHandler :=
  fun fuel => InterruptionHandler.handleResponse fuel ih.

Definition conversationResponseHandler (cv : ConversationLoopHandler.t)
  : ResponseHandler :=
  fun fuel => ConversationLoopHandler.handleResponse fuel cv.

(** Options contains the configuration for running the agent. *)
Module Options.
Record t : Type := {
  generator : Generator;
  systemPrompt : string;
  userPrompt : string;
  toolNames : list string;
  responseHandler : option ResponseHandler   (* nil when absent *)
}.
End Options.

(** [for _, toolName := range options.toolNames { ... }], from [tools] as
    collected so far. *)
Fixpoint lookupTools (g : Generator) (toolNames : list string)
  (tools : list Tool) : M (list Tool) :=
  match toolNames with
  | [] => ret tools
  | toolName :: rest =>
      tool <- lookupTool g toolName ;;
      match tool with
      | None => throw (errorString (toolName ++ " tool not found"))
      | Some tool => lookupTools g rest (tools ++ [tool])
      end
  end.

(** RunAgent communicates with a user to ask clarifying questions during AI
    generation.  The Go function returns [("", err)] or [(text, nil)]. *)
Definition RunAgent (fuel : nat) (ctx : Context) (options : Options.t)
  : M string :=
  tools <- lookupTools (Options.generator options)
             (Options.toolNames options) [] ;;
  response <- generate (Options.generator options)
                [WithPrompt (Options.userPrompt options) [];
                 WithSystem (Options.systemPrompt options);
                 WithTools tools] ;;
  match Options.responseHandler options with
  | None => ret (ModelResponse.Text response)
  | Some responseHandler =>
      response <- responseHandler fuel ctx response ;;
      ret (ModelResponse.Text response)
  end.

(** ** terminal-question.go *)
Module Terminal.

(** Response represents a user's input from the terminal or an error. *)
Record Response : Type := { Value : string; Err : option error }.

Definition bytes (l : list nat) : string :=
  string_of_list_ascii (map ascii_of_nat l).

(** The UTF-8 encodings of the code points [unicode.IsSpace] accepts. *)
Definition spaces : list string :=
  map bytes
    [[9]; [10]; [11]; [12]; [13]; [32]; [194; 133]; [194; 160];
     [225; 154; 128];
     [226; 128; 128]; [226; 128; 129]; [226; 128; 130]; [226; 128; 131];
     [226; 128; 132]; [226; 128; 133]; [226; 128; 134]; [226; 128; 135];
     [226; 128; 136]; [226; 128; 137]; [226; 128; 138];
     [226; 128; 168]; [226; 128; 169]; [226; 128; 175];
     [226; 129; 159]; [227; 128; 128]].

Fixpoint dropPrefix (p s : string) : option string :=
  match p with
  | EmptyString => Some s
  | String a p' =>
      match s with
      | EmptyString => None
      | String b s' => if Ascii.eqb a b then dropPrefix p' s' else None
      end
  end.

(** [s] without the first of [encodings] it starts with. *)
Fixpoint dropOne (encodings : list string) (s : string) : option string :=
  match encodings with
  | [] => None
  | e :: rest =>
      match dropPrefix e s with
      | Some s' => Some s'
      | None => dropOne rest s
      end
  end.

Fixpoint dropAll (n : nat) (encodings : list string) (s : string) : string :=
  match n with
  | 0 => s
  | S n' =>
      match dropOne encodings s with
      | Some s' => dropAll n' encodings s'
      | None => s
      end
  end.

Definition reverse (s : string) : string :=
  string_of_list_ascii (rev (list_ascii_of_string s)).

Definition trimLeft (s : string) : string :=
  dropAll (String.length s) spaces s.

Definition trimRight (s : string) : string :=
  reverse (dropAll (String.length s) (map reverse spaces) (reverse s)).

(** [strings.TrimSpace]: all leading and trailing white space removed. *)
Definition TrimSpace (s : string) : string := trimRight (trimLeft s).

(** What [bufio.Reader.ReadString('\n')] returns call after call on a
    source that holds [content] and then fails with [readErr]: the lines,
    each with its newline, and then the rest with the error. *)
Fixpoint splitLines (content line : string) : list string * string :=
  match content with
  | EmptyString => ([], line)
  | String c rest =>
      if Ascii.eqb c (ascii_of_nat 10) then
        let (lines, remainder) := splitLines rest "" in
        ((line ++ String c "")%string :: lines, remainder)
      else splitLines rest (line ++ String c "")%string
  end.

(** One step of the reading goroutine or of [Interactor], with what the
    surroundings answered. *)
Inductive Event : Type :=
| Poll (done : bool)       (* select { case <-ctx.Done(): ...; default: } *)
| ReadString (data : string) (err : option error)
| Println (text : string)
| Offer (r : Response) (sent : bool).
    (* select { case tr.inputCh <- r: ; case <-ctx.Done(): } *)

(** The surroundings of the goroutine: whether the context is done when
    polled, and whether a value offered on the channel is received (true)
    or the context is done first (false). *)
Record World : Type := {
  ctxDone : list Event -> bool;
  received : list Event -> Response -> bool
}.

(** readLoop continuously reads from the source and sends responses to the
    input channel; [t] is what happened so far, the result what it adds. *)
Fixpoint readLoop (w : World) (lines : list string) (remainder : string)
  (readErr : error) (t : list Event) : list Event :=
  if ctxDone w t then [Poll true]
  else
    match lines with
    | [] =>
        let r := {| Value := ""; Err := Some readErr |} in
        [Poll false;
         ReadString remainder (Some readErr);
         Offer r (received w (t ++ [Poll false;
                                    ReadString remainder (Some readErr)]) r)]
    | stdInput :: more =>
        let sentence := TrimSpace stdInput in
        if String.eqb sentence "" then
          Poll false :: ReadString stdInput None
          :: Println "Please provide non empty answer"
          :: readLoop w more remainder readErr
               (t ++ [Poll false; ReadString stdInput None;
                      Println "Please provide non empty answer"])
        else
          let r := {| Value := sentence; Err := None |} in
          let sent := received w (t ++ [Poll false;
                                        ReadString stdInput None]) r in
          Poll false :: ReadString stdInput None :: Offer r sent
          :: (if sent then
                readLoop w more remainder readErr
                  (t ++ [Poll false; ReadString stdInput None; Offer r sent])
              else [])
    end.

(** The goroutine on a source holding [content]. *)
Definition readSource (w : World) (content : string) (readErr : error)
  : list Event :=
  let (lines, remainder) := splitLines content "" in
  readLoop w lines remainder readErr [].

(** [for i, choice := range input.Choices { ... }] from index [i], the
    slice having [n] elements: what each [Printf("%s%s\n", ...)] writes. *)
Fixpoint printChoices (n i : nat) (choices : list string) : list string :=
  match choices with
  | [] => []
  | choice :: rest =>
      let suffix := if Nat.eqb i (n - 1) then "" else ", " in
      (choice ++ suffix ++ String (ascii_of_nat 10) "")%string
      :: printChoices n (S i) rest
  end.

(** Which case of the final [select] is taken. *)
Inductive Race : Type :=
| CtxDone (err : error)      (* case <-ctx.Done() *)
| Tick                       (* case <-ticker.C *)
| Input (res : Response).    (* case res := <-tr.inputCh *)

(** Interactor displays a question to the user in the terminal and returns
    their input: what it writes to standard output, and its two results. *)
Definition Interactor (input : QuestionInput) (race : Race)
  : list string * (string * option error) :=
  let newline := String (ascii_of_nat 10) "" in
  (((Question input ++ newline)%string
    :: (if Nat.ltb 0 (length (Choices input)) then
          printChoices (length (Choices input)) 0 (Choices input) ++ [newline]
        else [])),
   match race with
   | CtxDone err => ("", Some err)
   | Tick => ("", Some (errorString "Response was not provided in time"))
   | Input res => (Value res, Err res)
   end).

(** Interactor as the handlers call it, the outcome of each race given by
    the transcript. *)
Definition asUserInteraction (race : Transcript -> Race)
  : UserInteractionFunc :=
  fun t input => snd (Interactor input (race t)).

End Terminal.

(** ** run_agent_test.go: the mock collaborators *)
Module Mock.

Definition createMockTool (name : string) : Tool :=
  {| Name := name;
     Respond := fun _ outputData =>
       {| Part.Kind := PartText; Part.Text := "";
          Part.ToolRequest := None;
          Part.ToolResponse :=
            Some {| ToolResponse.Name := name; ToolResponse.Ref := "";
                    ToolResponse.Output := outputData |};
          Part.Metadata := [] |} |}.

Definition createToolRequestPart (name question : string)
  (choices : list string) : Part.t :=
  {| Part.Kind := PartToolRequest; Part.Text := "";
     Part.ToolRequest :=
       Some {| ToolRequest.Name := name; ToolRequest.Ref := "";
               ToolRequest.Input :=
                 Map [("question", Str question);
                      ("choices", StrSlice choices)] |};
     Part.ToolResponse := None;
     Part.Metadata := [("interrupt", Str "interruptTest")] |}.

Definition textPart (text : string) : Part.t :=
  {| Part.Kind := PartText; Part.Text := text; Part.ToolRequest := None;
     Part.ToolResponse := None; Part.Metadata := [] |}.

Definition createTextResponse (text finishReason : string)
  : ModelResponse.t :=
  {| ModelResponse.Message :=
       Some {| Message.Role_ := RoleModel; Message.Content := [textPart text] |};
     ModelResponse.Request := [];
     ModelResponse.FinishReason := finishReason |}.

Definition createInterruptedResponse (toolRequests : list Part.t)
  : ModelResponse.t :=
  {| ModelResponse.Message :=
       Some {| Message.Role_ := RoleModel; Message.Content := toolRequests |};
     ModelResponse.Request := [];
     ModelResponse.FinishReason := "interrupted" |}.

(** MockGenerator: [callIndex] and [boolCallIndex] are the numbers of
    earlier successful calls, read off the transcript. *)
Definition callIndex (t : Transcript) : nat :=
  length (filter (fun e => match e with
                           | GenerateCall _ (inr _) => true
                           | _ => false
                           end) t).

Definition boolCallIndex (t : Transcript) : nat :=
  length (filter (fun e => match e with
                           | GenerateBoolCall _ _ _ => true
                           | _ => false
                           end) t).

Definition messageHistory (served : list ModelResponse.t) : list Message.t :=
  flat_map (fun r => match ModelResponse.Message r with
                     | Some m => [m]
                     | None => []
                     end) served.

Fixpoint lookupTool (name : string) (tools : list (string * Tool))
  : option Tool :=
  match tools with
  | [] => None
  | (k, v) :: rest => if String.eqb k name then Some v else lookupTool name rest
  end.

Definition NewMockGenerator (responses : list ModelResponse.t)
  (tools : list (string * Tool)) (boolResponses : list bool) : Generator :=
  {| Generate := fun t _ =>
       match nth_error responses (callIndex t) with
       | None => inl (errorString "no more mock responses available")
       | Some response =>
           inr {| ModelResponse.Message := ModelResponse.Message response;
                  ModelResponse.Request :=
                    messageHistory (firstn (callIndex t) responses);
                  ModelResponse.FinishReason :=
                    ModelResponse.FinishReason response |}
       end;
     LookupTool := fun _ name => lookupTool name tools;
     GenerateBool := fun t _ _ =>
       match nth_error boolResponses (boolCallIndex t) with
       | None => inr true
       | Some response => inr response
       end |}.

Definition tools : list (string * Tool) :=
  [("askQuestion", createMockTool "askQuestion")].

(** [context.Background()] and a context cancelled before the call. *)
Definition Background : Context := fun _ => None.
Definition cancelled : Context := fun _ => Some Canceled.

(** A user who answers from a table of questions, "" otherwise. *)
Fixpoint answerFor (answers : list (string * string)) (question : string)
  : string :=
  match answers with
  | [] => ""
  | (q, a) :: rest => if String.eqb q question then a else answerFor rest question
  end.

Definition answering (answers : list (string * string)) : UserInteractionFunc :=
  fun _ input => (answerFor answers (Question input), None).

Definition constantly (answer : string) : UserInteractionFunc :=
  fun _ _ => (answer, None).

Definition failing (err : error) : UserInteractionFunc :=
  fun _ _ => ("", Some err).

End Mock.

(** ** The test scenarios as inputs *)

(** Two simultaneous interrupts in one Response. *)
Definition twoInterrupts : ModelResponse.t :=
  Mock.createInterruptedResponse
    [Mock.createToolRequestPart "askQuestion" "What gender are the children?"
       ["Boy"; "Girl"; "Both"];
     Mock.createToolRequestPart "askQuestion" "What are their ages?"
       ["5-7"; "8-10"; "11-13"; "14+"]].

Definition twoInterruptsHandler : InterruptionHandler.t :=
  {| InterruptionHandler.generator :=
       Mock.NewMockGenerator
         [Mock.createTextResponse "Based on both genders and ages..." "stop"]
         Mock.tools [];
     InterruptionHandler.UserInteraction :=
       Mock.answering [("What gender are the children?", "Boy and Girl");
                       ("What are their ages?", "8 and 11")] |}.

(** A pending request whose question is a number. *)
Definition numericQuestionPart : Part.t :=
  {| Part.Kind := PartToolRequest; Part.Text := "";
     Part.ToolRequest :=
       Some {| ToolRequest.Name := "askQuestion"; ToolRequest.Ref := "";
               ToolRequest.Input :=
                 Map [("question", Float64 (Finite 42 0))] |};
     Part.ToolResponse := None;
     Part.Metadata := [("interrupt", Str "interruptTest")] |}.

Definition malformedSecond : ModelResponse.t :=
  Mock.createInterruptedResponse
    [Mock.createToolRequestPart "askQuestion" "What gender?" ["Boy"; "Girl"];
     numericQuestionPart].

(** "Conversation loops once": the verdicts are false, then true, and the
    user gives [answer] (with [err]) whatever is asked. *)
Definition loopsOnce (interaction : UserInteractionFunc)
  : ConversationLoopHandler.t :=
  let mockGen :=
    Mock.NewMockGenerator [Mock.createTextResponse "Final Answer" "stop"]
      Mock.tools [false; true] in
  {| ConversationLoopHandler.generator := mockGen;
     ConversationLoopHandler.validationPrompt := "Is finished?";
     ConversationLoopHandler.interruptionHandler :=
       {| InterruptionHandler.generator := mockGen;
          InterruptionHandler.UserInteraction := interaction |} |}.

Definition simpleResponse : ModelResponse.t :=
  Mock.createTextResponse "Hello" "stop".

(** * Properties *)

(** ** Reading a list of events *)

Definition isInteraction (e : Event) : bool :=
  match e with UserInteractionCall _ _ _ => true | _ => false end.

Definition isGenerate (e : Event) : bool :=
  match e with GenerateCall _ _ => true | _ => false end.

Definition isGenerateBool (e : Event) : bool :=
  match e with GenerateBoolCall _ _ _ => true | _ => false end.

Definition hasPrompt (opts : list GenerateOption) : bool :=
  existsb (fun o => match o with WithPrompt _ _ => true | _ => false end) opts.

(** The boolean evaluations made, in order: the history judged and the
    verdict. *)
Definition boolEvaluations (evs : list Event)
  : list (list Message.t * (error + bool)) :=
  flat_map (fun e => match e with
                     | GenerateBoolCall _ history result => [(history, result)]
                     | _ => []
                     end) evs.

(** The options of the generation calls seeded with a prompt, in order:
    the Completion Loop's own calls. *)
Definition promptGenerations (evs : list Event) : list (list GenerateOption) :=
  flat_map (fun e => match e with
                     | GenerateCall opts _ => if hasPrompt opts then [opts] else []
                     | _ => []
                     end) evs.

(** The prompt texts of the generation calls, in order. *)
Definition promptTexts (evs : list Event) : list string :=
  flat_map (fun opts =>
              flat_map (fun o => match o with
                                 | WithPrompt text _ => [text]
                                 | _ => []
                                 end) opts)
           (promptGenerations evs).

(** What the Resolution Loop may emit: no boolean evaluation and no
    generation call seeded with a prompt. *)
Definition resolutionEvent (e : Event) : bool :=
  match e with
  | GenerateBoolCall _ _ _ => false
  | GenerateCall opts _ => negb (hasPrompt opts)
  | _ => true
  end.

Definition notFound : error := errorString "askQuestion tool not found".

Definition resolved (response : ModelResponse.t) : Prop :=
  ModelResponse.FinishReason response <> "interrupted".

(** Every Interaction call comes right after a poll that found the context
    live. *)
Inductive Polled : list Event -> Prop :=
| Polled_nil : Polled []
| Polled_ask q answer err rest :
    Polled rest ->
    Polled (CtxPoll None :: UserInteractionCall q answer err :: rest)
| Polled_other ev rest :
    isInteraction ev = false -> Polled rest -> Polled (ev :: rest).

(** The error a call came back with: a context found done, a failed
    Interaction, a failed generation or boolean evaluation. *)
Definition failure (e : Event) : option error :=
  match e with
  | CtxPoll (Some err) => Some err
  | UserInteractionCall _ _ (Some err) => Some err
  | GenerateCall _ (inl err) => Some err
  | GenerateBoolCall _ _ (inl err) => Some err
  | _ => None
  end.

(** A call that fails is the last event, and its error is what the handler
    returns. *)
Definition failureEnds {A : Type} (o : outcome A) (evs : list Event) : Prop :=
  Forall (fun e => failure e = None) evs \/
  exists a e err,
    evs = a ++ [e] /\ failure e = Some err /\
    Forall (fun e => failure e = None) a /\ o = Throw err.

Definition Inv {A : Type} (r : outcome A * list Event) : Prop :=
  Polled (snd r) /\ failureEnds (fst r) (snd r).

(** The payload of a pending request decodes to [q]. *)
Definition decodesTo (part : Part.t) (q : QuestionInput) : Prop :=
  exists toolRequest,
    Part.ToolRequest part = Some toolRequest /\
    getQuestionInput (ToolRequest.Input toolRequest) = inr q.

(** The payload of a pending request fails to decode, with [err]. *)
Definition decodeFails (part : Part.t) (err : error) : Prop :=
  exists toolRequest,
    Part.ToolRequest part = Some toolRequest /\
    getQuestionInput (ToolRequest.Input toolRequest) = inl err.

(** The events of asking the questions one after the other: a check of the
    context, then the Interaction call and its answer. *)
Definition asked (qas : list (QuestionInput * string)) : list Event :=
  flat_map (fun qa => [CtxPoll None;
                       UserInteractionCall (fst qa) (snd qa) None]) qas.

(** One Answer per pending request, built by the tool's [Respond] from the
    request and the answer given to it. *)
Definition respondAll (askQuestion : Tool) (parts : list Part.t)
  (answers : list string) : list Part.t :=
  map (fun pa => Respond askQuestion (fst pa) (Str (snd pa)))
      (combine parts answers).

(** After a verdict "not finished" on a resolved Response: one Interaction
    call asking the text of that Response and, when that call returns no
    error, one generation call with the History, the tool, and the answer
    as the text of the prompt. *)
Inductive Seeded (askQuestion : Tool) : list Event -> Prop :=
| Seeded_nil : Seeded askQuestion []
| Seeded_more prompt response answer err rest :
    resolved response ->
    (err = None ->
     exists result rest',
       rest = GenerateCall
                [WithMessages (ModelResponse.History response);
                 WithTools [askQuestion];
                 WithPrompt answer [None]] result
              :: rest') ->
    Seeded askQuestion rest ->
    Seeded askQuestion
      (GenerateBoolCall prompt (ModelResponse.History response) (inr false)
       :: UserInteractionCall
            {| Question := ModelResponse.Text response; Choices := [] |}
            answer err
       :: rest)
| Seeded_other ev rest :
    (forall prompt history, ev <> GenerateBoolCall prompt history (inr false)) ->
    Seeded askQuestion rest ->
    Seeded askQuestion (ev :: rest).

(** The reading of "a user message built from the text of the Response":
    every prompt of a run that judged a Response with text [text] is
    [seed text]. *)
Definition seededFromText (seed : string -> string) (text : string)
  (evs : list Event) : Prop :=
  Forall (fun prompt => prompt = seed text) (promptTexts evs).

(** What a map entry must be for the decoding into QuestionInput to accept
    it: under a key matching "question" a string or nil, under a key
    matching "choices" nil or a slice of strings and nils. *)
Definition stringish (v : any) : bool :=
  match v with Nil | Str _ => true | _ => false end.

Definition stringsish (v : any) : bool :=
  match v with
  | Nil | StrSlice _ => true
  | Slice l => forallb stringish l
  | _ => false
  end.

Definition wellShaped (kv : string * any) : bool :=
  if decode.fieldMatch (fst kv) "question" then stringish (snd kv)
  else if decode.fieldMatch (fst kv) "choices" then stringsish (snd kv)
  else true.

Definition unmatched (kv : string * any) : bool :=
  negb (decode.fieldMatch (fst kv) "question") &&
  negb (decode.fieldMatch (fst kv) "choices").

(** An ASCII letter in lower case. *)
Definition toLower (c : ascii) : ascii :=
  let n := nat_of_ascii c in
  if ((65 <=? n) && (n <=? 90))%nat then ascii_of_nat (n + 32)%nat else c.

(** [key] is [name] up to simple case folding: byte by byte the same ASCII
    character but for the case of a letter, where the encoding of U+017F
    (the long s) may stand for an s and that of U+212A (the Kelvin sign)
    for a k. *)
Inductive foldsTo : string -> string -> Prop :=
| foldsTo_nil : foldsTo "" ""
| foldsTo_ascii c d key name :
    (utf8.byte c <? utf8.RuneSelf)%N = true ->
    toLower c = toLower d ->
    foldsTo key name ->
    foldsTo (String c key) (String d name)
| foldsTo_long_s d key name :
    toLower d = "s"%char ->
    foldsTo key name ->
    foldsTo (String "197" (String "191" key)) (String d name)
| foldsTo_kelvin d key name :
    toLower d = "k"%char ->
    foldsTo key name ->
    foldsTo (String "226" (String "132" (String "170" key))) (String d name).

Definition zeroQuestionInput : QuestionInput :=
  {| Question := ""; Choices := [] |}.

(** The same on the encoded document. *)
Definition jsonStringish (j : json.JSON) : bool :=
  match j with json.JNull | json.JString _ => true | _ => false end.

Definition jsonStringsish (j : json.JSON) : bool :=
  match j with
  | json.JNull => true
  | json.JArray l => forallb jsonStringish l
  | _ => false
  end.

Definition jsonWellShaped (kj : string * json.JSON) : bool :=
  if decode.fieldMatch (fst kj) "question" then jsonStringish (snd kj)
  else if decode.fieldMatch (fst kj) "choices" then jsonStringsish (snd kj)
  else true.

(** The entries of a map, each value encoded. *)
Definition entries (m : list (string * any))
  : list (string * (error + json.JSON)) :=
  map (fun kx => (fst kx, json.Marshal (snd kx))) m.

(** "Succeeds on every map whose values are JSON-marshalable". *)
Definition acceptsEveryMarshalableMap : Prop :=
  forall m : list (string * any),
    (exists j, json.Marshal (Map m) = inr j) ->
    exists q, getQuestionInput (Map m) = inr q.

(** ** Reading a run, continued *)

(** The Responses that generation calls returned, in order. *)
Definition generated (evs : list Event) : list ModelResponse.t :=
  flat_map (fun e => match e with
                     | GenerateCall _ (inr r) => [r]
                     | _ => []
                     end) evs.

Definition interactionCount (evs : list Event) : nat :=
  length (filter isInteraction evs).

Definition generationCount (evs : list Event) : nat :=
  length (filter isGenerate evs).

Definition isCtxPoll (e : Event) : bool :=
  match e with CtxPoll _ => true | _ => false end.

(** The pending requests of a list of Responses, counted. *)
Definition pendingRequests (responses : list ModelResponse.t) : nat :=
  list_sum (map (fun r => length (ModelResponse.Interrupts r)) responses).

(** The shape of a run in which failures are handled as the Completion
    Loop handles them: a failed call ends the run with its error, an
    Interaction call comes after a check of the context or after a verdict
    "not finished", and only in the first case does its error end the run. *)
Inductive Halting {A : Type} (o : outcome A) : list Event -> Prop :=
| Halting_nil : Halting o []
| Halting_fatal e err :
    isInteraction e = false -> failure e = Some err -> o = Throw err ->
    Halting o [e]
| Halting_ask q answer rest :
    Halting o rest ->
    Halting o (CtxPoll None :: UserInteractionCall q answer None :: rest)
| Halting_ask_fatal q answer err :
    o = Throw err ->
    Halting o [CtxPoll None; UserInteractionCall q answer (Some err)]
| Halting_seed prompt history q answer err rest :
    Halting o rest ->
    Halting o (GenerateBoolCall prompt history (inr false)
               :: UserInteractionCall q answer err :: rest)
| Halting_quiet e rest :
    isInteraction e = false -> failure e = None ->
    Halting o rest -> Halting o (e :: rest).

(** The lookups of [names] succeed one after the other from transcript
    [t], giving [tools]. *)
Inductive Registered (g : Generator)
  : Transcript -> list string -> list Tool -> Prop :=
| Registered_nil t : Registered g t [] []
| Registered_cons t name names tool tools :
    LookupTool g t name = Some tool ->
    Registered g (t ++ [LookupToolCall name (Some tool)]) names tools ->
    Registered g t (name :: names) (tool :: tools).

Definition lookupCalls (names : list string) (tools : list Tool)
  : list Event :=
  map (fun nt => LookupToolCall (fst nt) (Some (snd nt))) (combine names tools).

(** The options of the first generation call of RunAgent. *)
Definition firstCall (options : Options.t) (tools : list Tool)
  : list GenerateOption :=
  [WithPrompt (Options.userPrompt options) [];
   WithSystem (Options.systemPrompt options);
   WithTools tools].

(** A payload as the model sends it: the question a string, the choices a
    slice of strings of either type. *)
Definition choicesValue (v : any) (choices : list string) : Prop :=
  v = StrSlice choices \/ v = Slice (map Str choices).

(** ** Reading the events of the terminal *)

(** The Responses offered on the channel, in order, and those received. *)
Definition offers (evs : list Terminal.Event) : list Terminal.Response :=
  flat_map (fun e => match e with
                     | Terminal.Offer r _ => [r]
                     | _ => []
                     end) evs.

Definition deliveries (evs : list Terminal.Event) : list Terminal.Response :=
  flat_map (fun e => match e with
                     | Terminal.Offer r true => [r]
                     | _ => []
                     end) evs.

Definition prints (evs : list Terminal.Event) : list string :=
  flat_map (fun e => match e with
                     | Terminal.Println text => [text]
                     | _ => []
                     end) evs.

Definition reads (evs : list Terminal.Event) : nat :=
  length (filter (fun e => match e with
                           | Terminal.ReadString _ _ => true
                           | _ => false
                           end) evs).

Definition isBlank (line : string) : bool :=
  String.eqb (Terminal.TrimSpace line) "".

(** The answers a list of lines holds: the lines trimmed, the blank ones
    left out. *)
Definition answersOf (lines : list string) : list Terminal.Response :=
  map (fun line => {| Terminal.Value := Terminal.TrimSpace line;
                      Terminal.Err := None |})
      (filter (fun line => negb (isBlank line)) lines).

(** Surroundings in which the context is never done and every value
    offered is received. *)
Definition attended (w : Terminal.World) : Prop :=
  (forall t, Terminal.ctxDone w t = false) /\
  (forall t r, Terminal.received w t r = true).

Definition alwaysAttended : Terminal.World :=
  {| Terminal.ctxDone := fun _ => false;
     Terminal.received := fun _ _ => true |}.

(** The goroutine stopped here: the context was found done, or a value
    offered was not received. *)
Definition stops (e : Terminal.Event) : bool :=
  match e with
  | Terminal.Poll true | Terminal.Offer _ false => true
  | _ => false
  end.

Definition newline : string := String (ascii_of_nat 10) "".

Definition noNewline (s : string) : Prop :=
  forallb (fun c => negb (Ascii.eqb c (ascii_of_nat 10)))
          (list_ascii_of_string s) = true.

(** Lines as a reader returns them, each with its newline. *)
Definition terminated (ls : list string) : list string :=
  map (fun l => (l ++ newline)%string) ls.

(** The Response that reports a failed read. *)
Definition failed (err : error) : Terminal.Response :=
  {| Terminal.Value := ""; Terminal.Err := Some err |}.

Definition pleaseAnswer : string := "Please provide non empty answer".

(** Every Interaction call in [evs], made from transcript [t] on, is
    recorded with what the Interaction capability returns at that point. *)
Definition Recorded (interaction : UserInteractionFunc) (t : Transcript)
  (evs : list Event) : Prop :=
  forall a q answer err b,
    evs = a ++ UserInteractionCall q answer err :: b ->
    interaction (t ++ a) q = (answer, err).

(** ** Stepping a computation *)

Lemma bind_call {R B : Type} (answer : Transcript -> R) (record : R -> Event)
  (k : R -> M B) (t : Transcript) :
  bind (call answer record) k t =
  (fst (k (answer t) (t ++ [record (answer t)])),
   record (answer t) :: snd (k (answer t) (t ++ [record (answer t)]))).
Proof.
  unfold bind, call.
  destruct (k (answer t) (t ++ [record (answer t)])); reflexivity.
Qed.

Lemma bind_Return {A B : Type} (m : M A) (k : A -> M B) (t : Transcript)
  (a : A) (e1 : list Event) :
  m t = (Return a, e1) ->
  bind m k t = (fst (k a (t ++ e1)), e1 ++ snd (k a (t ++ e1))).
Proof.
  intros H. unfold bind. rewrite H.
  destruct (k a (t ++ e1)); reflexivity.
Qed.

Lemma bind_Throw {A B : Type} (m : M A) (k : A -> M B) (t : Transcript)
  (err : error) (e1 : list Event) :
  m t = (Throw err, e1) -> bind m k t = (Throw err, e1).
Proof. intros H. unfold bind. rewrite H. reflexivity. Qed.

Lemma bind_not_Return {A B : Type} (m : M A) (k : A -> M B) (t : Transcript) :
  (forall a, fst (m t) <> Return a) ->
  snd (bind m k t) = snd (m t) /\
  (forall b, fst (bind m k t) <> Return b) /\
  (forall err, fst (bind m k t) = Throw err <-> fst (m t) = Throw err).
Proof.
  intros H. unfold bind.
  destruct (m t) as [[a | err | | ] e1]; cbn in *.
  - exfalso. exact (H a eq_refl).
  - repeat split; congruence.
  - repeat split; congruence.
  - repeat split; congruence.
Qed.

Lemma bind_Return_inv {A B : Type} (m : M A) (k : A -> M B) (t : Transcript)
  (b : B) (evs : list Event) :
  bind m k t = (Return b, evs) ->
  exists a e1 e2,
    m t = (Return a, e1) /\ k a (t ++ e1) = (Return b, e2) /\ evs = e1 ++ e2.
Proof.
  unfold bind. destruct (m t) as [[a | err | | ] e1]; try discriminate.
  destruct (k a (t ++ e1)) as [o e2] eqn:Hk. intros H.
  injection H as -> <-. exists a, e1, e2. auto.
Qed.

Lemma checkDone_live {A : Type} (ctx : Context) (k : M A) (t : Transcript) :
  ctx t = None ->
  checkDone ctx k t =
  (fst (k (t ++ [CtxPoll None])), CtxPoll None :: snd (k (t ++ [CtxPoll None]))).
Proof.
  intros H. unfold checkDone. rewrite bind_call. rewrite H. reflexivity.
Qed.

Lemma checkDone_done {A : Type} (ctx : Context) (k : M A) (t : Transcript)
  (err : error) :
  ctx t = Some err ->
  checkDone ctx k t = (Throw err, [CtxPoll (Some err)]).
Proof.
  intros H. unfold checkDone. rewrite bind_call. rewrite H. reflexivity.
Qed.

Lemma surjective_run {A : Type} (r : outcome A * list Event) :
  (fst r, snd r) = r.
Proof. destruct r; reflexivity. Qed.

Lemma eqb_interrupted (response : ModelResponse.t) :
  ModelResponse.FinishReason response <> "interrupted" ->
  String.eqb (ModelResponse.FinishReason response) "interrupted" = false.
Proof. intros H. apply String.eqb_neq. exact H. Qed.

Lemma bind_generate {B : Type} (g : Generator) (opts : list GenerateOption)
  (k : ModelResponse.t -> M B) (t : Transcript) :
  bind (generate g opts) k t =
  match Generate g t opts with
  | inl err => (Throw err, [GenerateCall opts (inl err)])
  | inr r =>
      (fst (k r (t ++ [GenerateCall opts (inr r)])),
       GenerateCall opts (inr r) :: snd (k r (t ++ [GenerateCall opts (inr r)])))
  end.
Proof.
  unfold bind at 1, generate. rewrite bind_call.
  destruct (Generate g t opts) as [err | r]; cbn; [reflexivity|].
  destruct (k r _); reflexivity.
Qed.

Lemma bind_generateBool {B : Type} (g : Generator) (prompt : string)
  (history : list Message.t) (k : bool -> M B) (t : Transcript) :
  bind (generateBool g prompt history) k t =
  match GenerateBool g t prompt history with
  | inl err => (Throw err, [GenerateBoolCall prompt history (inl err)])
  | inr b =>
      (fst (k b (t ++ [GenerateBoolCall prompt history (inr b)])),
       GenerateBoolCall prompt history (inr b)
       :: snd (k b (t ++ [GenerateBoolCall prompt history (inr b)])))
  end.
Proof.
  unfold bind at 1, generateBool. rewrite bind_call.
  destruct (GenerateBool g t prompt history) as [err | b]; cbn; [reflexivity|].
  destruct (k b _); reflexivity.
Qed.

Lemma forInterrupted_step (fuel : nat) (ih : InterruptionHandler.t)
  (ctx : Context) (askQuestion : Tool) (response : ModelResponse.t) :
  ModelResponse.FinishReason response = "interrupted" ->
  InterruptionHandler.forInterrupted (S fuel) ih ctx askQuestion response =
  checkDone ctx (
    answers <- InterruptionHandler.forInterrupts ih ctx askQuestion
                 (ModelResponse.Interrupts response) [] ;;
    response' <- generate (InterruptionHandler.generator ih)
                   [WithMessages (ModelResponse.History response);
                    WithTools [askQuestion];
                    WithToolResponses answers] ;;
    InterruptionHandler.forInterrupted fuel ih ctx askQuestion response').
Proof.
  intros Hint. cbn [InterruptionHandler.forInterrupted].
  rewrite Hint, String.eqb_refl. reflexivity.
Qed.

Lemma forInterrupted_resolved (fuel : nat) (ih : InterruptionHandler.t)
  (ctx : Context) (askQuestion : Tool) (response : ModelResponse.t) :
  resolved response ->
  InterruptionHandler.forInterrupted fuel ih ctx askQuestion response
  = ret response.
Proof.
  intros Hfin.
  destruct fuel; cbn [InterruptionHandler.forInterrupted];
    rewrite eqb_interrupted by exact Hfin; reflexivity.
Qed.

(** ** getQuestionInput on the inputs of its test *)

Example getQuestionInput_valid :
  getQuestionInput
    (Map [("question", Str "What gender?");
          ("choices", Slice [Str "Boy"; Str "Girl"; Str "Both"])])
  = inr {| Question := "What gender?"; Choices := ["Boy"; "Girl"; "Both"] |}.
Proof. reflexivity. Qed.

Example getQuestionInput_not_a_map :
  getQuestionInput (Str "not a map")
  = inl (errorString "unexpected input type: string").
Proof. reflexivity. Qed.

Example getQuestionInput_nil :
  getQuestionInput Nil = inl (errorString "unexpected input type: <nil>").
Proof. reflexivity. Qed.

(** ** Finished responses and the missing capability *)

(** C4. With the askQuestion capability registered, a Response whose
    FinishReason is not "interrupted" is returned unchanged by the
    Resolution Loop; the only call made is the capability lookup, so no
    Interaction call and no generation call is made. *)
Theorem resolution_returns_finished
  (fuel : nat) (ih : InterruptionHandler.t) (ctx : Context)
  (response : ModelResponse.t) (t : Transcript) (askQuestion : Tool) :
  LookupTool (InterruptionHandler.generator ih) t "askQuestion"
    = Some askQuestion ->
  ModelResponse.FinishReason response <> "interrupted" ->
  InterruptionHandler.handleResponse fuel ih ctx response t
    = (Return response, [LookupToolCall "askQuestion" (Some askQuestion)]).
Proof.
  intros Htool Hfin.
  unfold InterruptionHandler.handleResponse, lookupTool.
  rewrite bind_call, Htool.
  rewrite forInterrupted_resolved by exact Hfin. reflexivity.
Qed.

Lemma resolution_returns_finished_witness :
  InterruptionHandler.handleResponse 0
    {| InterruptionHandler.generator :=
         Mock.NewMockGenerator [] Mock.tools [];
       InterruptionHandler.UserInteraction := Mock.constantly "Boy" |}
    Mock.Background simpleResponse []
  = (Return simpleResponse,
     [LookupToolCall "askQuestion" (Some (Mock.createMockTool "askQuestion"))]).
Proof.
  apply resolution_returns_finished.
  - reflexivity.
  - cbn. discriminate.
Defined.

(** C6. When the Generator does not resolve "askQuestion", the Resolution
    Loop and the Completion Loop both fail with "askQuestion tool not
    found" right after the lookup: no generation call, no Interaction
    call. *)
Theorem missing_capability_fails_both_loops
  (fuel : nat) (g : Generator) (ctx : Context) (response : ModelResponse.t)
  (t : Transcript) :
  LookupTool g t "askQuestion" = None ->
  (forall ih, InterruptionHandler.generator ih = g ->
     InterruptionHandler.handleResponse fuel ih ctx response t
       = (Throw (errorString "askQuestion tool not found"),
          [LookupToolCall "askQuestion" None])) /\
  (forall cv, ConversationLoopHandler.generator cv = g ->
     ConversationLoopHandler.handleResponse fuel cv ctx response t
       = (Throw (errorString "askQuestion tool not found"),
          [LookupToolCall "askQuestion" None])).
Proof.
  intros Hnone. split.
  - intros ih <-.
    unfold InterruptionHandler.handleResponse, lookupTool.
    rewrite bind_call, Hnone. reflexivity.
  - intros cv <-.
    unfold ConversationLoopHandler.handleResponse, lookupTool.
    rewrite bind_call, Hnone. reflexivity.
Qed.

Lemma missing_capability_fails_both_loops_witness :
  InterruptionHandler.handleResponse 3
    {| InterruptionHandler.generator := Mock.NewMockGenerator [] [] [];
       InterruptionHandler.UserInteraction := Mock.constantly "Boy" |}
    Mock.Background
    (Mock.createInterruptedResponse
       [Mock.createToolRequestPart "askQuestion" "What gender?" ["Boy"; "Girl"]])
    []
  = (Throw (errorString "askQuestion tool not found"),
     [LookupToolCall "askQuestion" None]).
Proof.
  apply (missing_capability_fails_both_loops 3
           (Mock.NewMockGenerator [] [] []) Mock.Background _ []);
    reflexivity.
Defined.

(** C9. Both loops look the capability up before they look at the
    Response.  For a Response that is not suspended, the Resolution Loop
    returns it exactly when the capability is registered; when it is not,
    both loops fail with "askQuestion tool not found" although the Response
    needs no Interaction at all. *)
Theorem lookup_precedes_inspection
  (fuel : nat) (ih : InterruptionHandler.t) (cv : ConversationLoopHandler.t)
  (ctx : Context) (response : ModelResponse.t) (t : Transcript) :
  ModelResponse.FinishReason response <> "interrupted" ->
  (fst (InterruptionHandler.handleResponse fuel ih ctx response t)
     = Return response
   <-> LookupTool (InterruptionHandler.generator ih) t "askQuestion" <> None)
  /\ (LookupTool (InterruptionHandler.generator ih) t "askQuestion" = None ->
      InterruptionHandler.handleResponse fuel ih ctx response t
        = (Throw notFound, [LookupToolCall "askQuestion" None]))
  /\ (LookupTool (ConversationLoopHandler.generator cv) t "askQuestion" = None ->
      ConversationLoopHandler.handleResponse fuel cv ctx response t
        = (Throw notFound, [LookupToolCall "askQuestion" None])).
Proof.
  intros Hfin. split; [|split].
  - unfold InterruptionHandler.handleResponse, lookupTool.
    rewrite bind_call.
    destruct (LookupTool (InterruptionHandler.generator ih) t "askQuestion")
      as [askQuestion|] eqn:Htool.
    + split; [discriminate|]. intros _.
      rewrite forInterrupted_resolved by exact Hfin. reflexivity.
    + split; [discriminate|]. intros H. exfalso. apply H. reflexivity.
  - intros Hnone.
    unfold InterruptionHandler.handleResponse, lookupTool.
    rewrite bind_call, Hnone. reflexivity.
  - intros Hnone.
    unfold ConversationLoopHandler.handleResponse, lookupTool.
    rewrite bind_call, Hnone. reflexivity.
Qed.

Lemma lookup_precedes_inspection_witness :
  ConversationLoopHandler.handleResponse 2
    {| ConversationLoopHandler.generator := Mock.NewMockGenerator [] [] [];
       ConversationLoopHandler.validationPrompt := "Is finished?";
       ConversationLoopHandler.interruptionHandler :=
         {| InterruptionHandler.generator := Mock.NewMockGenerator [] [] [];
            InterruptionHandler.UserInteraction := Mock.constantly "" |} |}
    Mock.Background simpleResponse []
  = (Throw notFound, [LookupToolCall "askQuestion" None]).
Proof.
  refine (proj2 (proj2 (lookup_precedes_inspection 2
            {| InterruptionHandler.generator := Mock.NewMockGenerator [] [] [];
               InterruptionHandler.UserInteraction := Mock.constantly "" |}
            _ Mock.Background _ [] _)) _).
  - cbn. discriminate.
  - reflexivity.
Defined.

(** ** The shape of a run of the Resolution Loop *)

Lemma Polled_app (e1 e2 : list Event) :
  Polled e1 -> Polled e2 -> Polled (e1 ++ e2).
Proof.
  induction 1; intros H2; cbn.
  - exact H2.
  - apply Polled_ask. auto.
  - apply Polled_other; auto.
Qed.

Lemma Polled_split (evs : list Event) :
  Polled evs ->
  forall a q answer err b,
    evs = a ++ UserInteractionCall q answer err :: b ->
    exists a', a = a' ++ [CtxPoll None].
Proof.
  induction 1 as [| q0 answer0 err0 rest _ IH | ev rest Hev _ IH];
    intros a q answer err b Heq.
  - destruct a; discriminate.
  - destruct a as [| x [| y a]]; cbn in Heq.
    + discriminate.
    + injection Heq as <- _ _. exists []. reflexivity.
    + injection Heq as <- <- Heq.
      destruct (IH _ _ _ _ _ Heq) as [a' ->].
      exists (CtxPoll None :: UserInteractionCall q0 answer0 err0 :: a').
      reflexivity.
  - destruct a as [| x a]; cbn in Heq.
    + injection Heq as -> _. discriminate.
    + injection Heq as <- Heq.
      destruct (IH _ _ _ _ _ Heq) as [a' ->].
      exists (ev :: a'). reflexivity.
Qed.

Lemma quiet_split (a0 : list Event) :
  Forall (fun e => failure e = None) a0 ->
  forall x a y b err,
    a0 ++ [x] = a ++ y :: b -> failure y = Some err ->
    b = [] /\ x = y.
Proof.
  induction 1 as [| z a0 Hz _ IH]; intros x a y b err Heq Hy.
  - destruct a as [| w a]; cbn in Heq.
    + injection Heq as -> <-. auto.
    + injection Heq as _ Heq. destruct a; discriminate.
  - destruct a as [| w a]; cbn in Heq.
    + injection Heq as -> _. congruence.
    + injection Heq as _ Heq. eauto.
Qed.

Lemma failureEnds_split {A : Type} (o : outcome A) (evs : list Event) :
  failureEnds o evs ->
  forall a e b err,
    evs = a ++ e :: b -> failure e = Some err -> b = [] /\ o = Throw err.
Proof.
  intros [Hquiet | (a0 & e0 & err0 & -> & He0 & Hquiet & ->)] a e b err Heq He.
  - exfalso. subst evs. apply Forall_elt in Hquiet. congruence.
  - destruct (@quiet_split a0 Hquiet e0 a e b err Heq He) as [-> ->].
    split; [reflexivity | congruence].
Qed.

Lemma failureEnds_Return {A : Type} (a : A) (evs : list Event) :
  failureEnds (Return a) evs -> Forall (fun e => failure e = None) evs.
Proof.
  intros [H | (a0 & e & err & _ & _ & _ & H)]; [exact H | discriminate].
Qed.

Lemma failureEnds_app {A : Type} (o : outcome A) (e1 e2 : list Event) :
  Forall (fun e => failure e = None) e1 ->
  failureEnds o e2 -> failureEnds o (e1 ++ e2).
Proof.
  intros H1 [H2 | (a & e & err & -> & He & Ha & ->)].
  - left. apply Forall_app; auto.
  - right. exists (e1 ++ a), e, err. rewrite app_assoc.
    repeat split; [exact He|]. apply Forall_app; auto.
Qed.

Lemma failureEnds_retype {A B : Type} (o : outcome A) (o' : outcome B)
  (evs : list Event) :
  (forall err, o = Throw err -> o' = Throw err) ->
  failureEnds o evs -> failureEnds o' evs.
Proof.
  intros Ho [H | (a & e & err & -> & He & Ha & Hthrow)].
  - left. exact H.
  - right. exists a, e, err. auto.
Qed.

Lemma Inv_bind {A B : Type} (m : M A) (k : A -> M B) (t : Transcript) :
  Inv (m t) -> (forall a t', Inv (k a t')) -> Inv (bind m k t).
Proof.
  intros [Hp Hc] Hk. unfold bind.
  destruct (m t) as [[a | err | | ] e1] eqn:Hm; cbn in Hp, Hc.
  - specialize (Hk a (t ++ e1)).
    destruct (k a (t ++ e1)) as [o e2]. destruct Hk as [Hp2 Hc2].
    cbn in *. split.
    + apply Polled_app; assumption.
    + apply failureEnds_app; [apply (failureEnds_Return Hc) | assumption].
  - split; [exact Hp|]. cbn.
    apply (@failureEnds_retype A B (Throw err)); [|exact Hc].
    intros err' H. injection H as ->. reflexivity.
  - split; [exact Hp|]. cbn.
    apply (@failureEnds_retype A B Panic); [|exact Hc]. discriminate.
  - split; [exact Hp|]. cbn.
    apply (@failureEnds_retype A B OutOfFuel); [|exact Hc]. discriminate.
Qed.

Lemma Inv_quiet {A : Type} (o : outcome A) : Inv (o, []).
Proof. split; [constructor | left; constructor]. Qed.

Lemma Inv_cons {A : Type} (e : Event) (r : outcome A * list Event) :
  isInteraction e = false -> failure e = None ->
  Inv r -> Inv (fst r, e :: snd r).
Proof.
  intros He Hl [Hp Hc]. split; cbn.
  - apply Polled_other; assumption.
  - apply (@failureEnds_app A (fst r) [e]); [|exact Hc].
    constructor; [exact Hl | constructor].
Qed.

Lemma Inv_failed {A : Type} (e : Event) (err : error) :
  isInteraction e = false -> failure e = Some err ->
  Inv (@Throw A err, [e]).
Proof.
  intros He Hf. split; cbn.
  - apply Polled_other; [exact He | constructor].
  - right. exists [], e, err. repeat split; [exact Hf | constructor].
Qed.

Lemma Inv_generate (g : Generator) (opts : list GenerateOption)
  (t : Transcript) : Inv (generate g opts t).
Proof.
  unfold generate. rewrite bind_call.
  destruct (Generate g t opts) as [err | r].
  - apply Inv_failed; reflexivity.
  - apply (@Inv_cons _ (GenerateCall opts (inr r)) (Return r, []));
      [reflexivity | reflexivity | apply Inv_quiet].
Qed.

Lemma Inv_forInterrupts (ih : InterruptionHandler.t) (ctx : Context)
  (askQuestion : Tool) (parts answers : list Part.t) (t : Transcript) :
  Inv (InterruptionHandler.forInterrupts ih ctx askQuestion parts answers t).
Proof.
  revert answers t.
  induction parts as [| part rest IH]; intros answers t;
    cbn [InterruptionHandler.forInterrupts].
  - apply Inv_quiet.
  - destruct (ctx t) as [err|] eqn:Hctx.
    + rewrite checkDone_done with (err := err) by exact Hctx.
      apply Inv_failed; reflexivity.
    + rewrite checkDone_live by exact Hctx.
      destruct (Part.ToolRequest part) as [toolRequest|].
      2:{ apply (@Inv_cons _ (CtxPoll None) (Panic, []));
            [reflexivity | reflexivity | apply Inv_quiet]. }
      destruct (getQuestionInput (ToolRequest.Input toolRequest))
        as [err | questionInput].
      { apply (@Inv_cons _ (CtxPoll None) (Throw err, []));
          [reflexivity | reflexivity | apply Inv_quiet]. }
      unfold userInteraction. rewrite bind_call. cbn [fst snd].
      set (r := InterruptionHandler.UserInteraction ih (t ++ [CtxPoll None])
                  questionInput).
      destruct (snd r) as [err|].
      * split; cbn.
        -- apply Polled_ask. constructor.
        -- right.
           exists [CtxPoll None],
                  (UserInteractionCall questionInput (fst r) (Some err)), err.
           repeat split. repeat constructor.
      * destruct (IH (answers ++ [Respond askQuestion part (Str (fst r))])
                     ((t ++ [CtxPoll None]) ++
                      [UserInteractionCall questionInput (fst r) None]))
          as [Hp Hc].
        split; cbn [fst snd].
        -- apply Polled_ask. exact Hp.
        -- apply (@failureEnds_app _ _
                    [CtxPoll None;
                     UserInteractionCall questionInput (fst r) None]);
             [|exact Hc].
           repeat constructor.
Qed.

Lemma Inv_checkDone {A : Type} (ctx : Context) (k : M A) (t : Transcript) :
  (forall t', Inv (k t')) -> Inv (checkDone ctx k t).
Proof.
  intros Hk. destruct (ctx t) as [err|] eqn:Hctx.
  - rewrite checkDone_done with (err := err) by exact Hctx.
    apply Inv_failed; reflexivity.
  - rewrite checkDone_live by exact Hctx.
    apply (@Inv_cons _ (CtxPoll None) (k (t ++ [CtxPoll None])));
      [reflexivity | reflexivity | apply Hk].
Qed.

Lemma Inv_forInterrupted (fuel : nat) (ih : InterruptionHandler.t)
  (ctx : Context) (askQuestion : Tool) (response : ModelResponse.t)
  (t : Transcript) :
  Inv (InterruptionHandler.forInterrupted fuel ih ctx askQuestion response t).
Proof.
  revert response t.
  induction fuel as [| fuel IH]; intros response t;
    cbn [InterruptionHandler.forInterrupted];
    destruct (String.eqb (ModelResponse.FinishReason response) "interrupted");
    try apply Inv_quiet.
  apply Inv_checkDone. intros t1.
  apply Inv_bind; [apply Inv_forInterrupts|]. intros answers t2.
  apply Inv_bind; [apply Inv_generate|]. intros response' t3.
  apply IH.
Qed.

Lemma Inv_resolution (fuel : nat) (ih : InterruptionHandler.t) (ctx : Context)
  (response : ModelResponse.t) (t : Transcript) :
  Inv (InterruptionHandler.handleResponse fuel ih ctx response t).
Proof.
  unfold InterruptionHandler.handleResponse, lookupTool.
  rewrite bind_call.
  match goal with
  | |- Inv (fst ?run, ?e :: snd ?run) => apply (@Inv_cons _ e run)
  end; [reflexivity | reflexivity |].
  destruct (LookupTool _ _ _); [apply Inv_forInterrupted | apply Inv_quiet].
Qed.

(** ** Cancellation *)

(** C7. With the capability registered and a suspended Response: a context
    already done at the first check makes the Resolution Loop return the
    context's error after the lookup and that one check, with no Interaction
    call.  In every run, each Interaction call comes right after a check
    that found the context live, and a check that finds it done is the last
    event of the run, whose result is the context's error: no generation
    call follows, so the answers collected in that round go nowhere. *)
Theorem cancellation_aborts_resolution
  (fuel : nat) (ih : InterruptionHandler.t) (ctx : Context)
  (response : ModelResponse.t) (t : Transcript) (askQuestion : Tool) :
  LookupTool (InterruptionHandler.generator ih) t "askQuestion"
    = Some askQuestion ->
  ModelResponse.FinishReason response = "interrupted" ->
  let run := InterruptionHandler.handleResponse (S fuel) ih ctx response t in
  (forall err,
     ctx (t ++ [LookupToolCall "askQuestion" (Some askQuestion)]) = Some err ->
     run = (Throw err,
            [LookupToolCall "askQuestion" (Some askQuestion);
             CtxPoll (Some err)]))
  /\ (forall a q answer err b,
        snd run = a ++ UserInteractionCall q answer err :: b ->
        exists a', a = a' ++ [CtxPoll None])
  /\ (forall a err b,
        snd run = a ++ CtxPoll (Some err) :: b ->
        b = [] /\ fst run = Throw err).
Proof.
  intros Htool Hint run. split; [|split].
  - intros err Hctx. subst run.
    unfold InterruptionHandler.handleResponse, lookupTool.
    rewrite bind_call, Htool.
    rewrite forInterrupted_step by exact Hint.
    rewrite checkDone_done with (err := err) by exact Hctx.
    reflexivity.
  - apply Polled_split. apply (Inv_resolution (S fuel) ih ctx response t).
  - intros a err b Heq.
    apply (@failureEnds_split _ (fst run) (snd run)
             (proj2 (Inv_resolution (S fuel) ih ctx response t))
             a (CtxPoll (Some err)) b err Heq eq_refl).
Qed.

Lemma cancellation_aborts_resolution_witness :
  InterruptionHandler.handleResponse 1
    {| InterruptionHandler.generator :=
         Mock.NewMockGenerator [] Mock.tools [];
       InterruptionHandler.UserInteraction := Mock.constantly "Boy" |}
    Mock.cancelled
    (Mock.createInterruptedResponse
       [Mock.createToolRequestPart "askQuestion" "What gender?" ["Boy"; "Girl"]])
    []
  = (Throw Canceled,
     [LookupToolCall "askQuestion" (Some (Mock.createMockTool "askQuestion"));
      CtxPoll (Some Canceled)]).
Proof.
  refine (proj1 (@cancellation_aborts_resolution 0 _ Mock.cancelled _ []
                   (Mock.createMockTool "askQuestion") _ _) Canceled _);
    reflexivity.
Defined.

(** ** One round of resolution *)

Section Round.
Variable ih : InterruptionHandler.t.
Variable ctx : Context.
Variable askQuestion : Tool.
Hypothesis ctx_live : forall t, ctx t = None.
Hypothesis interaction_succeeds :
  forall t q, snd (InterruptionHandler.UserInteraction ih t q) = None.

Lemma forInterrupts_answers (pre : list Part.t)
  (questions : list QuestionInput) :
  Forall2 decodesTo pre questions ->
  forall (rest acc : list Part.t) (t : Transcript),
  exists answers,
    length answers = length pre /\
    InterruptionHandler.forInterrupts ih ctx askQuestion (pre ++ rest) acc t
    = (fst (InterruptionHandler.forInterrupts ih ctx askQuestion rest
              (acc ++ respondAll askQuestion pre answers)
              (t ++ asked (combine questions answers))),
       asked (combine questions answers) ++
       snd (InterruptionHandler.forInterrupts ih ctx askQuestion rest
              (acc ++ respondAll askQuestion pre answers)
              (t ++ asked (combine questions answers)))).
Proof.
  induction 1 as [| part q pre questions (toolRequest & Htr & Hq) _ IH];
    intros rest acc t.
  - exists []. split; [reflexivity|].
    cbn. unfold respondAll. cbn. rewrite !app_nil_r.
    symmetry. apply surjective_run.
  - cbn [app InterruptionHandler.forInterrupts].
    rewrite checkDone_live by apply ctx_live.
    rewrite Htr, Hq. unfold userInteraction. rewrite bind_call.
    cbn [fst snd]. rewrite interaction_succeeds.
    set (answer := fst (InterruptionHandler.UserInteraction ih
                          (t ++ [CtxPoll None]) q)).
    destruct (IH rest (acc ++ [Respond askQuestion part (Str answer)])
                ((t ++ [CtxPoll None]) ++
                 [UserInteractionCall q answer None]))
      as (answers & Hlen & Hrun).
    exists (answer :: answers). split; [cbn; congruence|].
    rewrite Hrun. unfold respondAll. cbn [combine map asked flat_map fst snd].
    fold (asked (combine questions answers)).
    rewrite <- !app_assoc. cbn [app]. reflexivity.
Qed.

Lemma forInterrupts_all (parts : list Part.t)
  (questions : list QuestionInput) (t : Transcript) :
  Forall2 decodesTo parts questions ->
  exists answers,
    length answers = length parts /\
    InterruptionHandler.forInterrupts ih ctx askQuestion parts [] t
    = (Return (respondAll askQuestion parts answers),
       asked (combine questions answers)).
Proof.
  intros H.
  destruct (forInterrupts_answers H [] [] t) as (answers & Hlen & Hrun).
  exists answers. split; [exact Hlen|].
  rewrite app_nil_r in Hrun. rewrite Hrun. cbn. rewrite app_nil_r.
  reflexivity.
Qed.
End Round.

(** C1. With the capability registered, a context that is not cancelled,
    payloads that decode and Interaction calls that succeed, a suspended
    Response with N pending requests makes the Resolution Loop ask exactly
    N questions, the decoded payloads in the order of the requests, and
    then issue one generation call with the History, the askQuestion tool
    and N tool responses, the i-th built by the tool's Respond from the
    i-th request and the i-th answer. *)
Theorem resolution_round_answers_all_requests
  (fuel : nat) (ih : InterruptionHandler.t) (ctx : Context)
  (response : ModelResponse.t) (t : Transcript) (askQuestion : Tool)
  (questions : list QuestionInput) :
  LookupTool (InterruptionHandler.generator ih) t "askQuestion"
    = Some askQuestion ->
  ModelResponse.FinishReason response = "interrupted" ->
  (forall t', ctx t' = None) ->
  (forall t' q, snd (InterruptionHandler.UserInteraction ih t' q) = None) ->
  Forall2 decodesTo (ModelResponse.Interrupts response) questions ->
  exists (answers : list string) (result : error + ModelResponse.t)
         (rest : list Event),
    length answers = length (ModelResponse.Interrupts response) /\
    length (filter isInteraction (asked (combine questions answers)))
      = length (ModelResponse.Interrupts response) /\
    snd (InterruptionHandler.handleResponse (S fuel) ih ctx response t)
    = LookupToolCall "askQuestion" (Some askQuestion)
      :: CtxPoll None
      :: asked (combine questions answers)
      ++ GenerateCall
           [WithMessages (ModelResponse.History response);
            WithTools [askQuestion];
            WithToolResponses
              (respondAll askQuestion (ModelResponse.Interrupts response)
                 answers)]
           result
      :: rest /\
    Forall (fun e => isGenerate e = false) (asked (combine questions answers)).
Proof.
  intros Htool Hint Hctx Hui Hdec.
  unfold InterruptionHandler.handleResponse, lookupTool.
  rewrite bind_call, Htool. cbn [fst snd].
  rewrite forInterrupted_step by exact Hint.
  rewrite checkDone_live by apply Hctx. cbn [fst snd].
  set (t1 := (t ++ [LookupToolCall "askQuestion" (Some askQuestion)])
             ++ [CtxPoll None]).
  destruct (@forInterrupts_all ih ctx askQuestion Hctx Hui _ _ t1 Hdec)
    as (answers & Hlen & Hrun).
  erewrite bind_Return by exact Hrun. cbn [fst snd].
  rewrite bind_generate.
  assert (Hcount :
    length (filter isInteraction (asked (combine questions answers)))
    = length (ModelResponse.Interrupts response)).
  { rewrite <- Hlen.
    assert (Hq : length questions = length answers).
    { rewrite Hlen. symmetry. apply (Forall2_length Hdec). }
    clear - Hq. revert answers Hq.
    induction questions as [| q qs IH]; intros [| a answers] Hq;
      try discriminate; cbn; [reflexivity|].
    f_equal. apply IH. cbn in Hq. congruence. }
  assert (Hquiet :
    Forall (fun e => isGenerate e = false) (asked (combine questions answers))).
  { clear. induction (combine questions answers) as [| qa l IH]; cbn.
    - constructor.
    - repeat constructor. exact IH. }
  exists answers.
  destruct (Generate (InterruptionHandler.generator ih) _ _) as [err | r];
    eexists; eexists; (split; [exact Hlen|]); (split; [exact Hcount|]);
    (split; [reflexivity | exact Hquiet]).
Qed.

Example twoInterrupts_run :
  InterruptionHandler.handleResponse 3 twoInterruptsHandler Mock.Background
    twoInterrupts []
  = (Return (Mock.createTextResponse "Based on both genders and ages..." "stop"),
     [LookupToolCall "askQuestion" (Some (Mock.createMockTool "askQuestion"));
      CtxPoll None;
      CtxPoll None;
      UserInteractionCall
        {| Question := "What gender are the children?";
           Choices := ["Boy"; "Girl"; "Both"] |} "Boy and Girl" None;
      CtxPoll None;
      UserInteractionCall
        {| Question := "What are their ages?";
           Choices := ["5-7"; "8-10"; "11-13"; "14+"] |} "8 and 11" None;
      GenerateCall
        [WithMessages (ModelResponse.History twoInterrupts);
         WithTools [Mock.createMockTool "askQuestion"];
         WithToolResponses
           [Respond (Mock.createMockTool "askQuestion")
              (Mock.createToolRequestPart "askQuestion"
                 "What gender are the children?" ["Boy"; "Girl"; "Both"])
              (Str "Boy and Girl");
            Respond (Mock.createMockTool "askQuestion")
              (Mock.createToolRequestPart "askQuestion"
                 "What are their ages?" ["5-7"; "8-10"; "11-13"; "14+"])
              (Str "8 and 11")]]
        (inr (Mock.createTextResponse "Based on both genders and ages..."
                "stop"))]).
Proof. vm_compute. reflexivity. Qed.

Lemma resolution_round_answers_all_requests_witness :
  exists (answers : list string) (result : error + ModelResponse.t)
         (rest : list Event),
    length answers = length (ModelResponse.Interrupts twoInterrupts) /\
    length (filter isInteraction
              (asked (combine
                 [{| Question := "What gender are the children?";
                     Choices := ["Boy"; "Girl"; "Both"] |};
                  {| Question := "What are their ages?";
                     Choices := ["5-7"; "8-10"; "11-13"; "14+"] |}] answers)))
      = length (ModelResponse.Interrupts twoInterrupts) /\
    snd (InterruptionHandler.handleResponse 3 twoInterruptsHandler
           Mock.Background twoInterrupts [])
    = LookupToolCall "askQuestion" (Some (Mock.createMockTool "askQuestion"))
      :: CtxPoll None
      :: asked (combine
                  [{| Question := "What gender are the children?";
                      Choices := ["Boy"; "Girl"; "Both"] |};
                   {| Question := "What are their ages?";
                      Choices := ["5-7"; "8-10"; "11-13"; "14+"] |}] answers)
      ++ GenerateCall
           [WithMessages (ModelResponse.History twoInterrupts);
            WithTools [Mock.createMockTool "askQuestion"];
            WithToolResponses
              (respondAll (Mock.createMockTool "askQuestion")
                 (ModelResponse.Interrupts twoInterrupts) answers)]
           result
      :: rest /\
    Forall (fun e => isGenerate e = false)
      (asked (combine
                [{| Question := "What gender are the children?";
                    Choices := ["Boy"; "Girl"; "Both"] |};
                 {| Question := "What are their ages?";
                    Choices := ["5-7"; "8-10"; "11-13"; "14+"] |}] answers)).
Proof.
  apply (@resolution_round_answers_all_requests 2 twoInterruptsHandler
           Mock.Background twoInterrupts []
           (Mock.createMockTool "askQuestion")).
  - reflexivity.
  - reflexivity.
  - intros t'. reflexivity.
  - intros t' q. reflexivity.
  - repeat constructor; eexists; split; reflexivity.
Defined.

(** ** Pending requests that do not decode *)

Lemma forInterrupts_quiet (ih : InterruptionHandler.t) (ctx : Context)
  (askQuestion : Tool) (parts answers : list Part.t) (t : Transcript) :
  Forall (fun e => isGenerate e = false)
    (snd (InterruptionHandler.forInterrupts ih ctx askQuestion parts answers t)).
Proof.
  revert answers t.
  induction parts as [| part rest IH]; intros answers t;
    cbn [InterruptionHandler.forInterrupts].
  - constructor.
  - destruct (ctx t) as [err|] eqn:Hctx.
    + rewrite checkDone_done with (err := err) by exact Hctx.
      repeat constructor.
    + rewrite checkDone_live by exact Hctx. cbn [snd].
      constructor; [reflexivity|].
      destruct (Part.ToolRequest part) as [toolRequest|]; [|constructor].
      destruct (getQuestionInput _) as [err | q]; [constructor|].
      unfold userInteraction. rewrite bind_call. cbn [fst snd].
      constructor; [reflexivity|].
      destruct (snd (InterruptionHandler.UserInteraction ih _ q));
        [constructor | apply IH].
Qed.

Lemma forInterrupts_undecodable (ih : InterruptionHandler.t) (ctx : Context)
  (askQuestion : Tool) (part : Part.t) (post : list Part.t) (err : error) :
  decodeFails part err ->
  forall (pre answers : list Part.t) (t : Transcript) (r : list Part.t),
    fst (InterruptionHandler.forInterrupts ih ctx askQuestion
           (pre ++ part :: post) answers t) <> Return r.
Proof.
  intros (toolRequest & Htr & Hq).
  induction pre as [| p pre IH]; intros answers t r;
    cbn [app InterruptionHandler.forInterrupts].
  - destruct (ctx t) as [e|] eqn:Hctx.
    + rewrite checkDone_done with (err := e) by exact Hctx. discriminate.
    + rewrite checkDone_live by exact Hctx. rewrite Htr, Hq. cbn. discriminate.
  - destruct (ctx t) as [e|] eqn:Hctx.
    + rewrite checkDone_done with (err := e) by exact Hctx. discriminate.
    + rewrite checkDone_live by exact Hctx. cbn [fst].
      destruct (Part.ToolRequest p) as [tr|]; [|cbn; discriminate].
      destruct (getQuestionInput (ToolRequest.Input tr)) as [e | q];
        [cbn; discriminate|].
      unfold userInteraction. rewrite bind_call. cbn [fst snd].
      destruct (snd (InterruptionHandler.UserInteraction ih _ q));
        [cbn; discriminate | apply IH].
Qed.

(** C8. With the capability registered and a suspended Response one of
    whose pending requests has a payload that does not decode: the
    Resolution Loop does not return a Response and makes no generation call,
    whatever the collaborators do.  When moreover the context stays live,
    Interaction calls succeed and the requests before it decode, the loop
    asks those, checks the context once more and returns the decode error:
    no Interaction call for the request, no resumption call. *)
Theorem undecodable_request_aborts
  (fuel : nat) (ih : InterruptionHandler.t) (ctx : Context)
  (response : ModelResponse.t) (t : Transcript) (askQuestion : Tool)
  (pre post : list Part.t) (part : Part.t) (err : error) :
  LookupTool (InterruptionHandler.generator ih) t "askQuestion"
    = Some askQuestion ->
  ModelResponse.FinishReason response = "interrupted" ->
  ModelResponse.Interrupts response = pre ++ part :: post ->
  decodeFails part err ->
  let run := InterruptionHandler.handleResponse (S fuel) ih ctx response t in
  (forall r, fst run <> Return r)
  /\ Forall (fun e => isGenerate e = false) (snd run)
  /\ ((forall t', ctx t' = None) ->
      (forall t' q, snd (InterruptionHandler.UserInteraction ih t' q) = None) ->
      forall questions, Forall2 decodesTo pre questions ->
      exists answers,
        length answers = length pre /\
        run = (Throw err,
               LookupToolCall "askQuestion" (Some askQuestion)
               :: CtxPoll None
               :: asked (combine questions answers) ++ [CtxPoll None])).
Proof.
  intros Htool Hint Hparts Hfail run. subst run.
  unfold InterruptionHandler.handleResponse, lookupTool.
  rewrite bind_call, Htool. cbn [fst snd].
  rewrite forInterrupted_step by exact Hint. rewrite Hparts.
  set (t0 := t ++ [LookupToolCall "askQuestion" (Some askQuestion)]).
  split; [|split].
  - intros r. destruct (ctx t0) as [e|] eqn:Hctx.
    + rewrite checkDone_done with (err := e) by exact Hctx. discriminate.
    + rewrite checkDone_live by exact Hctx. cbn [fst].
      apply bind_not_Return. intros a.
      apply (forInterrupts_undecodable ih ctx askQuestion post Hfail).
  - constructor; [reflexivity|].
    destruct (ctx t0) as [e|] eqn:Hctx.
    + rewrite checkDone_done with (err := e) by exact Hctx.
      repeat constructor.
    + rewrite checkDone_live by exact Hctx. cbn [snd].
      constructor; [reflexivity|].
      match goal with
      | |- Forall _ (snd (bind ?m ?k ?t1)) =>
          destruct (@bind_not_Return _ _ m k t1) as (-> & _)
      end.
      * intros a.
        apply (forInterrupts_undecodable ih ctx askQuestion post Hfail).
      * apply forInterrupts_quiet.
  - intros Hctx Hui questions Hdec.
    rewrite checkDone_live by apply Hctx.
    destruct (@forInterrupts_answers ih ctx askQuestion Hctx Hui pre questions
                Hdec (part :: post) [] (t0 ++ [CtxPoll None]))
      as (answers & Hlen & Hrun).
    exists answers. split; [exact Hlen|].
    destruct Hfail as (toolRequest & Htr & Hq).
    cbn [InterruptionHandler.forInterrupts] in Hrun.
    rewrite checkDone_live in Hrun by apply Hctx.
    rewrite Htr, Hq in Hrun. cbn [fst snd throw] in Hrun.
    erewrite bind_Throw by exact Hrun. reflexivity.
Qed.

Lemma undecodable_request_aborts_witness :
  exists answers,
    length answers = 1 /\
    InterruptionHandler.handleResponse 1
      {| InterruptionHandler.generator :=
           Mock.NewMockGenerator [simpleResponse] Mock.tools [];
         InterruptionHandler.UserInteraction := Mock.constantly "Boy" |}
      Mock.Background malformedSecond []
    = (Throw (wrapError "failed to unmarshal input: "
                (UnmarshalTypeError "number" "question")),
       LookupToolCall "askQuestion" (Some (Mock.createMockTool "askQuestion"))
       :: CtxPoll None
       :: asked (combine [{| Question := "What gender?";
                             Choices := ["Boy"; "Girl"] |}] answers)
       ++ [CtxPoll None]).
Proof.
  refine (proj2 (proj2 (@undecodable_request_aborts 0
            {| InterruptionHandler.generator :=
                 Mock.NewMockGenerator [simpleResponse] Mock.tools [];
               InterruptionHandler.UserInteraction := Mock.constantly "Boy" |}
            Mock.Background malformedSecond []
            (Mock.createMockTool "askQuestion")
            [Mock.createToolRequestPart "askQuestion" "What gender?"
               ["Boy"; "Girl"]]
            [] numericQuestionPart
            (wrapError "failed to unmarshal input: "
               (UnmarshalTypeError "number" "question"))
            _ _ _ _)) _ _ _ _).
  - reflexivity.
  - reflexivity.
  - reflexivity.
  - eexists. split; reflexivity.
  - intros t'. reflexivity.
  - intros t' q. reflexivity.
  - repeat constructor. eexists. split; reflexivity.
Defined.

Example malformedSecond_run :
  InterruptionHandler.handleResponse 1
    {| InterruptionHandler.generator :=
         Mock.NewMockGenerator [simpleResponse] Mock.tools [];
       InterruptionHandler.UserInteraction := Mock.constantly "Boy" |}
    Mock.Background malformedSecond []
  = (Throw (wrapError "failed to unmarshal input: "
              (UnmarshalTypeError "number" "question")),
     [LookupToolCall "askQuestion" (Some (Mock.createMockTool "askQuestion"));
      CtxPoll None;
      CtxPoll None;
      UserInteractionCall
        {| Question := "What gender?"; Choices := ["Boy"; "Girl"] |}
        "Boy" None;
      CtxPoll None]).
Proof. vm_compute. reflexivity. Qed.

(** ** Failures of the Interaction capability *)

(** In the Resolution Loop a failed call is the end of the run: an
    Interaction call that returns an error is the last event, no generation
    call follows it, and the handler returns that error. *)
Lemma resolution_propagates_interaction_error
  (fuel : nat) (ih : InterruptionHandler.t) (ctx : Context)
  (response : ModelResponse.t) (t : Transcript)
  (a b : list Event) (q : QuestionInput) (answer : string) (err : error) :
  snd (InterruptionHandler.handleResponse fuel ih ctx response t)
    = a ++ UserInteractionCall q answer (Some err) :: b ->
  b = [] /\
  fst (InterruptionHandler.handleResponse fuel ih ctx response t) = Throw err.
Proof.
  intros Heq.
  apply (@failureEnds_split _ _ _
           (proj2 (Inv_resolution fuel ih ctx response t))
           a (UserInteractionCall q answer (Some err)) b err Heq eq_refl).
Qed.

(** C3, at the failing input.  The Completion Loop is given a finished
    Response, the verdict is "not finished", and the Interaction call it
    makes returns an error.  The loop does not return that error: it passes
    it on as the format argument of the prompt, issues the generation call,
    and returns the next Response. *)
Theorem completion_loop_swallows_interaction_error :
  ConversationLoopHandler.handleResponse 2
    (loopsOnce (Mock.failing (errorString "Response was not provided in time")))
    Mock.Background simpleResponse []
  = (Return (Mock.createTextResponse "Final Answer" "stop"),
     [LookupToolCall "askQuestion" (Some (Mock.createMockTool "askQuestion"));
      LookupToolCall "askQuestion" (Some (Mock.createMockTool "askQuestion"));
      GenerateBoolCall "Is finished?" (ModelResponse.History simpleResponse)
        (inr false);
      UserInteractionCall {| Question := "Hello"; Choices := [] |} ""
        (Some (errorString "Response was not provided in time"));
      GenerateCall
        [WithMessages (ModelResponse.History simpleResponse);
         WithTools [Mock.createMockTool "askQuestion"];
         WithPrompt "" [Some (errorString "Response was not provided in time")]]
        (inr (Mock.createTextResponse "Final Answer" "stop"));
      LookupToolCall "askQuestion" (Some (Mock.createMockTool "askQuestion"));
      GenerateBoolCall "Is finished?"
        (ModelResponse.History (Mock.createTextResponse "Final Answer" "stop"))
        (inr true)]).
Proof. vm_compute. reflexivity. Qed.

(** ** The events of the Resolution Loop, seen from the Completion Loop *)

Lemma Forall_bind {A B : Type} (P : Event -> Prop) (m : M A) (k : A -> M B)
  (t : Transcript) :
  Forall P (snd (m t)) -> (forall a t', Forall P (snd (k a t'))) ->
  Forall P (snd (bind m k t)).
Proof.
  intros Hm Hk. unfold bind.
  destruct (m t) as [[a | err | | ] e1]; cbn in Hm; try exact Hm.
  specialize (Hk a (t ++ e1)). destruct (k a (t ++ e1)) as [o e2].
  cbn in *. apply Forall_app; auto.
Qed.

Lemma forInterrupts_events (ih : InterruptionHandler.t) (ctx : Context)
  (askQuestion : Tool) (parts answers : list Part.t) (t : Transcript) :
  Forall (fun e => resolutionEvent e = true)
    (snd (InterruptionHandler.forInterrupts ih ctx askQuestion parts answers t)).
Proof.
  revert answers t.
  induction parts as [| part rest IH]; intros answers t;
    cbn [InterruptionHandler.forInterrupts].
  - constructor.
  - destruct (ctx t) as [err|] eqn:Hctx.
    + rewrite checkDone_done with (err := err) by exact Hctx.
      repeat constructor.
    + rewrite checkDone_live by exact Hctx. cbn [snd].
      constructor; [reflexivity|].
      destruct (Part.ToolRequest part) as [toolRequest|]; [|constructor].
      destruct (getQuestionInput (ToolRequest.Input toolRequest))
        as [err | q]; [constructor|].
      unfold userInteraction. rewrite bind_call. cbn [fst snd].
      constructor; [reflexivity|].
      destruct (snd (InterruptionHandler.UserInteraction ih _ q));
        [constructor | apply IH].
Qed.

Lemma forInterrupted_events (fuel : nat) (ih : InterruptionHandler.t)
  (ctx : Context) (askQuestion : Tool) (response : ModelResponse.t)
  (t : Transcript) :
  Forall (fun e => resolutionEvent e = true)
    (snd (InterruptionHandler.forInterrupted fuel ih ctx askQuestion response t)).
Proof.
  revert response t.
  induction fuel as [| fuel IH]; intros response t;
    cbn [InterruptionHandler.forInterrupted];
    destruct (String.eqb (ModelResponse.FinishReason response) "interrupted");
    try constructor.
  destruct (ctx t) as [err|] eqn:Hctx.
  - rewrite checkDone_done with (err := err) by exact Hctx.
    repeat constructor.
  - rewrite checkDone_live by exact Hctx. cbn [snd].
    constructor; [reflexivity|].
    apply Forall_bind; [apply forInterrupts_events|]. intros answers t2.
    rewrite bind_generate.
    destruct (Generate _ _ _) as [err | r]; cbn [snd].
    + repeat constructor.
    + constructor; [reflexivity | apply IH].
Qed.

Lemma resolution_events (fuel : nat) (ih : InterruptionHandler.t)
  (ctx : Context) (response : ModelResponse.t) (t : Transcript) :
  Forall (fun e => resolutionEvent e = true)
    (snd (InterruptionHandler.handleResponse fuel ih ctx response t)).
Proof.
  unfold InterruptionHandler.handleResponse, lookupTool.
  rewrite bind_call. cbn [snd]. constructor; [reflexivity|].
  destruct (LookupTool _ _ _); [apply forInterrupted_events | constructor].
Qed.

Lemma forInterrupted_returns_resolved (fuel : nat) (ih : InterruptionHandler.t)
  (ctx : Context) (askQuestion : Tool) (response : ModelResponse.t)
  (t : Transcript) (r : ModelResponse.t) :
  fst (InterruptionHandler.forInterrupted fuel ih ctx askQuestion response t)
    = Return r ->
  resolved r.
Proof.
  revert response t.
  induction fuel as [| fuel IH]; intros response t;
    cbn [InterruptionHandler.forInterrupted];
    destruct (String.eqb (ModelResponse.FinishReason response) "interrupted")
      eqn:Heqb;
    try (cbn; intros H; injection H as <-; apply String.eqb_neq; exact Heqb);
    try (cbn; discriminate).
  destruct (ctx t) as [err|] eqn:Hctx.
  - rewrite checkDone_done with (err := err) by exact Hctx. cbn. discriminate.
  - rewrite checkDone_live by exact Hctx. cbn [fst].
    unfold bind at 1.
    destruct (InterruptionHandler.forInterrupts _ _ _ _ _ _)
      as [[answers | err | | ] e1]; try (cbn; discriminate).
    rewrite bind_generate.
    destruct (Generate _ _ _) as [err | r'].
    + cbn. discriminate.
    + match goal with
      | |- context [InterruptionHandler.forInterrupted fuel ih ctx askQuestion
                      r' ?t'] =>
          specialize (IH r' t');
          destruct (InterruptionHandler.forInterrupted fuel ih ctx askQuestion
                      r' t') as [o e2]
      end.
      cbn in *. exact IH.
Qed.

Lemma resolution_returns_resolved (fuel : nat) (ih : InterruptionHandler.t)
  (ctx : Context) (response : ModelResponse.t) (t : Transcript)
  (r : ModelResponse.t) :
  fst (InterruptionHandler.handleResponse fuel ih ctx response t) = Return r ->
  resolved r.
Proof.
  unfold InterruptionHandler.handleResponse, lookupTool.
  rewrite bind_call. cbn [fst].
  destruct (LookupTool _ _ _) as [askQuestion|]; [|cbn; discriminate].
  apply forInterrupted_returns_resolved.
Qed.

Lemma boolEvaluations_resolution (evs : list Event) :
  Forall (fun e => resolutionEvent e = true) evs -> boolEvaluations evs = [].
Proof.
  induction 1 as [| e evs He _ IH]; [reflexivity|].
  destruct e; cbn in *; try exact IH. discriminate.
Qed.

Lemma promptGenerations_resolution (evs : list Event) :
  Forall (fun e => resolutionEvent e = true) evs -> promptGenerations evs = [].
Proof.
  induction 1 as [| e evs He _ IH]; [reflexivity|].
  destruct e; cbn in *; try exact IH.
  destruct (hasPrompt opts); [discriminate | exact IH].
Qed.

Lemma generateBool_Return_inv (g : Generator) (prompt : string)
  (history : list Message.t) (t : Transcript) (b : bool) (e : list Event) :
  generateBool g prompt history t = (Return b, e) ->
  GenerateBool g t prompt history = inr b /\
  e = [GenerateBoolCall prompt history (inr b)].
Proof.
  unfold generateBool. rewrite bind_call.
  destruct (GenerateBool g t prompt history) as [err | b'];
    cbn; intros H; [discriminate|].
  injection H as -> <-. auto.
Qed.

Lemma generate_Return_inv (g : Generator) (opts : list GenerateOption)
  (t : Transcript) (r : ModelResponse.t) (e : list Event) :
  generate g opts t = (Return r, e) ->
  Generate g t opts = inr r /\ e = [GenerateCall opts (inr r)].
Proof.
  unfold generate. rewrite bind_call.
  destruct (Generate g t opts) as [err | r'];
    cbn; intros H; [discriminate|].
  injection H as -> <-. auto.
Qed.

(** ** Computations and fuel *)

Lemma bind_ret_l {A B : Type} (a : A) (k : A -> M B) (t : Transcript) :
  bind (ret a) k t = k a t.
Proof.
  unfold bind, ret. rewrite app_nil_r. destruct (k a t); reflexivity.
Qed.

Lemma bind_ret_r {A : Type} (m : M A) (t : Transcript) :
  bind m ret t = m t.
Proof.
  unfold bind, ret. destruct (m t) as [[a | err | | ] e]; cbn;
    rewrite ?app_nil_r; reflexivity.
Qed.

Lemma bind_assoc {A B C : Type} (m : M A) (k : A -> M B) (h : B -> M C)
  (t : Transcript) :
  bind (bind m k) h t = bind m (fun a => bind (k a) h) t.
Proof.
  unfold bind. destruct (m t) as [[a | err | | ] e1]; try reflexivity.
  destruct (k a (t ++ e1)) as [[b | err | | ] e2]; try reflexivity.
  rewrite <- app_assoc.
  destruct (h b (t ++ e1 ++ e2)) as [o e3]. rewrite app_assoc. reflexivity.
Qed.

Lemma bind_congr {A B : Type} (m : M A) (k k' : A -> M B) (t : Transcript) :
  (forall a e1, m t = (Return a, e1) -> k a (t ++ e1) = k' a (t ++ e1)) ->
  bind m k t = bind m k' t.
Proof.
  intros H. unfold bind. destruct (m t) as [[a | err | | ] e1]; try reflexivity.
  rewrite (H a e1 eq_refl). reflexivity.
Qed.

Lemma bind_in_fuel {A B : Type} (m : M A) (k : A -> M B) (t : Transcript)
  (a : A) (e1 : list Event) :
  m t = (Return a, e1) ->
  fst (bind m k t) <> OutOfFuel -> fst (k a (t ++ e1)) <> OutOfFuel.
Proof.
  intros Hm. unfold bind. rewrite Hm.
  destruct (k a (t ++ e1)) as [o e2]. cbn. auto.
Qed.

Lemma checkDone_congr {A : Type} (ctx : Context) (k k' : M A) (t : Transcript) :
  (ctx t = None -> k (t ++ [CtxPoll None]) = k' (t ++ [CtxPoll None])) ->
  checkDone ctx k t = checkDone ctx k' t.
Proof.
  intros H. destruct (ctx t) as [err|] eqn:Hctx.
  - rewrite !checkDone_done with (err := err) by exact Hctx. reflexivity.
  - rewrite !checkDone_live by exact Hctx. rewrite (H eq_refl). reflexivity.
Qed.

Lemma checkDone_in_fuel {A : Type} (ctx : Context) (k : M A) (t : Transcript) :
  ctx t = None ->
  fst (checkDone ctx k t) <> OutOfFuel ->
  fst (k (t ++ [CtxPoll None])) <> OutOfFuel.
Proof.
  intros Hctx. rewrite checkDone_live by exact Hctx. cbn. auto.
Qed.

(** A run of the Resolution Loop that does not stop for lack of iterations
    is the same with more of them allowed. *)
Lemma forInterrupted_more_fuel (fuel : nat) (ih : InterruptionHandler.t)
  (ctx : Context) (askQuestion : Tool) :
  forall (response : ModelResponse.t) (t : Transcript),
    fst (InterruptionHandler.forInterrupted fuel ih ctx askQuestion response t)
      <> OutOfFuel ->
    InterruptionHandler.forInterrupted (S fuel) ih ctx askQuestion response t
    = InterruptionHandler.forInterrupted fuel ih ctx askQuestion response t.
Proof.
  induction fuel as [| fuel IH]; intros response t H.
  - cbn [InterruptionHandler.forInterrupted] in *.
    destruct (String.eqb (ModelResponse.FinishReason response) "interrupted");
      [exfalso; apply H; reflexivity | reflexivity].
  - destruct (String.eqb (ModelResponse.FinishReason response) "interrupted")
      eqn:Hint.
    + apply String.eqb_eq in Hint.
      rewrite (forInterrupted_step (S fuel)) by exact Hint.
      rewrite (forInterrupted_step fuel) in * by exact Hint.
      apply checkDone_congr. intros Hctx.
      apply checkDone_in_fuel in H; [|exact Hctx].
      apply bind_congr. intros answers e1 Hanswers.
      eapply bind_in_fuel in H; [|exact Hanswers].
      rewrite !bind_generate in *.
      destruct (Generate _ _ _) as [err | r]; [reflexivity|].
      cbn [fst] in H. rewrite IH by exact H. reflexivity.
    + apply String.eqb_neq in Hint.
      rewrite !forInterrupted_resolved by exact Hint. reflexivity.
Qed.

Lemma resolution_more_fuel (fuel : nat) (ih : InterruptionHandler.t)
  (ctx : Context) (response : ModelResponse.t) (t : Transcript) :
  fst (InterruptionHandler.handleResponse fuel ih ctx response t) <> OutOfFuel ->
  InterruptionHandler.handleResponse (S fuel) ih ctx response t
  = InterruptionHandler.handleResponse fuel ih ctx response t.
Proof.
  unfold InterruptionHandler.handleResponse, lookupTool.
  rewrite !bind_call. cbn [fst].
  destruct (LookupTool _ _ _) as [askQuestion|]; [|reflexivity].
  intros H. rewrite forInterrupted_more_fuel by exact H. reflexivity.
Qed.

Lemma bind_congr2 {A B : Type} (m m' : M A) (k k' : A -> M B)
  (t : Transcript) :
  m t = m' t ->
  (forall a e1, m' t = (Return a, e1) -> k a (t ++ e1) = k' a (t ++ e1)) ->
  bind m k t = bind m' k' t.
Proof.
  intros Hm H. unfold bind. rewrite Hm.
  destruct (m' t) as [[a | err | | ] e1]; try reflexivity.
  rewrite (H a e1 eq_refl). reflexivity.
Qed.

Lemma bind_first_in_fuel {A B : Type} (m : M A) (k : A -> M B)
  (t : Transcript) :
  fst (bind m k t) <> OutOfFuel -> fst (m t) <> OutOfFuel.
Proof.
  unfold bind. destruct (m t) as [[a | err | | ] e1]; cbn; try discriminate.
  auto.
Qed.

Lemma forHasMoreQuestions_eq (n fuel : nat) (cv : ConversationLoopHandler.t)
  (ctx : Context) (askQuestion : Tool) (response : ModelResponse.t) :
  ConversationLoopHandler.forHasMoreQuestions n fuel cv ctx askQuestion response
  = (response <- InterruptionHandler.handleResponse fuel
                   (ConversationLoopHandler.interruptionHandler cv) ctx
                   response ;;
     isConversationFinished <-
       generateBool (ConversationLoopHandler.generator cv)
         (ConversationLoopHandler.validationPrompt cv)
         (ModelResponse.History response) ;;
     if negb isConversationFinished then
       r <- userInteraction
              (InterruptionHandler.UserInteraction
                 (ConversationLoopHandler.interruptionHandler cv))
              {| Question := ModelResponse.Text response; Choices := [] |} ;;
       response' <- generate (ConversationLoopHandler.generator cv)
                      [WithMessages (ModelResponse.History response);
                       WithTools [askQuestion];
                       WithPrompt (fst r) [snd r]] ;;
       match n with
       | 0 => outOfFuel
       | S n' =>
           ConversationLoopHandler.forHasMoreQuestions n' fuel cv ctx
             askQuestion response'
       end
     else ret response).
Proof. destruct n; reflexivity. Qed.

(** The same for the Completion Loop, with one more round and one more
    iteration of each resolution allowed. *)
Lemma forHasMoreQuestions_more_fuel (n : nat) (fuel : nat)
  (cv : ConversationLoopHandler.t) (ctx : Context) (askQuestion : Tool) :
  forall (response : ModelResponse.t) (t : Transcript),
    fst (ConversationLoopHandler.forHasMoreQuestions n fuel cv ctx askQuestion
           response t) <> OutOfFuel ->
    ConversationLoopHandler.forHasMoreQuestions (S n) (S fuel) cv ctx
      askQuestion response t
    = ConversationLoopHandler.forHasMoreQuestions n fuel cv ctx askQuestion
        response t.
Proof.
  induction n as [| n IH]; intros response t H;
    rewrite forHasMoreQuestions_eq in H;
    rewrite (forHasMoreQuestions_eq (S _) (S fuel)),
            (forHasMoreQuestions_eq _ fuel);
    (apply bind_congr2;
     [ apply resolution_more_fuel; apply bind_first_in_fuel in H; exact H |]);
    intros r1 e1 Hres; (eapply bind_in_fuel in H; [|exact Hres]);
    apply bind_congr; intros verdict e3 Hbool;
    (eapply bind_in_fuel in H; [|exact Hbool]);
    (destruct verdict; cbn [negb] in *; [reflexivity|]);
    apply bind_congr; intros ra e5 Hask;
    (eapply bind_in_fuel in H; [|exact Hask]);
    apply bind_congr; intros r' e7 Hgen;
    (eapply bind_in_fuel in H; [|exact Hgen]).
  - exfalso. apply H. reflexivity.
  - apply IH. exact H.
Qed.

(** The result of the Completion Loop does not depend on the iterations
    allowed, once they suffice. *)
Lemma completion_more_fuel (fuel : nat) (cv : ConversationLoopHandler.t)
  (ctx : Context) (response : ModelResponse.t) (t : Transcript) :
  fst (ConversationLoopHandler.handleResponse fuel cv ctx response t)
    <> OutOfFuel ->
  ConversationLoopHandler.handleResponse (S fuel) cv ctx response t
  = ConversationLoopHandler.handleResponse fuel cv ctx response t.
Proof.
  unfold ConversationLoopHandler.handleResponse, lookupTool.
  rewrite !bind_call. cbn [fst].
  destruct (LookupTool _ _ _) as [askQuestion|]; [|reflexivity].
  intros H. rewrite forHasMoreQuestions_more_fuel by exact H. reflexivity.
Qed.

(** ** The Completion Loop *)

Lemma forHasMoreQuestions_rounds (n fuel : nat)
  (cv : ConversationLoopHandler.t) (ctx : Context) (askQuestion : Tool) :
  forall (response : ModelResponse.t) (t : Transcript)
         (r : ModelResponse.t) (evs : list Event),
  ConversationLoopHandler.forHasMoreQuestions n fuel cv ctx askQuestion
    response t = (Return r, evs) ->
  exists rounds : list ModelResponse.t,
    Forall resolved (rounds ++ [r]) /\
    boolEvaluations evs
      = map (fun x => (ModelResponse.History x, inr false)) rounds
        ++ [(ModelResponse.History r, inr true)] /\
    Forall2 (fun x opts =>
               exists answer err,
                 opts = [WithMessages (ModelResponse.History x);
                         WithTools [askQuestion];
                         WithPrompt answer [err]])
            rounds (promptGenerations evs).
Proof.
  induction n as [| n IH]; intros response t r evs H;
    cbn [ConversationLoopHandler.forHasMoreQuestions] in H;
    apply bind_Return_inv in H as (r1 & e1 & e2 & Hinner & H & ->);
    apply bind_Return_inv in H as (verdict & e3 & e4 & Hbool & H & ->);
    apply generateBool_Return_inv in Hbool as [_ ->];
    pose proof (resolution_events fuel
                  (ConversationLoopHandler.interruptionHandler cv) ctx
                  response t) as Hevents;
    pose proof (@resolution_returns_resolved fuel
                  (ConversationLoopHandler.interruptionHandler cv) ctx
                  response t r1) as Hres;
    rewrite Hinner in Hevents, Hres; cbn [fst snd] in Hevents, Hres;
    specialize (Hres eq_refl);
    unfold boolEvaluations, promptGenerations;
    rewrite !flat_map_app;
    fold (boolEvaluations e1); fold (promptGenerations e1);
    rewrite (boolEvaluations_resolution Hevents),
            (promptGenerations_resolution Hevents);
    destruct verdict; cbn [negb] in H.
  - injection H as <- <-. exists []. cbn. repeat constructor. exact Hres.
  - apply bind_Return_inv in H as (ra & e5 & e6 & Hask & H & ->).
    apply bind_Return_inv in H as (r' & e7 & e8 & _ & H & ->).
    discriminate.
  - injection H as <- <-. exists []. cbn. repeat constructor. exact Hres.
  - apply bind_Return_inv in H as (ra & e5 & e6 & Hask & H & ->).
    apply bind_Return_inv in H as (r' & e7 & e8 & Hgen & H & ->).
    unfold userInteraction, call in Hask. injection Hask as <- <-.
    apply generate_Return_inv in Hgen as [_ ->].
    apply IH in H as (rounds & Hall & Hbools & Hgens).
    exists (r1 :: rounds). split; [|split].
    + cbn. constructor; assumption.
    + rewrite !flat_map_app. fold (boolEvaluations e8).
      rewrite Hbools. reflexivity.
    + rewrite !flat_map_app. fold (promptGenerations e8).
      cbn. constructor; [|exact Hgens].
      eexists. eexists. reflexivity.
Qed.

(** C5. In a run of the Completion Loop that returns a Response, the
    boolean evaluations are one per fully-resolved Response, each on the
    History of that Response; every verdict but the last is false and is
    answered with one generation call seeded with a prompt, carrying that
    History; the last verdict is true, no generation call follows it, and
    the Response it judged is the one returned. *)
Theorem completion_loop_one_verdict_per_round
  (fuel : nat) (cv : ConversationLoopHandler.t) (ctx : Context)
  (response : ModelResponse.t) (t : Transcript)
  (r : ModelResponse.t) (evs : list Event) :
  ConversationLoopHandler.handleResponse fuel cv ctx response t
    = (Return r, evs) ->
  exists (askQuestion : Tool) (rounds : list ModelResponse.t),
    Forall resolved (rounds ++ [r]) /\
    boolEvaluations evs
      = map (fun x => (ModelResponse.History x, inr false)) rounds
        ++ [(ModelResponse.History r, inr true)] /\
    Forall2 (fun x opts =>
               exists answer err,
                 opts = [WithMessages (ModelResponse.History x);
                         WithTools [askQuestion];
                         WithPrompt answer [err]])
            rounds (promptGenerations evs) /\
    length (boolEvaluations evs) = S (length (promptGenerations evs)).
Proof.
  unfold ConversationLoopHandler.handleResponse, lookupTool.
  rewrite bind_call.
  destruct (LookupTool _ _ _) as [askQuestion|]; [|cbn; discriminate].
  destruct (ConversationLoopHandler.forHasMoreQuestions _ _ _ _ _ _ _)
    as [o e] eqn:Hloop.
  cbn [fst snd]. intros H. injection H as -> <-.
  apply forHasMoreQuestions_rounds in Hloop as (rounds & Hall & Hbools & Hgens).
  exists askQuestion, rounds. cbn [boolEvaluations promptGenerations flat_map app].
  fold (boolEvaluations e). fold (promptGenerations e).
  repeat split; try assumption.
  rewrite Hbools, length_app, length_map. cbn.
  rewrite (Forall2_length Hgens). lia.
Qed.

Lemma completion_loop_one_verdict_per_round_witness :
  exists (askQuestion : Tool) (rounds : list ModelResponse.t),
    Forall resolved
      (rounds ++ [Mock.createTextResponse "Final Answer" "stop"]) /\
    boolEvaluations
      (snd (ConversationLoopHandler.handleResponse 2
              (loopsOnce (Mock.constantly "User Answer"))
              Mock.Background simpleResponse []))
      = map (fun x => (ModelResponse.History x, inr false)) rounds
        ++ [(ModelResponse.History
               (Mock.createTextResponse "Final Answer" "stop"), inr true)] /\
    Forall2 (fun x opts =>
               exists answer err,
                 opts = [WithMessages (ModelResponse.History x);
                         WithTools [askQuestion];
                         WithPrompt answer [err]])
            rounds
            (promptGenerations
               (snd (ConversationLoopHandler.handleResponse 2
                       (loopsOnce (Mock.constantly "User Answer"))
                       Mock.Background simpleResponse []))) /\
    length (boolEvaluations
              (snd (ConversationLoopHandler.handleResponse 2
                      (loopsOnce (Mock.constantly "User Answer"))
                      Mock.Background simpleResponse [])))
    = S (length (promptGenerations
                   (snd (ConversationLoopHandler.handleResponse 2
                           (loopsOnce (Mock.constantly "User Answer"))
                           Mock.Background simpleResponse [])))).
Proof.
  apply (@completion_loop_one_verdict_per_round 2
           (loopsOnce (Mock.constantly "User Answer"))
           Mock.Background simpleResponse []).
  vm_compute. reflexivity.
Defined.

(** The scenario of two rounds with verdicts false, then true: two boolean
    evaluations, one generation call, the second Response returned. *)
Example loopsOnce_run :
  ConversationLoopHandler.handleResponse 2
    (loopsOnce (Mock.constantly "User Answer")) Mock.Background
    simpleResponse []
  = (Return (Mock.createTextResponse "Final Answer" "stop"),
     [LookupToolCall "askQuestion" (Some (Mock.createMockTool "askQuestion"));
      LookupToolCall "askQuestion" (Some (Mock.createMockTool "askQuestion"));
      GenerateBoolCall "Is finished?" (ModelResponse.History simpleResponse)
        (inr false);
      UserInteractionCall {| Question := "Hello"; Choices := [] |}
        "User Answer" None;
      GenerateCall
        [WithMessages (ModelResponse.History simpleResponse);
         WithTools [Mock.createMockTool "askQuestion"];
         WithPrompt "User Answer" [None]]
        (inr (Mock.createTextResponse "Final Answer" "stop"));
      LookupToolCall "askQuestion" (Some (Mock.createMockTool "askQuestion"));
      GenerateBoolCall "Is finished?"
        (ModelResponse.History (Mock.createTextResponse "Final Answer" "stop"))
        (inr true)]).
Proof. vm_compute. reflexivity. Qed.

(** ** What the Completion Loop seeds the next round with *)

Lemma Seeded_app (askQuestion : Tool) (e1 e2 : list Event) :
  Seeded askQuestion e1 -> Seeded askQuestion e2 ->
  Seeded askQuestion (e1 ++ e2).
Proof.
  induction 1 as [| prompt response answer err rest Hres Hnext _ IH
                  | ev rest Hev _ IH]; intros H2; cbn.
  - exact H2.
  - apply Seeded_more; auto.
    intros Herr. destruct (Hnext Herr) as (result & rest' & ->).
    exists result, (rest' ++ e2). reflexivity.
  - apply Seeded_other; auto.
Qed.

Lemma Seeded_resolution (askQuestion : Tool) (evs : list Event) :
  Forall (fun e => resolutionEvent e = true) evs -> Seeded askQuestion evs.
Proof.
  induction 1 as [| e evs He _ IH]; [constructor|].
  apply Seeded_other; [|exact IH].
  intros prompt history ->. discriminate.
Qed.

Lemma Seeded_split (askQuestion : Tool) (evs : list Event) :
  Seeded askQuestion evs ->
  forall a prompt history b,
    evs = a ++ GenerateBoolCall prompt history (inr false) :: b ->
    exists response answer err b1,
      resolved response /\
      history = ModelResponse.History response /\
      b = UserInteractionCall
            {| Question := ModelResponse.Text response; Choices := [] |}
            answer err
          :: b1 /\
      (err = None ->
       exists result b',
         b1 = GenerateCall
                [WithMessages (ModelResponse.History response);
                 WithTools [askQuestion];
                 WithPrompt answer [None]] result
              :: b').
Proof.
  induction 1 as [| prompt0 response answer err rest Hres Hnext _ IH
                  | ev rest Hev _ IH];
    intros a prompt history b Heq.
  - destruct a; discriminate.
  - destruct a as [| x [| y a]]; cbn in Heq.
    + injection Heq as _ <- <-.
      exists response, answer, err, rest. auto.
    + discriminate.
    + injection Heq as _ _ Heq. eauto.
  - destruct a as [| x a]; cbn in Heq.
    + injection Heq as -> _. exfalso. exact (Hev _ _ eq_refl).
    + injection Heq as _ Heq. eauto.
Qed.

Lemma Seeded_forHasMoreQuestions (n fuel : nat)
  (cv : ConversationLoopHandler.t) (ctx : Context) (askQuestion : Tool) :
  forall (response : ModelResponse.t) (t : Transcript),
    Seeded askQuestion
      (snd (ConversationLoopHandler.forHasMoreQuestions n fuel cv ctx
              askQuestion response t)).
Proof.
  induction n as [| n IH]; intros response t;
    cbn [ConversationLoopHandler.forHasMoreQuestions];
    pose proof (resolution_events fuel
                  (ConversationLoopHandler.interruptionHandler cv) ctx
                  response t) as Hevents;
    pose proof (@resolution_returns_resolved fuel
                  (ConversationLoopHandler.interruptionHandler cv) ctx
                  response t) as Hres;
    unfold bind at 1;
    destruct (InterruptionHandler.handleResponse fuel
                (ConversationLoopHandler.interruptionHandler cv) ctx
                response t) as [[r1 | err | | ] e1];
    cbn [fst snd] in Hevents, Hres;
    try (apply Seeded_resolution; exact Hevents);
    specialize (Hres r1 eq_refl);
    rewrite bind_generateBool;
    (destruct (GenerateBool _ _ _ _) as [err | [|]]; cbn [fst snd negb];
     [ apply Seeded_app;
         [apply Seeded_resolution; exact Hevents|];
         apply Seeded_other; [discriminate | constructor]
     | apply Seeded_app;
         [apply Seeded_resolution; exact Hevents|];
         apply Seeded_other; [discriminate | constructor]
     | ]);
    apply Seeded_app; try (apply Seeded_resolution; exact Hevents);
    unfold userInteraction; rewrite bind_call; cbn [fst snd];
    rewrite bind_generate;
    (destruct (Generate _ _ _) as [err | r']; cbn [fst snd];
     (apply Seeded_more;
      [ exact Hres
      | intros Herr; rewrite Herr; eauto
      | apply Seeded_other; [discriminate|] ]));
    try constructor.
  apply IH.
Qed.

(** C2, as the code has it.  With the capability registered, in every run
    of the Completion Loop a verdict "not finished" is followed at once by
    one Interaction call whose question is the text of the just-resolved
    Response (no choices).  When that call returns no error, the call that
    follows is one generation call that carries the History of that
    Response, the askQuestion tool, and the answer of the Interaction call
    as the text of its prompt. *)
Theorem completion_loop_seeds_user_answer
  (fuel : nat) (cv : ConversationLoopHandler.t) (ctx : Context)
  (response : ModelResponse.t) (t : Transcript) (askQuestion : Tool) :
  LookupTool (ConversationLoopHandler.generator cv) t "askQuestion"
    = Some askQuestion ->
  forall a prompt history b,
    snd (ConversationLoopHandler.handleResponse fuel cv ctx response t)
      = a ++ GenerateBoolCall prompt history (inr false) :: b ->
    exists justResolved answer err b1,
      resolved justResolved /\
      history = ModelResponse.History justResolved /\
      b = UserInteractionCall
            {| Question := ModelResponse.Text justResolved; Choices := [] |}
            answer err
          :: b1 /\
      (err = None ->
       exists result b',
         b1 = GenerateCall
                [WithMessages (ModelResponse.History justResolved);
                 WithTools [askQuestion];
                 WithPrompt answer [None]] result
              :: b').
Proof.
  intros Htool.
  apply Seeded_split.
  unfold ConversationLoopHandler.handleResponse, lookupTool.
  rewrite bind_call, Htool. cbn [snd].
  apply Seeded_other; [discriminate|].
  apply Seeded_forHasMoreQuestions.
Qed.

Lemma completion_loop_seeds_user_answer_witness :
  exists justResolved answer err b1,
    resolved justResolved /\
    ModelResponse.History simpleResponse = ModelResponse.History justResolved /\
    [UserInteractionCall {| Question := "Hello"; Choices := [] |}
       "User Answer" None;
     GenerateCall
       [WithMessages (ModelResponse.History simpleResponse);
        WithTools [Mock.createMockTool "askQuestion"];
        WithPrompt "User Answer" [None]]
       (inr (Mock.createTextResponse "Final Answer" "stop"));
     LookupToolCall "askQuestion" (Some (Mock.createMockTool "askQuestion"));
     GenerateBoolCall "Is finished?"
       (ModelResponse.History (Mock.createTextResponse "Final Answer" "stop"))
       (inr true)]
    = UserInteractionCall
        {| Question := ModelResponse.Text justResolved; Choices := [] |}
        answer err
      :: b1 /\
    (err = None ->
     exists result b',
       b1 = GenerateCall
              [WithMessages (ModelResponse.History justResolved);
               WithTools [Mock.createMockTool "askQuestion"];
               WithPrompt answer [None]] result
            :: b').
Proof.
  apply (@completion_loop_seeds_user_answer 2
           (loopsOnce (Mock.constantly "User Answer")) Mock.Background
           simpleResponse [] (Mock.createMockTool "askQuestion") eq_refl
           [LookupToolCall "askQuestion"
              (Some (Mock.createMockTool "askQuestion"));
            LookupToolCall "askQuestion"
              (Some (Mock.createMockTool "askQuestion"))]
           "Is finished?" (ModelResponse.History simpleResponse)).
  vm_compute. reflexivity.
Defined.

(** C2, as stated, fails.  The Response judged has the text "Hello" in both
    runs; the prompts seeded are what the user answered, "User Answer" in
    one run and "Another Answer" in the other, so no way of building the
    message from the text of the Response yields both. *)
Lemma prompt_is_not_built_from_response_text :
  ~ exists seed : string -> string,
      seededFromText seed (ModelResponse.Text simpleResponse)
        (snd (ConversationLoopHandler.handleResponse 2
                (loopsOnce (Mock.constantly "User Answer"))
                Mock.Background simpleResponse []))
      /\ seededFromText seed (ModelResponse.Text simpleResponse)
           (snd (ConversationLoopHandler.handleResponse 2
                   (loopsOnce (Mock.constantly "Another Answer"))
                   Mock.Background simpleResponse [])).
Proof.
  intros (seed & H1 & H2).
  unfold seededFromText in H1, H2.
  rewrite loopsOnce_run in H1.
  assert (Hother :
    promptTexts
      (snd (ConversationLoopHandler.handleResponse 2
              (loopsOnce (Mock.constantly "Another Answer"))
              Mock.Background simpleResponse []))
    = ["Another Answer"]) by (vm_compute; reflexivity).
  rewrite Hother in H2.
  change (promptTexts _) with ["User Answer"] in H1.
  inversion H1 as [| x l Hx _]. inversion H2 as [| y l' Hy _].
  rewrite <- Hx in Hy. discriminate.
Qed.

(** ** getQuestionInput *)

(** Strings and keys, written by Marshal and read back by Unmarshal *)

Lemma DecodeRune_ascii (b : ascii) (rest : string) :
  (utf8.byte b <? utf8.RuneSelf)%N = true ->
  utf8.DecodeRuneInString (String b rest) = (utf8.byte b, 1).
Proof.
  intros Hb. unfold utf8.DecodeRuneInString, utf8.first.
  unfold utf8.RuneSelf in Hb. rewrite Hb. reflexivity.
Qed.

Lemma invalid_ascii (b : ascii) (rest : string) :
  (utf8.byte b <? utf8.RuneSelf)%N = true ->
  utf8.invalid (utf8.DecodeRuneInString (String b rest)) = false.
Proof.
  intros Hb. rewrite (@DecodeRune_ascii b rest Hb). unfold utf8.invalid. cbn [fst snd].
  apply andb_false_iff. left. apply N.eqb_neq.
  apply N.ltb_lt in Hb. unfold utf8.RuneSelf, utf8.RuneError in *. lia.
Qed.

Lemma invalid_inv (d : utf8.rune * nat) :
  utf8.invalid d = true -> d = (utf8.RuneError, 1).
Proof.
  destruct d as [r n]. unfold utf8.invalid. cbn [fst snd].
  intros H. apply andb_true_iff in H as [Hr Hn].
  apply N.eqb_eq in Hr. apply Nat.eqb_eq in Hn. subst. reflexivity.
Qed.

(** What DecodeRuneInString reads of a valid encoding is copied as it is. *)
Lemma DecodeRune_copied (b : ascii) (rest : string) :
  utf8.invalid (utf8.DecodeRuneInString (String b rest)) = false ->
  utf8.DecodeRuneInString
    (String b
       (json.appendString
          (snd (utf8.DecodeRuneInString (String b rest)) - 1) rest))
  = utf8.DecodeRuneInString (String b rest).
Proof.
  unfold utf8.DecodeRuneInString.
  destruct (utf8.first b) as [| | sz lo hi]; [reflexivity | reflexivity |].
  destruct rest as [| s1 t1]; [reflexivity|].
  destruct (utf8.within lo hi s1) eqn:H1; cbn [negb]; [|discriminate].
  destruct (sz <=? 2)%nat eqn:Hsz2.
  { intros _. cbn [snd Nat.sub json.appendString]. rewrite H1. reflexivity. }
  destruct t1 as [| s2 t2]; [discriminate|].
  destruct (utf8.within 128 191 s2) eqn:H2; cbn [negb]; [|discriminate].
  destruct (sz <=? 3)%nat eqn:Hsz3.
  { intros _. cbn [snd Nat.sub json.appendString]. rewrite H1, H2.
    reflexivity. }
  destruct t2 as [| s3 t3]; [discriminate|].
  destruct (utf8.within 128 191 s3) eqn:H3; cbn [negb]; [|discriminate].
  intros _. cbn [snd Nat.sub json.appendString]. rewrite H1, H2, H3.
  reflexivity.
Qed.

Lemma appendFoldedName_RuneError (x : string) :
  decode.appendFoldedName 0 (utf8.AppendRune utf8.RuneError ++ x)
  = (utf8.AppendRune utf8.RuneError ++ decode.appendFoldedName 0 x)%string.
Proof. reflexivity. Qed.

(** Writing a key as a string literal does not change its folded name. *)
Lemma appendFoldedName_appendString (s : string) :
  forall n,
    decode.appendFoldedName n (json.appendString n s)
    = decode.appendFoldedName n s.
Proof.
  induction s as [| b rest IH]; intros n; [reflexivity|].
  destruct n as [| n]; cbn [json.appendString decode.appendFoldedName];
    [|apply IH].
  destruct (utf8.byte b <? utf8.RuneSelf)%N eqn:Hb.
  - cbn [decode.appendFoldedName]. rewrite Hb, IH. reflexivity.
  - destruct (utf8.invalid (utf8.DecodeRuneInString (String b rest)))
      eqn:Hinv.
    + rewrite appendFoldedName_RuneError, IH.
      rewrite (@invalid_inv _ Hinv). reflexivity.
    + cbn [decode.appendFoldedName]. rewrite Hb.
      rewrite (@DecodeRune_copied _ _ Hinv), IH. reflexivity.
Qed.

Lemma foldName_literal (key : string) :
  decode.foldName (json.literal key) = decode.foldName key.
Proof. apply appendFoldedName_appendString. Qed.

Lemma fieldMatch_folded (key name : string) :
  decode.fieldMatch key name
  = String.eqb (decode.foldName key) (decode.foldName name).
Proof.
  unfold decode.fieldMatch. destruct (String.eqb key name) eqn:H;
    [|reflexivity].
  apply String.eqb_eq in H. subst. rewrite String.eqb_refl. reflexivity.
Qed.

Lemma fieldMatch_literal (key name : string) :
  decode.fieldMatch (json.literal key) name = decode.fieldMatch key name.
Proof. rewrite !fieldMatch_folded, foldName_literal. reflexivity. Qed.

(** A valid string is written and read back unchanged. *)
Lemma appendString_valid (s : string) :
  forall n, utf8.ValidString' n s = true -> json.appendString n s = s.
Proof.
  induction s as [| b rest IH]; intros n; [reflexivity|].
  destruct n as [| n]; cbn [json.appendString utf8.ValidString'].
  - destruct (utf8.invalid (utf8.DecodeRuneInString (String b rest)))
      eqn:Hinv.
    + discriminate.
    + intros H. destruct (utf8.byte b <? utf8.RuneSelf)%N eqn:Hb.
      * rewrite (@DecodeRune_ascii b rest Hb) in H. cbn [snd Nat.sub] in H.
        rewrite (IH _ H). reflexivity.
      * rewrite (IH _ H). reflexivity.
  - intros H. rewrite (IH _ H). reflexivity.
Qed.

Lemma literal_valid (s : string) :
  utf8.ValidString s = true -> json.literal s = s.
Proof. apply appendString_valid. Qed.

Lemma Marshal_Map (m : list (string * any)) :
  json.Marshal (Map m) =
  match json.sequence (map json.keyed (json.sortByKey (entries m))) with
  | inl e => inl e
  | inr js => inr (json.JObject js)
  end.
Proof.
  cbn [json.Marshal].
  replace ((fix each (m0 : list (string * any))
              : list (string * (error + json.JSON)) :=
              match m0 with
              | [] => []
              | (k, x) :: rest => (k, json.Marshal x) :: each rest
              end) m) with (entries m); [reflexivity|].
  induction m as [| [k x] m IH]; [reflexivity|].
  cbn. f_equal. exact IH.
Qed.

Lemma sequence_inr {A : Type} (l : list (error + A)) (js : list A) :
  json.sequence l = inr js <-> l = map inr js.
Proof.
  revert js. induction l as [| [e | a] l IH]; intros js; cbn.
  - split; intros H.
    + injection H as <-. reflexivity.
    + destruct js; [reflexivity | discriminate].
  - split; intros H; [discriminate|]. destruct js; discriminate.
  - destruct (json.sequence l) as [e | r] eqn:Hseq.
    + split; intros H; [discriminate|].
      destruct js as [| j js]; [discriminate|].
      injection H as -> H. apply IH in H. discriminate.
    + split; intros H.
      * injection H as <-. cbn. f_equal. apply IH. reflexivity.
      * destruct js as [| j js]; [discriminate|].
        injection H as -> H. apply IH in H. injection H as ->. reflexivity.
Qed.

Lemma sequence_fails {A : Type} (l : list (error + A)) (e : error) :
  json.sequence l = inl e -> Exists (fun x => x = inl e) l.
Proof.
  induction l as [| [e' | a] l IH]; cbn; intros H.
  - discriminate.
  - injection H as ->. constructor. reflexivity.
  - destruct (json.sequence l); [|discriminate].
    injection H as ->. apply Exists_cons_tl. apply IH. reflexivity.
Qed.

Lemma Forall_insertByKey {A : Type} (P : string * A -> Prop)
  (kv : string * A) (l : list (string * A)) :
  Forall P (json.insertByKey kv l) <-> P kv /\ Forall P l.
Proof.
  induction l as [| kv' l IH]; cbn.
  - split; [intros H; inversion H; auto | intros [H _]; constructor; auto].
  - destruct (String.leb (fst kv) (fst kv')).
    + split; [intros H; inversion H; auto | intros [H1 H2]; constructor; auto].
    + split.
      * intros H. inversion H as [| x y Hx Hl]; subst.
        apply IH in Hl as [Hkv Hl]. auto.
      * intros [Hkv H]. inversion H as [| x y Hx Hl]; subst.
        constructor; [exact Hx|]. apply IH. auto.
Qed.

Lemma Forall_sortByKey {A : Type} (P : string * A -> Prop)
  (l : list (string * A)) :
  Forall P (json.sortByKey l) <-> Forall P l.
Proof.
  induction l as [| kv l IH]; cbn; [tauto|].
  rewrite Forall_insertByKey, IH.
  split; [intros [H1 H2]; constructor; auto | intros H; inversion H; auto].
Qed.

(** A property of the encoded entries of a map is a property of its
    entries. *)
Lemma Marshal_Map_Forall (R : error + (string * json.JSON) -> Prop)
  (m : list (string * any)) (js : list (string * json.JSON)) :
  json.Marshal (Map m) = inr (json.JObject js) ->
  (Forall R (map inr js) <->
   Forall (fun kx => R (json.keyed (fst kx, json.Marshal (snd kx)))) m).
Proof.
  rewrite Marshal_Map.
  destruct (json.sequence _) as [e | js'] eqn:Hseq; [discriminate|].
  intros H. injection H as ->.
  apply sequence_inr in Hseq. rewrite <- Hseq.
  rewrite Forall_map, Forall_sortByKey. unfold entries.
  rewrite Forall_map. reflexivity.
Qed.

Lemma Marshal_Map_object (m : list (string * any)) (j : json.JSON) :
  json.Marshal (Map m) = inr j -> exists js, j = json.JObject js.
Proof.
  rewrite Marshal_Map. destruct (json.sequence _); [discriminate|].
  intros H. injection H as <-. eexists. reflexivity.
Qed.

Lemma stringish_Marshal (x : any) (j : json.JSON) :
  json.Marshal x = inr j -> jsonStringish j = stringish x.
Proof.
  destruct x as [| b | [m e | | neg] | s | l | l | m |]; cbn [json.Marshal];
    try discriminate;
    try (intros H; injection H as <-; reflexivity).
  - destruct (json.sequence _); [discriminate|].
    intros H; injection H as <-; reflexivity.
  - fold (json.Marshal (Map m)). intros H.
    destruct (Marshal_Map_object _ H) as [js ->]. reflexivity.
Qed.

Lemma stringsish_Marshal (x : any) (j : json.JSON) :
  json.Marshal x = inr j -> jsonStringsish j = stringsish x.
Proof.
  destruct x as [| b | [m e | | neg] | s | l | l | m |]; cbn [json.Marshal];
    try discriminate;
    try (intros H; injection H as <-; reflexivity).
  - destruct (json.sequence (map json.Marshal l)) as [e | js] eqn:Hseq;
      [discriminate|].
    intros H; injection H as <-. cbn.
    apply sequence_inr in Hseq. revert js Hseq.
    induction l as [| x l IH]; intros [| j js] Hseq; try discriminate;
      [reflexivity|].
    cbn in Hseq. injection Hseq as Hx Hl. cbn.
    rewrite (stringish_Marshal _ Hx), (IH _ Hl). reflexivity.
  - intros H; injection H as <-. cbn [jsonStringsish stringsish].
    induction l as [| s l IH]; [reflexivity | exact IH].
  - fold (json.Marshal (Map m)). intros H.
    destruct (Marshal_Map_object _ H) as [js ->]. reflexivity.
Qed.

Lemma wellShaped_Marshal (k : string) (x : any) (j : json.JSON) :
  json.Marshal x = inr j ->
  jsonWellShaped (json.literal k, j) = wellShaped (k, x).
Proof.
  intros H. unfold jsonWellShaped, wellShaped. cbn [fst snd].
  rewrite !fieldMatch_literal.
  rewrite (stringish_Marshal _ H), (stringsish_Marshal _ H). reflexivity.
Qed.

Lemma intoString_ok (field : string) (j : json.JSON) (old : string) :
  (exists s, decode.intoString field j old = inr s) <-> jsonStringish j = true.
Proof.
  destruct j; cbn; split; intros H; try discriminate; eauto;
    destruct H; discriminate.
Qed.

Lemma intoElements_ok (field : string) (l : list json.JSON) :
  forall backing,
    (exists c, decode.intoElements field l backing = inr c)
    <-> forallb jsonStringish l = true.
Proof.
  induction l as [| x l IH]; intros backing;
    cbn [decode.intoElements forallb].
  - split; eauto.
  - rewrite andb_true_iff, <- (IH (tl backing)),
      <- (intoString_ok field x (hd "" backing)).
    destruct (decode.intoString field x (hd "" backing)) as [e | s].
    + split; [intros [c H]; discriminate | intros [[s H] _]; discriminate].
    + destruct (decode.intoElements field l (tl backing)) as [e | r].
      * split; [intros [c H]; discriminate | intros [_ [c H]]; discriminate].
      * split; eauto.
Qed.

Lemma intoStrings_ok (field : string) (j : json.JSON) (backing : list string) :
  (exists c, decode.intoStrings field j backing = inr c)
  <-> jsonStringsish j = true.
Proof.
  destruct j as [| b | m e | s | l | m]; cbn [decode.intoStrings jsonStringsish];
    try (split; intros H; [destruct H|]; discriminate).
  - split; eauto.
  - rewrite <- (intoElements_ok field l backing).
    destruct l as [| x l]; [cbn; split; eauto|].
    destruct (decode.intoElements field (x :: l) backing) as [e | c].
    + split; intros [c H]; discriminate.
    + split; eauto.
Qed.

Lemma intoFields_ok (js : list (string * json.JSON)) :
  forall q spare,
    (exists q', decode.intoFields js q spare = inr q')
    <-> forallb jsonWellShaped js = true.
Proof.
  induction js as [| [key j] js IH]; intros q spare;
    cbn [decode.intoFields forallb].
  - split; eauto.
  - rewrite andb_true_iff. unfold jsonWellShaped at 1. cbn [fst snd].
    destruct (decode.fieldMatch key "question").
    + rewrite <- (intoString_ok "question" j (Question q)).
      destruct (decode.intoString "question" j (Question q)) as [e | s].
      * split; [intros [q' H]; discriminate | intros [[s H] _]; discriminate].
      * rewrite IH. split; [intros H; split; eauto | tauto].
    + destruct (decode.fieldMatch key "choices").
      * rewrite <- (intoStrings_ok "choices" j (Choices q ++ spare)).
        destruct (decode.intoStrings "choices" j (Choices q ++ spare))
          as [e | [c spare']].
        -- split; [intros [q' H]; discriminate | intros [[c H] _]; discriminate].
        -- rewrite IH. split; [intros H; split; eauto | tauto].
      * rewrite IH. tauto.
Qed.

Lemma intoFields_unmatched (js : list (string * json.JSON)) (q : QuestionInput)
  (spare : list string) :
  Forall (fun kj => decode.fieldMatch (fst kj) "question" = false /\
                    decode.fieldMatch (fst kj) "choices" = false) js ->
  decode.intoFields js q spare = inr q.
Proof.
  induction 1 as [| [key j] js [H1 H2] _ IH]; cbn [decode.intoFields].
  - reflexivity.
  - cbn [fst] in H1, H2. rewrite H1, H2. exact IH.
Qed.

Lemma Marshal_Map_values (m : list (string * any)) (j : json.JSON) :
  json.Marshal (Map m) = inr j ->
  Forall (fun kx => exists j', json.Marshal (snd kx) = inr j') m.
Proof.
  intros H. destruct (Marshal_Map_object _ H) as [js ->].
  pose proof (@Marshal_Map_Forall (fun r => exists kj, r = inr kj) m js H)
    as [Hto _].
  assert (Hall : Forall (fun r : error + (string * json.JSON) =>
                           exists kj, r = inr kj) (map inr js)).
  { apply Forall_map. apply Forall_forall. intros kj _. eauto. }
  apply Hto in Hall. revert Hall. apply Forall_impl.
  intros [k x] [kj Hk]. unfold json.keyed in Hk. cbn [fst snd] in *.
  destruct (json.Marshal x) as [e | j']; [discriminate | eauto].
Qed.

Lemma Marshal_Map_shape (m : list (string * any))
  (js : list (string * json.JSON)) :
  json.Marshal (Map m) = inr (json.JObject js) ->
  (forallb jsonWellShaped js = true <-> forallb wellShaped m = true).
Proof.
  intros H.
  pose proof (Marshal_Map_values _ H) as Hvalues.
  pose proof (@Marshal_Map_Forall
                (fun r => match r with
                          | inr kj => jsonWellShaped kj = true
                          | inl _ => False
                          end) m js H) as Hiff.
  rewrite Forall_map in Hiff.
  rewrite !forallb_forall. rewrite <- !Forall_forall.
  rewrite Hiff. rewrite !Forall_forall. rewrite Forall_forall in Hvalues.
  split; intros Hall [k x] Hin; specialize (Hall _ Hin);
    destruct (Hvalues _ Hin) as [j' Hj']; cbn [fst snd] in *;
    unfold json.keyed in *; cbn [fst snd] in *; rewrite Hj' in *;
    rewrite (wellShaped_Marshal k _ Hj') in *; exact Hall.
Qed.

Lemma Marshal_Map_unmatched (m : list (string * any))
  (js : list (string * json.JSON)) :
  json.Marshal (Map m) = inr (json.JObject js) ->
  forallb unmatched m = true ->
  Forall (fun kj => decode.fieldMatch (fst kj) "question" = false /\
                    decode.fieldMatch (fst kj) "choices" = false) js.
Proof.
  intros H Hun.
  pose proof (@Marshal_Map_Forall
                (fun r => match r with
                          | inr kj =>
                              decode.fieldMatch (fst kj) "question" = false /\
                              decode.fieldMatch (fst kj) "choices" = false
                          | inl _ => True
                          end) m js H) as Hiff.
  rewrite Forall_map in Hiff. apply Hiff.
  rewrite forallb_forall in Hun. apply Forall_forall.
  intros [k x] Hin. specialize (Hun _ Hin).
  unfold unmatched in Hun. cbn [fst snd] in *. unfold json.keyed. cbn [fst snd].
  apply andb_true_iff in Hun as [H1 H2].
  apply negb_true_iff in H1, H2.
  destruct (json.Marshal x); [exact I|]. cbn [fst].
  rewrite !fieldMatch_literal. auto.
Qed.

(** C10, as the code has it.  getQuestionInput returns the zero
    QuestionInput on the empty map and on every map whose values encode
    and whose keys match neither "question" nor "choices"; a key matches a
    field when it is the field's name or has its folded name (letter case
    apart, and U+017F standing for an s).  It succeeds exactly on the maps
    whose values encode and whose entries under keys matching "question"
    are strings or nil, and under keys matching "choices" are nil or
    slices of strings and nils.  It returns an error exactly when the input
    is not a map, or encoding fails, or decoding the encoded document
    fails. *)
Theorem getQuestionInput_accepts_shaped_maps :
  getQuestionInput (Map []) = inr zeroQuestionInput
  /\ (forall m,
        (exists j, json.Marshal (Map m) = inr j) ->
        forallb unmatched m = true ->
        getQuestionInput (Map m) = inr zeroQuestionInput)
  /\ (forall input,
        (exists q, getQuestionInput input = inr q) <->
        exists m, input = Map m /\
                  (exists j, json.Marshal (Map m) = inr j) /\
                  forallb wellShaped m = true)
  /\ (forall input err,
        getQuestionInput input = inl err <->
        ((forall m, input <> Map m) /\
         err = errorString ("unexpected input type: " ++ typeName input))
        \/ (exists m e,
              input = Map m /\ json.Marshal input = inl e /\
              err = wrapError "failed to marshal input: " e)
        \/ (exists m j e,
              input = Map m /\ json.Marshal input = inr j /\
              decode.Unmarshal j zeroQuestionInput = inl e /\
              err = wrapError "failed to unmarshal input: " e)).
Proof.
  split; [reflexivity|]. split; [|split].
  - intros m [j Hj] Hun.
    destruct (Marshal_Map_object _ Hj) as [js ->].
    unfold getQuestionInput. rewrite Hj. cbn [decode.Unmarshal].
    fold zeroQuestionInput.
    rewrite (@intoFields_unmatched js zeroQuestionInput []
               (Marshal_Map_unmatched _ Hj Hun)).
    reflexivity.
  - intros input. split.
    + intros [q Hq].
      destruct input as [| | | | | | m |]; try discriminate.
      exists m. split; [reflexivity|].
      unfold getQuestionInput in Hq.
      destruct (json.Marshal (Map m)) as [e | j] eqn:Hj; [discriminate|].
      split; [eauto|].
      destruct (Marshal_Map_object _ Hj) as [js ->].
      apply (Marshal_Map_shape _ Hj).
      apply (intoFields_ok js {| Question := ""; Choices := [] |} []).
      cbn [decode.Unmarshal] in Hq.
      destruct (decode.intoFields js _ _) as [e | q']; [discriminate | eauto].
    + intros (m & -> & [j Hj] & Hshape).
      destruct (Marshal_Map_object _ Hj) as [js ->].
      apply (Marshal_Map_shape _ Hj) in Hshape.
      apply (intoFields_ok js {| Question := ""; Choices := [] |} [])
        in Hshape as [q' Hq'].
      exists q'. unfold getQuestionInput. rewrite Hj.
      cbn [decode.Unmarshal]. rewrite Hq'. reflexivity.
  - intros input err. split.
    + intros H.
      destruct input as [| | | | | | m |];
        try (left; split; [intros m; discriminate|];
             cbn in H; injection H as <-; reflexivity).
      right. unfold getQuestionInput in H.
      destruct (json.Marshal (Map m)) as [e | j] eqn:Hj.
      * left. exists m, e. injection H as <-. auto.
      * right. fold zeroQuestionInput in H.
        destruct (decode.Unmarshal j zeroQuestionInput) as [e | q] eqn:Hu;
          [|discriminate].
        exists m, j, e. injection H as <-. auto.
    + intros [[Hnot ->] | [(m & e & -> & Hj & ->) | (m & j & e & -> & Hj & Hu & ->)]].
      * destruct input as [| | | | | | m |]; try reflexivity.
        exfalso. exact (Hnot m eq_refl).
      * unfold getQuestionInput. rewrite Hj. reflexivity.
      * unfold getQuestionInput. rewrite Hj. fold zeroQuestionInput.
        rewrite Hu. reflexivity.
Qed.

Lemma getQuestionInput_accepts_shaped_maps_witness :
  getQuestionInput (Map [("topic", Str "gifts"); ("Budget", Float64 (Finite 5 1))])
  = inr zeroQuestionInput.
Proof.
  apply (proj1 (proj2 getQuestionInput_accepts_shaped_maps)).
  - eexists. vm_compute. reflexivity.
  - vm_compute. reflexivity.
Defined.

(** C10, as stated, fails: the values of this map encode, and
    getQuestionInput rejects it, because a number cannot be stored into the
    question. *)
Lemma getQuestionInput_rejects_numeric_question :
  json.Marshal (Map [("question", Float64 (Finite 42 0))])
    = inr (json.JObject [("question", json.JNumber 42 0)])
  /\ getQuestionInput (Map [("question", Float64 (Finite 42 0))])
     = inl (wrapError "failed to unmarshal input: "
              (UnmarshalTypeError "number" "question"))
  /\ ~ acceptsEveryMarshalableMap.
Proof.
  split; [reflexivity|]. split; [reflexivity|].
  intros H.
  destruct (H [("question", Float64 (Finite 42 0))]) as [q Hq].
  - eexists. reflexivity.
  - discriminate.
Qed.

(** * Further properties *)

(** ** The Resolution Loop as a whole *)

Lemma forInterrupts_Return (ih : InterruptionHandler.t) (ctx : Context)
  (askQuestion : Tool) (parts : list Part.t) :
  forall (acc : list Part.t) (t : Transcript) (answers : list Part.t)
         (e1 : list Event),
    InterruptionHandler.forInterrupts ih ctx askQuestion parts acc t
      = (Return answers, e1) ->
    (exists strs,
       length strs = length parts /\
       answers = acc ++ respondAll askQuestion parts strs) /\
    interactionCount e1 = length parts.
Proof.
  induction parts as [| part rest IH]; intros acc t answers e1 H;
    cbn [InterruptionHandler.forInterrupts] in H.
  - injection H as <- <-. split; [|reflexivity].
    exists []. split; [reflexivity|]. cbn. rewrite app_nil_r. reflexivity.
  - destruct (ctx t) as [err|] eqn:Hctx.
    + rewrite checkDone_done with (err := err) in H by exact Hctx.
      discriminate.
    + rewrite checkDone_live in H by exact Hctx.
      destruct (Part.ToolRequest part) as [toolRequest|]; [|discriminate].
      destruct (getQuestionInput (ToolRequest.Input toolRequest))
        as [err | q]; [discriminate|].
      unfold userInteraction in H. rewrite bind_call in H. cbn [fst snd] in H.
      destruct (snd (InterruptionHandler.UserInteraction ih _ q));
        [discriminate|].
      match type of H with
      | (fst ?run, _) = _ => destruct run as [o e2] eqn:Hrun
      end.
      cbn [fst snd] in H. injection H as -> <-.
      apply IH in Hrun as [(strs & Hlen & ->) Hcount].
      split.
      * eexists (_ :: strs). split; [cbn; rewrite Hlen; reflexivity|].
        unfold respondAll. cbn [combine map fst snd].
        rewrite <- app_assoc. reflexivity.
      * unfold interactionCount in *. cbn. rewrite Hcount. reflexivity.
Qed.

Lemma generated_quiet (evs : list Event) :
  Forall (fun e => isGenerate e = false) evs -> generated evs = [].
Proof.
  induction 1 as [| e evs He _ IH]; [reflexivity|].
  destruct e; cbn in *; try exact IH. discriminate.
Qed.

Lemma generationCount_quiet (evs : list Event) :
  Forall (fun e => isGenerate e = false) evs -> generationCount evs = 0.
Proof.
  unfold generationCount.
  induction 1 as [| e evs He _ IH]; [reflexivity|].
  cbn. rewrite He. exact IH.
Qed.

Lemma generated_app (e1 e2 : list Event) :
  generated (e1 ++ e2) = generated e1 ++ generated e2.
Proof. apply flat_map_app. Qed.

Lemma interactionCount_app (e1 e2 : list Event) :
  interactionCount (e1 ++ e2) = interactionCount e1 + interactionCount e2.
Proof. unfold interactionCount. rewrite filter_app, length_app. reflexivity. Qed.

Lemma generationCount_app (e1 e2 : list Event) :
  generationCount (e1 ++ e2) = generationCount e1 + generationCount e2.
Proof. unfold generationCount. rewrite filter_app, length_app. reflexivity. Qed.

Lemma last_cons_default {A : Type} (l : list A) :
  forall x d : A, last (x :: l) d = last l x.
Proof.
  induction l as [| y l IH]; intros x d; [reflexivity|].
  change (last (x :: y :: l) d) with (last (y :: l) d).
  rewrite (IH y d), (IH y x). reflexivity.
Qed.

(** Where a list splits at a generation call, given a first part without
    one. *)
Lemma split_after_quiet (p rest a b : list Event) (g0 g : Event) :
  Forall (fun e => isGenerate e = false) p ->
  isGenerate g = true ->
  p ++ g0 :: rest = a ++ g :: b ->
  (a = p /\ g = g0 /\ b = rest) \/
  (exists a', a = p ++ g0 :: a' /\ rest = a' ++ g :: b).
Proof.
  intros Hp Hg. revert a.
  induction Hp as [| x p Hx _ IH]; intros a Heq.
  - destruct a as [| y a]; cbn in Heq.
    + injection Heq as <- <-. left. auto.
    + injection Heq as <- Heq. right. exists a. auto.
  - destruct a as [| y a]; cbn in Heq.
    + injection Heq as -> _. congruence.
    + injection Heq as <- Heq.
      destruct (IH _ Heq) as [(-> & -> & ->) | (a' & -> & ->)].
      * left. auto.
      * right. exists a'. auto.
Qed.

Lemma forInterrupted_resumptions (fuel : nat) (ih : InterruptionHandler.t)
  (ctx : Context) (askQuestion : Tool) :
  forall (response : ModelResponse.t) (t : Transcript)
         (a b : list Event) (opts : list GenerateOption)
         (res : error + ModelResponse.t),
    snd (InterruptionHandler.forInterrupted fuel ih ctx askQuestion response t)
      = a ++ GenerateCall opts res :: b ->
    ModelResponse.FinishReason (last (generated a) response) = "interrupted" /\
    exists answers : list string,
      length answers
        = length (ModelResponse.Interrupts (last (generated a) response)) /\
      opts = [WithMessages
                (ModelResponse.History (last (generated a) response));
              WithTools [askQuestion];
              WithToolResponses
                (respondAll askQuestion
                   (ModelResponse.Interrupts (last (generated a) response))
                   answers)].
Proof.
  induction fuel as [| fuel IH]; intros response t a b opts res Heq.
  - cbn [InterruptionHandler.forInterrupted] in Heq.
    destruct (String.eqb _ _); cbn in Heq; destruct a; discriminate.
  - destruct (String.eqb (ModelResponse.FinishReason response) "interrupted")
      eqn:Hint.
    2:{ apply String.eqb_neq in Hint.
        rewrite forInterrupted_resolved in Heq by exact Hint.
        cbn in Heq. destruct a; discriminate. }
    apply String.eqb_eq in Hint.
    rewrite forInterrupted_step in Heq by exact Hint.
    destruct (ctx t) as [err|] eqn:Hctx.
    { rewrite checkDone_done with (err := err) in Heq by exact Hctx.
      cbn in Heq. destruct a as [| x [| y a]]; discriminate. }
    rewrite checkDone_live in Heq by exact Hctx. cbn [snd] in Heq.
    pose proof (forInterrupts_quiet ih ctx askQuestion
                  (ModelResponse.Interrupts response) []
                  (t ++ [CtxPoll None])) as Hquiet.
    destruct (InterruptionHandler.forInterrupts ih ctx askQuestion
                (ModelResponse.Interrupts response) [] (t ++ [CtxPoll None]))
      as [[answers | err | | ] e1] eqn:Hasks; cbn [snd] in Hquiet.
    2,3,4: (unfold bind in Heq; rewrite Hasks in Heq; cbn [snd] in Heq;
            exfalso;
            assert (Hall : Forall (fun e => isGenerate e = false)
                             (CtxPoll None :: e1))
              by (constructor; [reflexivity | exact Hquiet]);
            rewrite Heq in Hall; apply Forall_elt in Hall; discriminate).
    erewrite bind_Return in Heq by exact Hasks. cbn [snd] in Heq.
    rewrite bind_generate in Heq.
    apply forInterrupts_Return in Hasks as [(strs & Hlen & ->) _].
    cbn [app] in Heq.
    assert (Hp : Forall (fun e => isGenerate e = false) (CtxPoll None :: e1))
      by (constructor; [reflexivity | exact Hquiet]).
    destruct (Generate (InterruptionHandler.generator ih) _ _)
      as [err | r'] eqn:Hgen; cbn [snd] in Heq.
    + destruct (@split_after_quiet (CtxPoll None :: e1) _ a b _
                  (GenerateCall opts res) Hp eq_refl Heq)
        as [(-> & Hg & _) | (a' & _ & Hrest)].
      * injection Hg as -> _.
        rewrite (generated_quiet Hp). cbn [last].
        split; [exact Hint|]. exists strs. auto.
      * destruct a'; discriminate.
    + destruct (@split_after_quiet (CtxPoll None :: e1) _ a b _
                  (GenerateCall opts res) Hp eq_refl Heq)
        as [(-> & Hg & _) | (a' & -> & Hrest)].
      * injection Hg as -> _.
        rewrite (generated_quiet Hp). cbn [last].
        split; [exact Hint|]. exists strs. auto.
      * rewrite generated_app, (generated_quiet Hp). cbn [app generated flat_map].
        fold (generated a'). rewrite last_cons_default.
        apply (IH _ _ _ _ _ _ Hrest).
Qed.

(** X1. A Response that the Resolution Loop returns is never suspended:
    the loop has no exit with FinishReason "interrupted". *)
Theorem resolution_never_returns_suspended
  (fuel : nat) (ih : InterruptionHandler.t) (ctx : Context)
  (response : ModelResponse.t) (t : Transcript) (r : ModelResponse.t) :
  fst (InterruptionHandler.handleResponse fuel ih ctx response t) = Return r ->
  ModelResponse.FinishReason r <> "interrupted".
Proof. apply resolution_returns_resolved. Qed.

Lemma resolution_never_returns_suspended_witness :
  ModelResponse.FinishReason
    (Mock.createTextResponse "Based on both genders and ages..." "stop")
  <> "interrupted".
Proof.
  apply (@resolution_never_returns_suspended 3 twoInterruptsHandler
           Mock.Background twoInterrupts []).
  vm_compute. reflexivity.
Defined.

(** X2. With the capability registered, every generation call of the
    Resolution Loop resumes the latest Response (the one given, or the one
    the previous generation call returned): that Response is suspended, the
    call carries its History, the askQuestion tool alone, and one tool
    response per pending request of that Response, built by the tool's
    Respond from the requests in order.  No Response is resumed with part
    of its answers. *)
Theorem every_resumption_answers_all_requests
  (fuel : nat) (ih : InterruptionHandler.t) (ctx : Context)
  (response : ModelResponse.t) (t : Transcript) (askQuestion : Tool)
  (a b : list Event) (opts : list GenerateOption)
  (res : error + ModelResponse.t) :
  LookupTool (InterruptionHandler.generator ih) t "askQuestion"
    = Some askQuestion ->
  snd (InterruptionHandler.handleResponse fuel ih ctx response t)
    = a ++ GenerateCall opts res :: b ->
  ModelResponse.FinishReason (last (generated a) response) = "interrupted" /\
  exists answers : list string,
    length answers
      = length (ModelResponse.Interrupts (last (generated a) response)) /\
    opts = [WithMessages (ModelResponse.History (last (generated a) response));
            WithTools [askQuestion];
            WithToolResponses
              (respondAll askQuestion
                 (ModelResponse.Interrupts (last (generated a) response))
                 answers)].
Proof.
  intros Htool.
  unfold InterruptionHandler.handleResponse, lookupTool.
  rewrite bind_call, Htool. cbn [snd]. intros Heq.
  destruct a as [| x a]; cbn in Heq; [discriminate|].
  injection Heq as <- Heq.
  cbn [generated flat_map app]. fold (generated a).
  apply (forInterrupted_resumptions _ _ _ _ _ _ _ _ _ _ Heq).
Qed.

Lemma every_resumption_answers_all_requests_witness :
  ModelResponse.FinishReason
    (last (generated
             [LookupToolCall "askQuestion"
                (Some (Mock.createMockTool "askQuestion"));
              CtxPoll None;
              CtxPoll None;
              UserInteractionCall
                {| Question := "What gender are the children?";
                   Choices := ["Boy"; "Girl"; "Both"] |} "Boy and Girl" None;
              CtxPoll None;
              UserInteractionCall
                {| Question := "What are their ages?";
                   Choices := ["5-7"; "8-10"; "11-13"; "14+"] |}
                "8 and 11" None])
          twoInterrupts) = "interrupted".
Proof.
  refine (proj1 (@every_resumption_answers_all_requests 3 twoInterruptsHandler
                   Mock.Background twoInterrupts []
                   (Mock.createMockTool "askQuestion") _ []
                   [WithMessages (ModelResponse.History twoInterrupts);
                    WithTools [Mock.createMockTool "askQuestion"];
                    WithToolResponses
                      [Respond (Mock.createMockTool "askQuestion")
                         (Mock.createToolRequestPart "askQuestion"
                            "What gender are the children?"
                            ["Boy"; "Girl"; "Both"])
                         (Str "Boy and Girl");
                       Respond (Mock.createMockTool "askQuestion")
                         (Mock.createToolRequestPart "askQuestion"
                            "What are their ages?"
                            ["5-7"; "8-10"; "11-13"; "14+"])
                         (Str "8 and 11")]]
                   (inr (Mock.createTextResponse
                           "Based on both genders and ages..." "stop"))
                   _ _)).
  - reflexivity.
  - vm_compute. reflexivity.
Defined.

Lemma forInterrupted_counts (fuel : nat) (ih : InterruptionHandler.t)
  (ctx : Context) (askQuestion : Tool) :
  forall (response : ModelResponse.t) (t : Transcript)
         (r : ModelResponse.t) (evs : list Event),
    InterruptionHandler.forInterrupted fuel ih ctx askQuestion response t
      = (Return r, evs) ->
    last (generated evs) response = r /\
    generationCount evs = length (generated evs) /\
    interactionCount evs
      = pendingRequests (removelast (response :: generated evs)).
Proof.
  induction fuel as [| fuel IH]; intros response t r evs H.
  - cbn [InterruptionHandler.forInterrupted] in H.
    destruct (String.eqb _ _); [discriminate|].
    injection H as <- <-. repeat split.
  - destruct (String.eqb (ModelResponse.FinishReason response) "interrupted")
      eqn:Hint.
    2:{ apply String.eqb_neq in Hint.
        rewrite forInterrupted_resolved in H by exact Hint.
        injection H as <- <-. repeat split. }
    apply String.eqb_eq in Hint.
    rewrite forInterrupted_step in H by exact Hint.
    destruct (ctx t) as [err|] eqn:Hctx.
    { rewrite checkDone_done with (err := err) in H by exact Hctx.
      discriminate. }
    rewrite checkDone_live in H by exact Hctx.
    match type of H with
    | (fst ?run, _) = _ => destruct run as [o e0] eqn:Hrun
    end.
    cbn [fst snd] in H. injection H as -> <-.
    apply bind_Return_inv in Hrun as (answers & e1 & e2 & Hasks & Hrun & ->).
    apply bind_Return_inv in Hrun as (r' & e3 & e4 & Hgen & Hrun & ->).
    apply generate_Return_inv in Hgen as [_ ->].
    pose proof (forInterrupts_quiet ih ctx askQuestion
                  (ModelResponse.Interrupts response) []
                  (t ++ [CtxPoll None])) as Hquiet.
    rewrite Hasks in Hquiet. cbn [snd] in Hquiet.
    apply forInterrupts_Return in Hasks as [_ Hcount].
    apply IH in Hrun as (Hlast & Hgens & Hasked).
    change (CtxPoll None :: e1 ++ [GenerateCall ?o (inr r')] ++ e4)
      with ([CtxPoll None] ++ e1 ++ [GenerateCall o (inr r')] ++ e4).
    rewrite !generated_app, !generationCount_app, !interactionCount_app.
    rewrite (generated_quiet Hquiet), (generationCount_quiet Hquiet), Hcount.
    cbn [generated flat_map app length filter isGenerate isInteraction
         generationCount interactionCount plus].
    fold (generated e4). fold (generationCount e4). fold (interactionCount e4).
    rewrite last_cons_default. split; [exact Hlast|].
    split; [rewrite Hgens; reflexivity|].
    rewrite Hasked. unfold pendingRequests.
    change (removelast (response :: r' :: generated e4))
      with (response :: removelast (r' :: generated e4)).
    cbn [map list_sum]. reflexivity.
Qed.

(** X3. When the Resolution Loop returns a Response, that Response is the
    one the last generation call returned (the one given, if no call was
    made), every generation call succeeded, and the Interaction calls made
    are as many as the pending requests of all the Responses before the
    returned one: each suspended Response had every pending request asked
    once. *)
Theorem resolution_asks_every_pending_request_once
  (fuel : nat) (ih : InterruptionHandler.t) (ctx : Context)
  (response : ModelResponse.t) (t : Transcript)
  (r : ModelResponse.t) (evs : list Event) :
  InterruptionHandler.handleResponse fuel ih ctx response t = (Return r, evs) ->
  last (generated evs) response = r /\
  generationCount evs = length (generated evs) /\
  interactionCount evs
    = pendingRequests (removelast (response :: generated evs)).
Proof.
  unfold InterruptionHandler.handleResponse, lookupTool.
  rewrite bind_call.
  destruct (LookupTool _ _ _) as [askQuestion|]; [|discriminate].
  match goal with
  | |- (fst ?run, _) = _ -> _ => destruct run as [o e0] eqn:Hrun
  end.
  cbn [fst snd]. intros H. injection H as -> <-.
  apply forInterrupted_counts in Hrun. exact Hrun.
Qed.

Lemma resolution_asks_every_pending_request_once_witness :
  last (generated
          (snd (InterruptionHandler.handleResponse 3 twoInterruptsHandler
                  Mock.Background twoInterrupts [])))
       twoInterrupts
    = Mock.createTextResponse "Based on both genders and ages..." "stop" /\
  generationCount
    (snd (InterruptionHandler.handleResponse 3 twoInterruptsHandler
            Mock.Background twoInterrupts []))
    = length (generated
                (snd (InterruptionHandler.handleResponse 3 twoInterruptsHandler
                        Mock.Background twoInterrupts []))) /\
  interactionCount
    (snd (InterruptionHandler.handleResponse 3 twoInterruptsHandler
            Mock.Background twoInterrupts []))
    = pendingRequests
        (removelast
           (twoInterrupts
            :: generated
                 (snd (InterruptionHandler.handleResponse 3
                         twoInterruptsHandler Mock.Background
                         twoInterrupts [])))).
Proof.
  apply (@resolution_asks_every_pending_request_once 3 twoInterruptsHandler
           Mock.Background twoInterrupts []).
  vm_compute. reflexivity.
Defined.

(** X4. In the Resolution Loop a call that fails is the last call made, and
    its error is what the loop returns, unchanged: a context found done, an
    Interaction call that returns an error, a generation call that returns
    an error.  Nothing is retried and nothing follows. *)
Theorem resolution_failure_is_final
  (fuel : nat) (ih : InterruptionHandler.t) (ctx : Context)
  (response : ModelResponse.t) (t : Transcript)
  (a b : list Event) (e : Event) (err : error) :
  snd (InterruptionHandler.handleResponse fuel ih ctx response t)
    = a ++ e :: b ->
  failure e = Some err ->
  b = [] /\
  fst (InterruptionHandler.handleResponse fuel ih ctx response t) = Throw err.
Proof.
  intros Heq He.
  apply (@failureEnds_split _ _ _
           (proj2 (Inv_resolution fuel ih ctx response t)) a e b err Heq He).
Qed.

Lemma resolution_failure_is_final_witness :
  @nil Event = [] /\
  fst (InterruptionHandler.handleResponse 3
         {| InterruptionHandler.generator :=
              Mock.NewMockGenerator [] Mock.tools [];
            InterruptionHandler.UserInteraction := Mock.constantly "Boy" |}
         Mock.Background twoInterrupts [])
  = Throw (errorString "no more mock responses available").
Proof.
  apply (@resolution_failure_is_final 3
           {| InterruptionHandler.generator :=
                Mock.NewMockGenerator [] Mock.tools [];
              InterruptionHandler.UserInteraction := Mock.constantly "Boy" |}
           Mock.Background twoInterrupts []
           [LookupToolCall "askQuestion"
              (Some (Mock.createMockTool "askQuestion"));
            CtxPoll None;
            CtxPoll None;
            UserInteractionCall
              {| Question := "What gender are the children?";
                 Choices := ["Boy"; "Girl"; "Both"] |} "Boy" None;
            CtxPoll None;
            UserInteractionCall
              {| Question := "What are their ages?";
                 Choices := ["5-7"; "8-10"; "11-13"; "14+"] |} "Boy" None]
           []
           (GenerateCall
              [WithMessages (ModelResponse.History twoInterrupts);
               WithTools [Mock.createMockTool "askQuestion"];
               WithToolResponses
                 (respondAll (Mock.createMockTool "askQuestion")
                    (ModelResponse.Interrupts twoInterrupts) ["Boy"; "Boy"])]
              (inl (errorString "no more mock responses available")))).
  - vm_compute. reflexivity.
  - reflexivity.
Defined.

(** ** Failures in the Completion Loop *)

Lemma failureEnds_cons {A : Type} (o : outcome A) (e : Event)
  (rest : list Event) :
  failureEnds o (e :: rest) ->
  (failure e = None /\ failureEnds o rest) \/
  (exists err, failure e = Some err /\ rest = [] /\ o = Throw err).
Proof.
  intros [Hquiet | (a & e0 & err & Heq & He0 & Hquiet & ->)].
  - inversion Hquiet as [| x l Hx Hl]; subst. left. split; [exact Hx|].
    left. exact Hl.
  - destruct a as [| x a]; cbn in Heq.
    + injection Heq as -> ->. right. exists err. auto.
    + injection Heq as -> ->.
      inversion Hquiet as [| y l Hy Hl]; subst. left. split; [exact Hy|].
      right. exists a, e0, err. auto.
Qed.

Lemma Halting_of_resolution {A : Type} (o : outcome A) (evs : list Event) :
  Polled evs -> failureEnds o evs -> Halting o evs.
Proof.
  induction 1 as [| q answer err rest _ IH | ev rest Hev _ IH]; intros Hends.
  - constructor.
  - apply failureEnds_cons in Hends as [[_ Hends] | (x & Hx & _)];
      [|discriminate].
    apply failureEnds_cons in Hends as [[Herr Hends] | (x & Hx & -> & ->)].
    + destruct err; [discriminate|]. apply Halting_ask. auto.
    + destruct err as [err|]; [|discriminate]. injection Hx as ->.
      apply Halting_ask_fatal. reflexivity.
  - apply failureEnds_cons in Hends as [[Hquiet Hends] | (x & Hx & -> & ->)].
    + apply Halting_quiet; auto.
    + apply Halting_fatal with (err := x); auto.
Qed.

Lemma Halting_app {A B : Type} (o1 : outcome A) (o2 : outcome B)
  (e1 e2 : list Event) :
  Halting o1 e1 -> (forall err, o1 <> Throw err) ->
  Halting o2 e2 -> Halting o2 (e1 ++ e2).
Proof.
  intros H1 Ho H2.
  induction H1 as [| e err He Hf Hthrow | q answer rest _ IH
                   | q answer err Hthrow
                   | prompt history q answer err rest _ IH
                   | e rest He Hf _ IH]; cbn [app].
  - exact H2.
  - exfalso. exact (Ho _ Hthrow).
  - apply Halting_ask. exact IH.
  - exfalso. exact (Ho _ Hthrow).
  - apply Halting_seed. exact IH.
  - apply Halting_quiet; assumption.
Qed.

Lemma Halting_head {A : Type} (o : outcome A) (e : Event) (l : list Event) :
  Halting o (e :: l) -> isInteraction e = false.
Proof.
  intros H. inversion H; subst; try reflexivity; assumption.
Qed.

Lemma ends_with_cons {A : Type} (x z : A) (l a' : list A) :
  x :: l = a' ++ [z] -> (l = [] /\ x = z) \/ (exists l', l = l' ++ [z]).
Proof.
  destruct a' as [| y a']; cbn; intros H.
  - injection H as -> <-. left. auto.
  - injection H as _ ->. right. exists a'. reflexivity.
Qed.

Lemma Halting_split {A : Type} (o : outcome A) (evs : list Event) :
  Halting o evs ->
  forall a e b err,
    evs = a ++ e :: b -> failure e = Some err ->
    (isInteraction e = false \/ exists a', a = a' ++ [CtxPoll None]) ->
    b = [] /\ o = Throw err.
Proof.
  induction 1 as [| e0 err0 He0 Hf0 Hthrow | q answer rest Hrest IH
                  | q answer err0 Hthrow
                  | prompt history q answer err0 rest Hrest IH
                  | e0 rest He0 Hf0 Hrest IH];
    intros a e b err Heq He Hpos.
  - destruct a; discriminate.
  - destruct a as [| x a]; cbn in Heq.
    + injection Heq as <- <-. split; [reflexivity | congruence].
    + injection Heq as _ Heq. destruct a; discriminate.
  - destruct a as [| x [| y a]]; cbn in Heq.
    + injection Heq as <- _. discriminate.
    + injection Heq as _ <- _. discriminate.
    + injection Heq as <- <- Heq.
      apply (IH _ _ _ _ Heq He).
      destruct Hpos as [Hpos | [a' Ha']]; [left; exact Hpos|].
      apply ends_with_cons in Ha' as [[Hnil _] | [l' Hl']]; [discriminate|].
      apply ends_with_cons in Hl' as [[-> Hx] | [l'' ->]]; [discriminate|].
      right. exists l''. reflexivity.
  - destruct a as [| x [| y a]]; cbn in Heq.
    + injection Heq as <- _. discriminate.
    + injection Heq as _ <- <-. cbn in He. split; [reflexivity | congruence].
    + injection Heq as _ _ Heq. destruct a; discriminate.
  - destruct a as [| x [| y a]]; cbn in Heq.
    + injection Heq as <- _. discriminate.
    + injection Heq as <- <- _.
      destruct Hpos as [Hpos | [a' Ha']]; [discriminate|].
      apply ends_with_cons in Ha' as [[_ Hx] | [l' Hl']]; [discriminate|].
      destruct l'; discriminate.
    + injection Heq as <- <- Heq.
      apply (IH _ _ _ _ Heq He).
      destruct Hpos as [Hpos | [a' Ha']]; [left; exact Hpos|].
      apply ends_with_cons in Ha' as [[Hnil _] | [l' Hl']]; [discriminate|].
      apply ends_with_cons in Hl' as [[-> Hx] | [l'' ->]]; [discriminate|].
      right. exists l''. reflexivity.
  - destruct a as [| x a]; cbn in Heq.
    + injection Heq as <- _. congruence.
    + injection Heq as -> Heq.
      apply (IH _ _ _ _ Heq He).
      destruct Hpos as [Hpos | [a' Ha']]; [left; exact Hpos|].
      apply ends_with_cons in Ha' as [[-> _] | [l' ->]].
      * left. cbn in Heq. subst rest. apply (Halting_head Hrest).
      * right. exists l'. reflexivity.
Qed.

Lemma Halting_retype {A B : Type} (o : outcome A) (o' : outcome B)
  (evs : list Event) :
  (forall err, o = Throw err -> o' = Throw err) ->
  Halting o evs -> Halting o' evs.
Proof.
  intros Ho. induction 1.
  - constructor.
  - apply Halting_fatal with (err := err); auto.
  - apply Halting_ask. assumption.
  - apply Halting_ask_fatal. auto.
  - apply Halting_seed. assumption.
  - apply Halting_quiet; assumption.
Qed.

Lemma Halting_bind {A B : Type} (m : M A) (k : A -> M B) (t : Transcript) :
  Halting (fst (m t)) (snd (m t)) ->
  (forall a e1, m t = (Return a, e1) ->
     Halting (fst (k a (t ++ e1))) (snd (k a (t ++ e1)))) ->
  Halting (fst (bind m k t)) (snd (bind m k t)).
Proof.
  intros Hm Hk. unfold bind.
  destruct (m t) as [[a | err | | ] e1]; cbn [fst snd] in *.
  - specialize (Hk a e1 eq_refl).
    destruct (k a (t ++ e1)) as [o e2]. cbn [fst snd] in *.
    apply (Halting_app Hm); [discriminate | exact Hk].
  - apply (@Halting_retype A B (Throw err)); [|exact Hm].
    intros err' H. injection H as ->. reflexivity.
  - apply (@Halting_retype A B Panic); [discriminate | exact Hm].
  - apply (@Halting_retype A B OutOfFuel); [discriminate | exact Hm].
Qed.

Lemma Halting_forHasMoreQuestions (n fuel : nat)
  (cv : ConversationLoopHandler.t) (ctx : Context) (askQuestion : Tool) :
  forall (response : ModelResponse.t) (t : Transcript),
    Halting
      (fst (ConversationLoopHandler.forHasMoreQuestions n fuel cv ctx
              askQuestion response t))
      (snd (ConversationLoopHandler.forHasMoreQuestions n fuel cv ctx
              askQuestion response t)).
Proof.
  induction n as [| n IH]; intros response t;
    rewrite forHasMoreQuestions_eq;
    (apply Halting_bind;
     [ apply Halting_of_resolution; apply Inv_resolution |]);
    intros r1 e1 _;
    rewrite bind_generateBool;
    (destruct (GenerateBool _ _ _ _) as [err | [|]]; cbn [fst snd negb];
     [ apply Halting_fatal with (err := err); reflexivity
     | apply Halting_quiet; [reflexivity | reflexivity | constructor]
     | ]);
    unfold userInteraction; rewrite bind_call; cbn [fst snd];
    apply Halting_seed;
    rewrite bind_generate;
    (destruct (Generate _ _ _) as [err | r']; cbn [fst snd];
     [ apply Halting_fatal with (err := err); reflexivity
     | apply Halting_quiet; [reflexivity | reflexivity |] ]).
  - constructor.
  - apply IH.
Qed.

(** X5. In the Completion Loop a call that fails is the last call made and
    its error is returned unchanged, when the call is a check of the
    context, a generation call, a boolean evaluation, or an Interaction
    call made right after a check of the context (the calls of the
    Resolution Loop inside). *)
Theorem completion_loop_failure_is_final
  (fuel : nat) (cv : ConversationLoopHandler.t) (ctx : Context)
  (response : ModelResponse.t) (t : Transcript)
  (a b : list Event) (e : Event) (err : error) :
  snd (ConversationLoopHandler.handleResponse fuel cv ctx response t)
    = a ++ e :: b ->
  failure e = Some err ->
  isInteraction e = false \/ (exists a', a = a' ++ [CtxPoll None]) ->
  b = [] /\
  fst (ConversationLoopHandler.handleResponse fuel cv ctx response t)
    = Throw err.
Proof.
  assert (H : Halting
                (fst (ConversationLoopHandler.handleResponse fuel cv ctx
                        response t))
                (snd (ConversationLoopHandler.handleResponse fuel cv ctx
                        response t))).
  { unfold ConversationLoopHandler.handleResponse, lookupTool.
    rewrite bind_call. cbn [fst snd].
    apply Halting_quiet; [reflexivity | reflexivity |].
    destruct (LookupTool _ _ _) as [askQuestion|].
    - apply Halting_forHasMoreQuestions.
    - constructor. }
  intros Heq He Hpos. exact (@Halting_split _ _ _ H a e b err Heq He Hpos).
Qed.

Lemma completion_loop_failure_is_final_witness :
  @nil Event = [] /\
  fst (ConversationLoopHandler.handleResponse 2
         {| ConversationLoopHandler.generator :=
              Mock.NewMockGenerator [] Mock.tools [false; true];
            ConversationLoopHandler.validationPrompt := "Is finished?";
            ConversationLoopHandler.interruptionHandler :=
              {| InterruptionHandler.generator :=
                   Mock.NewMockGenerator [] Mock.tools [false; true];
                 InterruptionHandler.UserInteraction :=
                   Mock.constantly "User Answer" |} |}
         Mock.Background simpleResponse [])
  = Throw (errorString "no more mock responses available").
Proof.
  apply (@completion_loop_failure_is_final 2
           {| ConversationLoopHandler.generator :=
                Mock.NewMockGenerator [] Mock.tools [false; true];
              ConversationLoopHandler.validationPrompt := "Is finished?";
              ConversationLoopHandler.interruptionHandler :=
                {| InterruptionHandler.generator :=
                     Mock.NewMockGenerator [] Mock.tools [false; true];
                   InterruptionHandler.UserInteraction :=
                     Mock.constantly "User Answer" |} |}
           Mock.Background simpleResponse []
           [LookupToolCall "askQuestion"
              (Some (Mock.createMockTool "askQuestion"));
            LookupToolCall "askQuestion"
              (Some (Mock.createMockTool "askQuestion"));
            GenerateBoolCall "Is finished?"
              (ModelResponse.History simpleResponse) (inr false);
            UserInteractionCall {| Question := "Hello"; Choices := [] |}
              "User Answer" None]
           []
           (GenerateCall
              [WithMessages (ModelResponse.History simpleResponse);
               WithTools [Mock.createMockTool "askQuestion"];
               WithPrompt "User Answer" [None]]
              (inl (errorString "no more mock responses available")))).
  - vm_compute. reflexivity.
  - reflexivity.
  - left. reflexivity.
Defined.

(** ** The Completion Loop and cancellation *)

Lemma resolution_of_resolved (fuel : nat) (ih : InterruptionHandler.t)
  (ctx : Context) (response : ModelResponse.t) (t : Transcript) :
  resolved response ->
  InterruptionHandler.handleResponse fuel ih ctx response t =
  match LookupTool (InterruptionHandler.generator ih) t "askQuestion" with
  | Some askQuestion =>
      (Return response, [LookupToolCall "askQuestion" (Some askQuestion)])
  | None => (Throw notFound, [LookupToolCall "askQuestion" None])
  end.
Proof.
  intros Hres. unfold InterruptionHandler.handleResponse, lookupTool.
  rewrite bind_call.
  destruct (LookupTool _ _ _) as [askQuestion|]; [|reflexivity].
  rewrite forInterrupted_resolved by exact Hres. reflexivity.
Qed.

Lemma Forall_bind_on {A B : Type} (P : Event -> Prop) (m : M A)
  (k : A -> M B) (t : Transcript) :
  Forall P (snd (m t)) ->
  (forall a e1, m t = (Return a, e1) -> Forall P (snd (k a (t ++ e1)))) ->
  Forall P (snd (bind m k t)).
Proof.
  intros Hm Hk. unfold bind.
  destruct (m t) as [[a | err | | ] e1]; cbn in Hm; try exact Hm.
  specialize (Hk a e1 eq_refl). destruct (k a (t ++ e1)) as [o e2].
  cbn in *. apply Forall_app; auto.
Qed.

Lemma forHasMoreQuestions_no_check (n fuel : nat)
  (cv : ConversationLoopHandler.t) (ctx : Context) (askQuestion : Tool) :
  (forall t opts r,
     Generate (ConversationLoopHandler.generator cv) t opts = inr r ->
     resolved r) ->
  forall (response : ModelResponse.t) (t : Transcript),
    resolved response ->
    Forall (fun e => isCtxPoll e = false)
      (snd (ConversationLoopHandler.forHasMoreQuestions n fuel cv ctx
              askQuestion response t)).
Proof.
  intros Hgen.
  induction n as [| n IH]; intros response t Hres;
    rewrite !forHasMoreQuestions_eq;
    (apply Forall_bind_on;
      [ rewrite resolution_of_resolved by exact Hres;
        destruct (LookupTool _ _ _); repeat constructor |];
      intros r1 e1 _;
      rewrite bind_generateBool;
      (destruct (GenerateBool _ _ _ _) as [err | [|]]; cbn [snd negb];
       [ repeat constructor | repeat constructor | ]);
      (constructor; [reflexivity|]);
      unfold userInteraction; rewrite bind_call; cbn [snd];
      (constructor; [reflexivity|]);
      rewrite bind_generate;
      (destruct (Generate _ _ _) as [err | r'] eqn:Hr'; cbn [snd];
       [ repeat constructor | ]);
      (constructor; [reflexivity|]); apply Hgen in Hr').
  - constructor.
  - apply (IH _ _ Hr').
Qed.

(** X6. The Completion Loop has no check of the context of its own: the
    checks of a run are those of the Resolution Loop inside, which it
    makes for a suspended Response.  When the Response given and every
    Response the Generator returns are not suspended, a run makes no check
    of the context, whatever the context is. *)
Theorem completion_loop_makes_no_context_check
  (fuel : nat) (cv : ConversationLoopHandler.t) (ctx : Context)
  (response : ModelResponse.t) (t : Transcript) :
  resolved response ->
  (forall t' opts r,
     Generate (ConversationLoopHandler.generator cv) t' opts = inr r ->
     resolved r) ->
  Forall (fun e => isCtxPoll e = false)
    (snd (ConversationLoopHandler.handleResponse fuel cv ctx response t)).
Proof.
  intros Hres Hgen.
  unfold ConversationLoopHandler.handleResponse, lookupTool.
  rewrite !bind_call.
  destruct (LookupTool _ _ _) as [askQuestion|].
  - cbn [snd]. constructor; [reflexivity|].
    apply (@forHasMoreQuestions_no_check fuel fuel cv ctx askQuestion Hgen
             response _ Hres).
  - repeat constructor.
Qed.

Lemma completion_loop_makes_no_context_check_witness :
  Forall (fun e => isCtxPoll e = false)
    (snd (ConversationLoopHandler.handleResponse 2
            (loopsOnce (Mock.constantly "User Answer")) Mock.cancelled
            simpleResponse [])).
Proof.
  refine (@completion_loop_makes_no_context_check 2
            (loopsOnce (Mock.constantly "User Answer"))
            Mock.cancelled simpleResponse [] _ _).
  - cbn. discriminate.
  - intros t' opts r. cbn.
    destruct (nth_error _ _) as [x|] eqn:Hx; [|discriminate].
    intros H. injection H as <-. unfold resolved. cbn.
    destruct (Mock.callIndex t') as [| [| k]]; cbn in Hx;
      try discriminate.
    injection Hx as <-. cbn. discriminate.
Defined.

(** ** RunAgent *)

Lemma lookupTools_registered (g : Generator) (t : Transcript)
  (names : list string) (tools : list Tool) :
  Registered g t names tools ->
  forall (more : list string) (acc : list Tool),
    lookupTools g (names ++ more) acc t
    = (fst (lookupTools g more (acc ++ tools) (t ++ lookupCalls names tools)),
       lookupCalls names tools
       ++ snd (lookupTools g more (acc ++ tools)
                 (t ++ lookupCalls names tools))).
Proof.
  induction 1 as [t | t name names tool tools Hlookup _ IH]; intros more acc.
  - cbn. rewrite !app_nil_r. symmetry. apply surjective_run.
  - cbn [app lookupTools]. unfold lookupTool at 1. rewrite bind_call.
    rewrite Hlookup. rewrite IH. cbn [fst snd].
    unfold lookupCalls. cbn [combine map fst snd].
    rewrite <- !app_assoc. cbn [app]. reflexivity.
Qed.

Lemma lookupTools_all (g : Generator) (t : Transcript)
  (names : list string) (tools : list Tool) :
  Registered g t names tools ->
  lookupTools g names [] t = (Return tools, lookupCalls names tools).
Proof.
  intros H. pose proof (lookupTools_registered H [] []) as Heq.
  rewrite app_nil_r in Heq. rewrite Heq. cbn. rewrite app_nil_r. reflexivity.
Qed.

(** X7. RunAgent looks the tools up in the order of toolNames and stops at
    the first one that is not registered: it returns the error
    "<name> tool not found" for that name, having made the lookups up to it
    and no generation call; the response handler is not called. *)
Theorem RunAgent_stops_at_first_missing_tool
  (fuel : nat) (ctx : Context) (options : Options.t) (t : Transcript)
  (pre post : list string) (name : string) (tools : list Tool) :
  Options.toolNames options = pre ++ name :: post ->
  Registered (Options.generator options) t pre tools ->
  LookupTool (Options.generator options) (t ++ lookupCalls pre tools) name
    = None ->
  RunAgent fuel ctx options t
  = (Throw (errorString (name ++ " tool not found")),
     lookupCalls pre tools ++ [LookupToolCall name None]).
Proof.
  intros Hnames Hreg Hnone. unfold RunAgent. rewrite Hnames.
  erewrite bind_Throw; [reflexivity|].
  rewrite (lookupTools_registered Hreg).
  cbn [lookupTools]. unfold lookupTool. rewrite bind_call, Hnone.
  reflexivity.
Qed.

Lemma RunAgent_stops_at_first_missing_tool_witness :
  RunAgent 3 Mock.Background
    {| Options.generator := Mock.NewMockGenerator [simpleResponse] Mock.tools [];
       Options.systemPrompt := "Be helpful";
       Options.userPrompt := "Help with gifts";
       Options.toolNames := ["askQuestion"; "search"; "askQuestion"];
       Options.responseHandler := None |} []
  = (Throw (errorString "search tool not found"),
     [LookupToolCall "askQuestion" (Some (Mock.createMockTool "askQuestion"));
      LookupToolCall "search" None]).
Proof.
  apply (@RunAgent_stops_at_first_missing_tool 3 Mock.Background _ []
           ["askQuestion"] ["askQuestion"] "search"
           [Mock.createMockTool "askQuestion"]).
  - reflexivity.
  - repeat constructor.
  - reflexivity.
Defined.

(** X8. With all the tools of toolNames registered and no response
    handler, RunAgent makes the lookups and exactly one generation call,
    with the user prompt, the system prompt and the tools in the order of
    toolNames, and returns the text of the Response of that call, suspended
    or not, or the error of the call unchanged. *)
Theorem RunAgent_without_handler
  (fuel : nat) (ctx : Context) (options : Options.t) (t : Transcript)
  (tools : list Tool) :
  Registered (Options.generator options) t (Options.toolNames options) tools ->
  Options.responseHandler options = None ->
  RunAgent fuel ctx options t
  = match Generate (Options.generator options)
            (t ++ lookupCalls (Options.toolNames options) tools)
            (firstCall options tools) with
    | inl err =>
        (Throw err,
         lookupCalls (Options.toolNames options) tools
         ++ [GenerateCall (firstCall options tools) (inl err)])
    | inr r =>
        (Return (ModelResponse.Text r),
         lookupCalls (Options.toolNames options) tools
         ++ [GenerateCall (firstCall options tools) (inr r)])
    end.
Proof.
  intros Hreg Hnil. unfold RunAgent.
  erewrite bind_Return by (apply lookupTools_all; exact Hreg).
  rewrite bind_generate. fold (firstCall options tools). rewrite Hnil.
  destruct (Generate _ _ _) as [err | r]; reflexivity.
Qed.

Lemma RunAgent_without_handler_witness :
  RunAgent 0 Mock.Background
    {| Options.generator := Mock.NewMockGenerator [twoInterrupts] Mock.tools [];
       Options.systemPrompt := "Be helpful";
       Options.userPrompt := "Help with gifts";
       Options.toolNames := ["askQuestion"];
       Options.responseHandler := None |} []
  = (Return "",
     [LookupToolCall "askQuestion" (Some (Mock.createMockTool "askQuestion"));
      GenerateCall
        [WithPrompt "Help with gifts" []; WithSystem "Be helpful";
         WithTools [Mock.createMockTool "askQuestion"]]
        (inr twoInterrupts)]).
Proof.
  apply (@RunAgent_without_handler 0 Mock.Background
           {| Options.generator :=
                Mock.NewMockGenerator [twoInterrupts] Mock.tools [];
              Options.systemPrompt := "Be helpful";
              Options.userPrompt := "Help with gifts";
              Options.toolNames := ["askQuestion"];
              Options.responseHandler := None |} []
           [Mock.createMockTool "askQuestion"]).
  - repeat constructor.
  - reflexivity.
Defined.

(** X9. When the first generation call of RunAgent fails, RunAgent returns
    its error unchanged and the response handler, whichever it is, is not
    called: no lookup by the handler, no Interaction, no further call. *)
Theorem RunAgent_first_generation_error
  (fuel : nat) (ctx : Context) (options : Options.t) (t : Transcript)
  (tools : list Tool) (err : error) :
  Registered (Options.generator options) t (Options.toolNames options) tools ->
  Generate (Options.generator options)
    (t ++ lookupCalls (Options.toolNames options) tools)
    (firstCall options tools) = inl err ->
  RunAgent fuel ctx options t
  = (Throw err,
     lookupCalls (Options.toolNames options) tools
     ++ [GenerateCall (firstCall options tools) (inl err)]).
Proof.
  intros Hreg Hgen. unfold RunAgent.
  erewrite bind_Return by (apply lookupTools_all; exact Hreg).
  rewrite bind_generate. fold (firstCall options tools). rewrite Hgen.
  reflexivity.
Qed.

Lemma RunAgent_first_generation_error_witness :
  RunAgent 3 Mock.Background
    {| Options.generator := Mock.NewMockGenerator [] Mock.tools [];
       Options.systemPrompt := "Be helpful";
       Options.userPrompt := "Help with gifts";
       Options.toolNames := ["askQuestion"];
       Options.responseHandler :=
         Some (interruptionResponseHandler twoInterruptsHandler) |} []
  = (Throw (errorString "no more mock responses available"),
     [LookupToolCall "askQuestion" (Some (Mock.createMockTool "askQuestion"));
      GenerateCall
        [WithPrompt "Help with gifts" []; WithSystem "Be helpful";
         WithTools [Mock.createMockTool "askQuestion"]]
        (inl (errorString "no more mock responses available"))]).
Proof.
  apply (@RunAgent_first_generation_error 3 Mock.Background
           {| Options.generator := Mock.NewMockGenerator [] Mock.tools [];
              Options.systemPrompt := "Be helpful";
              Options.userPrompt := "Help with gifts";
              Options.toolNames := ["askQuestion"];
              Options.responseHandler :=
                Some (interruptionResponseHandler twoInterruptsHandler) |} []
           [Mock.createMockTool "askQuestion"]).
  - repeat constructor.
  - reflexivity.
Defined.

Lemma last_app_default {A : Type} (l1 l2 : list A) :
  forall d : A, last (l1 ++ l2) d = last l2 (last l1 d).
Proof.
  induction l1 as [| x l1 IH]; intros d; [reflexivity|].
  change ((x :: l1) ++ l2) with (x :: (l1 ++ l2)).
  rewrite !last_cons_default. apply IH.
Qed.

Lemma resolution_returns_last_generated (fuel : nat)
  (ih : InterruptionHandler.t) (ctx : Context)
  (response : ModelResponse.t) (t : Transcript)
  (r : ModelResponse.t) (evs : list Event) :
  InterruptionHandler.handleResponse fuel ih ctx response t
    = (Return r, evs) ->
  last (generated evs) response = r /\ resolved r.
Proof.
  intros H. split.
  - unfold InterruptionHandler.handleResponse, lookupTool in H.
    rewrite bind_call in H.
    destruct (LookupTool _ _ _) as [askQuestion|]; [|discriminate].
    destruct (InterruptionHandler.forInterrupted _ _ _ _ _ _) as [o e]
      eqn:Hloop.
    cbn [fst snd] in H. injection H as -> <-.
    apply forInterrupted_counts in Hloop as [Hlast _]. exact Hlast.
  - apply (@resolution_returns_resolved fuel ih ctx response t r).
    rewrite H. reflexivity.
Qed.

Lemma forHasMoreQuestions_last_generated (n fuel : nat)
  (cv : ConversationLoopHandler.t) (ctx : Context) (askQuestion : Tool) :
  forall (response : ModelResponse.t) (t : Transcript)
         (r : ModelResponse.t) (evs : list Event),
  ConversationLoopHandler.forHasMoreQuestions n fuel cv ctx askQuestion
    response t = (Return r, evs) ->
  last (generated evs) response = r /\ resolved r.
Proof.
  induction n as [| n IH]; intros response t r evs H;
    cbn [ConversationLoopHandler.forHasMoreQuestions] in H;
    apply bind_Return_inv in H as (r1 & e1 & e2 & Hinner & H & ->);
    apply bind_Return_inv in H as (verdict & e3 & e4 & Hbool & H & ->);
    apply generateBool_Return_inv in Hbool as [_ ->];
    apply resolution_returns_last_generated in Hinner as [Hlast Hres];
    destruct verdict; cbn [negb] in H.
  - injection H as <- <-.
    rewrite !generated_app, !last_app_default, Hlast. cbn. auto.
  - apply bind_Return_inv in H as (ra & e5 & e6 & Hask & H & ->).
    apply bind_Return_inv in H as (r' & e7 & e8 & _ & H & ->).
    discriminate.
  - injection H as <- <-.
    rewrite !generated_app, !last_app_default, Hlast. cbn. auto.
  - apply bind_Return_inv in H as (ra & e5 & e6 & Hask & H & ->).
    apply bind_Return_inv in H as (r' & e7 & e8 & Hgen & H & ->).
    unfold userInteraction, call in Hask. injection Hask as <- <-.
    apply generate_Return_inv in Hgen as [_ ->].
    apply IH in H as [Hlast' Hres'].
    rewrite !generated_app, !last_app_default. cbn. auto.
Qed.

Lemma completion_returns_last_generated (fuel : nat)
  (cv : ConversationLoopHandler.t) (ctx : Context)
  (response : ModelResponse.t) (t : Transcript)
  (r : ModelResponse.t) (evs : list Event) :
  ConversationLoopHandler.handleResponse fuel cv ctx response t
    = (Return r, evs) ->
  last (generated evs) response = r /\ resolved r.
Proof.
  unfold ConversationLoopHandler.handleResponse, lookupTool.
  rewrite bind_call.
  destruct (LookupTool _ _ _) as [askQuestion|]; [|discriminate].
  destruct (ConversationLoopHandler.forHasMoreQuestions _ _ _ _ _ _ _)
    as [o e] eqn:Hloop.
  cbn [fst snd]. intros H. injection H as -> <-.
  apply forHasMoreQuestions_last_generated in Hloop. exact Hloop.
Qed.

Lemma generated_lookupCalls (names : list string) (tools : list Tool) :
  generated (lookupCalls names tools) = [].
Proof.
  unfold lookupCalls. induction (combine names tools) as [| x l IH];
    [reflexivity | exact IH].
Qed.

(** X10. With an InterruptionHandler or a ConversationLoopHandler as
    response handler, what RunAgent returns is the text of the Response
    that the last generation call of the run returned, and that Response
    is not suspended: it never hands back the text of a Response that
    still waits for answers. *)
Theorem RunAgent_returns_text_of_resolved_response
  (fuel : nat) (ctx : Context) (options : Options.t) (t : Transcript)
  (text : string) (evs : list Event) :
  (exists ih,
     Options.responseHandler options = Some (interruptionResponseHandler ih))
  \/ (exists cv,
        Options.responseHandler options
          = Some (conversationResponseHandler cv)) ->
  RunAgent fuel ctx options t = (Return text, evs) ->
  exists earlier r,
    generated evs = earlier ++ [r] /\
    resolved r /\
    text = ModelResponse.Text r.
Proof.
  intros Hhandler Heq.
  unfold RunAgent in Heq.
  apply bind_Return_inv in Heq as (tools & e1 & e2 & Htools & Heq & ->).
  apply bind_Return_inv in Heq as (r0 & e3 & e4 & Hgen & Heq & ->).
  apply generate_Return_inv in Hgen as [_ ->].
  assert (Hlast : exists r e5,
            e4 = e5 /\ text = ModelResponse.Text r /\
            last (generated e5) r0 = r /\ resolved r).
  { destruct Hhandler as [[ih Hh] | [cv Hh]]; rewrite Hh in Heq;
      apply bind_Return_inv in Heq as (r & e5 & e6 & Hr & Heq & ->);
      injection Heq as <- <-; exists r, e5; rewrite app_nil_r;
      (split; [reflexivity|]); (split; [reflexivity|]).
    - apply (@resolution_returns_last_generated fuel ih ctx r0 _ r e5 Hr).
    - apply (@completion_returns_last_generated fuel cv ctx r0 _ r e5 Hr). }
  destruct Hlast as (r & e5 & -> & -> & Hlast & Hres).
  exists (removelast (generated e1 ++ r0 :: generated e5)), r.
  split; [|auto].
  rewrite !generated_app. cbn [generated flat_map app].
  fold (generated e5).
  rewrite (@app_removelast_last _ (generated e1 ++ r0 :: generated e5) r0)
    at 1 by (destruct (generated e1); discriminate).
  f_equal. f_equal.
  rewrite last_app_default, last_cons_default. exact Hlast.
Qed.

Lemma RunAgent_returns_text_of_resolved_response_witness :
  exists earlier r,
    generated
      [GenerateCall [WithPrompt "" []; WithSystem ""; WithTools []]
         (inr (Mock.createTextResponse
                 "Based on both genders and ages..." "stop"));
       LookupToolCall "askQuestion" (Some (Mock.createMockTool "askQuestion"))]
    = earlier ++ [r] /\
    resolved r /\
    "Based on both genders and ages..." = ModelResponse.Text r.
Proof.
  apply (@RunAgent_returns_text_of_resolved_response 3 Mock.Background
           {| Options.generator :=
                Mock.NewMockGenerator
                  [Mock.createTextResponse
                     "Based on both genders and ages..." "stop"]
                  Mock.tools [];
              Options.systemPrompt := "";
              Options.userPrompt := "";
              Options.toolNames := [];
              Options.responseHandler :=
                Some (interruptionResponseHandler
                        {| InterruptionHandler.generator :=
                             Mock.NewMockGenerator
                               [Mock.createTextResponse
                                  "Based on both genders and ages..." "stop"]
                               Mock.tools [];
                           InterruptionHandler.UserInteraction :=
                             Mock.constantly "Boy" |}) |} []).
  - left. eexists. reflexivity.
  - vm_compute. reflexivity.
Defined.

(** X11. A capability the InterruptionHandler misses is noticed only after
    the first generation call when toolNames does not catch it: with the
    tools of toolNames registered, the first call succeeding and
    "askQuestion" not resolved by the handler's Generator, RunAgent makes
    that generation call and then returns "askQuestion tool not found". *)
Theorem RunAgent_handler_capability_checked_after_first_call
  (fuel : nat) (ctx : Context) (options : Options.t) (t : Transcript)
  (tools : list Tool) (ih : InterruptionHandler.t) (r0 : ModelResponse.t) :
  Registered (Options.generator options) t (Options.toolNames options) tools ->
  Generate (Options.generator options)
    (t ++ lookupCalls (Options.toolNames options) tools)
    (firstCall options tools) = inr r0 ->
  Options.responseHandler options = Some (interruptionResponseHandler ih) ->
  LookupTool (InterruptionHandler.generator ih)
    ((t ++ lookupCalls (Options.toolNames options) tools)
     ++ [GenerateCall (firstCall options tools) (inr r0)])
    "askQuestion" = None ->
  RunAgent fuel ctx options t
  = (Throw notFound,
     lookupCalls (Options.toolNames options) tools
     ++ [GenerateCall (firstCall options tools) (inr r0);
         LookupToolCall "askQuestion" None]).
Proof.
  intros Hreg Hgen Hh Hnone. unfold RunAgent.
  erewrite bind_Return by (apply lookupTools_all; exact Hreg).
  rewrite bind_generate. fold (firstCall options tools).
  rewrite Hgen, Hh. cbn [fst snd].
  erewrite bind_Throw; [reflexivity|].
  unfold interruptionResponseHandler, InterruptionHandler.handleResponse,
    lookupTool.
  rewrite bind_call, Hnone. reflexivity.
Qed.

Lemma RunAgent_handler_capability_checked_after_first_call_witness :
  RunAgent 3 Mock.Background
    {| Options.generator := Mock.NewMockGenerator [simpleResponse] [] [];
       Options.systemPrompt := "Be helpful";
       Options.userPrompt := "Help with gifts";
       Options.toolNames := [];
       Options.responseHandler :=
         Some (interruptionResponseHandler
                 {| InterruptionHandler.generator :=
                      Mock.NewMockGenerator [simpleResponse] [] [];
                    InterruptionHandler.UserInteraction :=
                      Mock.constantly "Boy" |}) |} []
  = (Throw notFound,
     [GenerateCall
        [WithPrompt "Help with gifts" []; WithSystem "Be helpful";
         WithTools []]
        (inr simpleResponse);
      LookupToolCall "askQuestion" None]).
Proof.
  apply (@RunAgent_handler_capability_checked_after_first_call 3
           Mock.Background
           {| Options.generator := Mock.NewMockGenerator [simpleResponse] [] [];
              Options.systemPrompt := "Be helpful";
              Options.userPrompt := "Help with gifts";
              Options.toolNames := [];
              Options.responseHandler :=
                Some (interruptionResponseHandler
                        {| InterruptionHandler.generator :=
                             Mock.NewMockGenerator [simpleResponse] [] [];
                           InterruptionHandler.UserInteraction :=
                             Mock.constantly "Boy" |}) |} [] []
           {| InterruptionHandler.generator :=
                Mock.NewMockGenerator [simpleResponse] [] [];
              InterruptionHandler.UserInteraction := Mock.constantly "Boy" |}
           simpleResponse).
  - constructor.
  - reflexivity.
  - reflexivity.
  - reflexivity.
Defined.

(** ** getQuestionInput: what a well-formed payload decodes to *)

Lemma In_insertByKey {A : Type} (x kv : string * A) (l : list (string * A)) :
  In x (json.insertByKey kv l) <-> x = kv \/ In x l.
Proof.
  induction l as [| kv' l IH]; cbn.
  - intuition congruence.
  - destruct (String.leb (fst kv) (fst kv')); cbn.
    + intuition congruence.
    + rewrite IH. intuition congruence.
Qed.

Lemma In_sortByKey {A : Type} (x : string * A) (l : list (string * A)) :
  In x (json.sortByKey l) <-> In x l.
Proof.
  induction l as [| kv l IH]; cbn; [tauto|].
  rewrite In_insertByKey, IH. intuition congruence.
Qed.

Lemma sequence_succeeds {A : Type} (l : list (error + A)) :
  Forall (fun x => exists a, x = inr a) l -> exists js, json.sequence l = inr js.
Proof.
  induction 1 as [| x l [a ->] _ [js IH]]; cbn.
  - eexists. reflexivity.
  - rewrite IH. eexists. reflexivity.
Qed.

Lemma Marshal_Map_succeeds (m : list (string * any)) :
  Forall (fun kx => exists j, json.Marshal (snd kx) = inr j) m ->
  exists js, json.Marshal (Map m) = inr (json.JObject js).
Proof.
  intros Hall. rewrite Marshal_Map.
  destruct (@sequence_succeeds _
              (map json.keyed (json.sortByKey (entries m)))) as [js Hjs].
  - rewrite Forall_map, Forall_sortByKey. unfold entries. rewrite Forall_map.
    revert Hall. apply Forall_impl. intros [k x] [j Hj].
    unfold json.keyed. cbn [fst snd] in *. rewrite Hj. eauto.
  - rewrite Hjs. eauto.
Qed.

Lemma Marshal_Map_In (m : list (string * any))
  (js : list (string * json.JSON)) (k : string) (x : any) (j : json.JSON) :
  json.Marshal (Map m) = inr (json.JObject js) ->
  In (k, x) m -> json.Marshal x = inr j -> In (json.literal k, j) js.
Proof.
  rewrite Marshal_Map.
  destruct (json.sequence _) as [e | js'] eqn:Hseq; [discriminate|].
  intros H Hin Hj. injection H as ->.
  apply sequence_inr in Hseq.
  assert (Hk : In (inr (json.literal k, j))
                 (map json.keyed (json.sortByKey (entries m)))).
  { apply in_map_iff. exists (k, inr j). split; [reflexivity|].
    apply In_sortByKey. unfold entries. apply in_map_iff.
    exists (k, x). cbn [fst snd]. rewrite Hj. auto. }
  rewrite Hseq in Hk. apply in_map_iff in Hk as (kj & Hkj & Hin').
  injection Hkj as ->. exact Hin'.
Qed.

Lemma intoElements_strings (field : string) (c : list string) :
  forall backing,
    decode.intoElements field (map json.JString c) backing = inr c.
Proof.
  induction c as [| s c IH]; intros backing; [reflexivity|].
  cbn [map decode.intoElements decode.intoString]. rewrite IH. reflexivity.
Qed.

Lemma intoStrings_strings (field : string) (c backing : list string) :
  exists spare,
    decode.intoStrings field (json.JArray (map json.JString c)) backing
    = inr (c, spare).
Proof.
  destruct c as [| s c]; [eexists; reflexivity|].
  unfold decode.intoStrings. cbn [map].
  change (json.JString s :: map json.JString c)
    with (map json.JString (s :: c)).
  rewrite intoElements_strings. eexists. reflexivity.
Qed.

Lemma Marshal_choices (v : any) (c : list string) :
  choicesValue v c ->
  json.Marshal v = inr (json.JArray (map json.JString (map json.literal c))).
Proof.
  intros [-> | ->]; cbn [json.Marshal].
  - rewrite map_map. reflexivity.
  - assert (H : json.sequence (map json.Marshal (map Str c))
                = inr (map json.JString (map json.literal c))).
    { induction c as [| s c IH]; [reflexivity|].
      cbn [map json.sequence json.Marshal]. rewrite IH. reflexivity. }
    rewrite H. reflexivity.
Qed.

Lemma intoFields_known (q : string) (c : list string)
  (js : list (string * json.JSON)) :
  Forall (fun kj =>
            kj = ("question", json.JString q) \/
            kj = ("choices", json.JArray (map json.JString c)) \/
            (decode.fieldMatch (fst kj) "question" = false /\
             decode.fieldMatch (fst kj) "choices" = false)) js ->
  forall Q C spare,
  exists Q' C',
    decode.intoFields js {| Question := Q; Choices := C |} spare
      = inr {| Question := Q'; Choices := C' |} /\
    (In ("question", json.JString q) js -> Q' = q) /\ (Q' = q \/ Q' = Q) /\
    (In ("choices", json.JArray (map json.JString c)) js -> C' = c) /\
    (C' = c \/ C' = C).
Proof.
  induction 1 as [| kj js Hkj _ IH]; intros Q C spare.
  - exists Q, C. cbn. repeat split; auto; intros [].
  - destruct Hkj as [-> | [-> | [H1 H2]]].
    + destruct (IH q C spare) as (Q' & C' & Hrun & _ & HQ & HC1 & HC2).
      exists Q', C'. cbn [decode.intoFields].
      replace (decode.fieldMatch "question" "question") with true
        by reflexivity.
      cbn [decode.intoString Question Choices]. rewrite Hrun.
      assert (Q' = q) as -> by (destruct HQ; assumption).
      repeat split; auto.
      intros [Heq | Hin]; [discriminate | auto].
    + cbn [decode.intoFields].
      replace (decode.fieldMatch "choices" "question") with false
        by reflexivity.
      replace (decode.fieldMatch "choices" "choices") with true
        by reflexivity.
      cbn [Question Choices].
      destruct (intoStrings_strings "choices" c (C ++ spare))
        as [spare' ->].
      destruct (IH Q c spare') as (Q' & C' & Hrun & HQ1 & HQ2 & _ & HC).
      exists Q', C'. rewrite Hrun.
      assert (C' = c) as -> by (destruct HC; assumption).
      repeat split; auto.
      intros [Heq | Hin]; [discriminate | auto].
    + destruct (IH Q C spare) as (Q' & C' & Hrun & HQ1 & HQ2 & HC1 & HC2).
      exists Q', C'. destruct kj as [k j]. cbn [decode.intoFields].
      cbn [fst] in H1, H2. rewrite H1, H2, Hrun.
      repeat split; auto.
      * intros [Heq | Hin]; [|auto]. injection Heq as -> _.
        discriminate.
      * intros [Heq | Hin]; [|auto]. injection Heq as -> _.
        discriminate.
Qed.

(** Letters and folding *)

Lemma upper_toLower (c : ascii) : decode.upper (toLower c) = decode.upper c.
Proof. destruct c as [[] [] [] [] [] [] [] []]; reflexivity. Qed.

Lemma ascii_toLower (c : ascii) :
  (utf8.byte (toLower c) <? utf8.RuneSelf)%N
  = (utf8.byte c <? utf8.RuneSelf)%N.
Proof. destruct c as [[] [] [] [] [] [] [] []]; reflexivity. Qed.

Lemma appendFoldedName_ascii (c : ascii) (rest : string) :
  (utf8.byte c <? utf8.RuneSelf)%N = true ->
  decode.appendFoldedName 0 (String c rest)
  = String (decode.upper c) (decode.appendFoldedName 0 rest).
Proof. intros H. cbn [decode.appendFoldedName]. rewrite H. reflexivity. Qed.

(** A key that is a name up to simple case folding has the folded name of
    that name. *)
Lemma foldsTo_foldName (key name : string) :
  foldsTo key name -> decode.foldName key = decode.foldName name.
Proof.
  unfold decode.foldName.
  induction 1 as [| c d key name Hc Hcd _ IH | d key name Hd _ IH
                  | d key name Hd _ IH].
  - reflexivity.
  - assert (Hd : (utf8.byte d <? utf8.RuneSelf)%N = true).
    { rewrite <- ascii_toLower, <- Hcd, ascii_toLower. exact Hc. }
    rewrite (@appendFoldedName_ascii c key Hc),
            (@appendFoldedName_ascii d name Hd), IH.
    rewrite <- (upper_toLower c), Hcd, upper_toLower. reflexivity.
  - assert (Hascii : (utf8.byte d <? utf8.RuneSelf)%N = true).
    { rewrite <- ascii_toLower, Hd. reflexivity. }
    rewrite (@appendFoldedName_ascii d name Hascii), <- IH.
    rewrite <- (upper_toLower d), Hd. reflexivity.
  - assert (Hascii : (utf8.byte d <? utf8.RuneSelf)%N = true).
    { rewrite <- ascii_toLower, Hd. reflexivity. }
    rewrite (@appendFoldedName_ascii d name Hascii), <- IH.
    rewrite <- (upper_toLower d), Hd. reflexivity.
Qed.

(** X12. A payload that holds the question as a string under "question"
    and the choices as a slice of strings under "choices" decodes to that
    question and those choices, in their order, each as encoding/json
    writes and reads it back (a byte that starts no valid UTF-8 encoding
    replaced by U+FFFD), wherever the two entries stand in the map and
    whatever other entries it has, as long as their values encode and
    their keys match neither field.  Question and choices that are valid
    UTF-8 come back unchanged. *)
Theorem getQuestionInput_round_trip
  (q : string) (c : list string) (v : any)
  (m extra : list (string * any)) :
  choicesValue v c ->
  In ("question", Str q) m ->
  In ("choices", v) m ->
  (forall kv, In kv m ->
     kv = ("question", Str q) \/ kv = ("choices", v) \/ In kv extra) ->
  forallb unmatched extra = true ->
  Forall (fun kv => exists j, json.Marshal (snd kv) = inr j) extra ->
  getQuestionInput (Map m)
  = inr {| Question := json.literal q; Choices := map json.literal c |}
  /\ (utf8.ValidString q = true ->
      forallb utf8.ValidString c = true ->
      getQuestionInput (Map m) = inr {| Question := q; Choices := c |}).
Proof.
  intros Hv Hq Hc Hall Hun Hextra.
  assert (Hrun : getQuestionInput (Map m)
                 = inr {| Question := json.literal q;
                          Choices := map json.literal c |}).
  { pose proof (Marshal_choices Hv) as Hvj.
    rewrite forallb_forall in Hun. rewrite Forall_forall in Hextra.
    destruct (@Marshal_Map_succeeds m) as [js Hjs].
    { apply Forall_forall. intros kv Hin.
      destruct (Hall kv Hin) as [-> | [-> | Hin']]; cbn [snd].
      - eexists. reflexivity.
      - eexists. exact Hvj.
      - apply Hextra. exact Hin'. }
    assert (Hshape :
      Forall (fun kj =>
                kj = ("question", json.JString (json.literal q)) \/
                kj = ("choices",
                      json.JArray (map json.JString (map json.literal c))) \/
                (decode.fieldMatch (fst kj) "question" = false /\
                 decode.fieldMatch (fst kj) "choices" = false)) js).
    { pose proof (@Marshal_Map_Forall
                    (fun r => match r with
                              | inr kj =>
                                  kj = ("question",
                                        json.JString (json.literal q)) \/
                                  kj = ("choices",
                                        json.JArray
                                          (map json.JString
                                             (map json.literal c))) \/
                                  (decode.fieldMatch (fst kj) "question"
                                     = false /\
                                   decode.fieldMatch (fst kj) "choices"
                                     = false)
                              | inl _ => True
                              end) m js Hjs) as Hiff.
      rewrite Forall_map in Hiff. apply Hiff. apply Forall_forall.
      intros kv Hin. unfold json.keyed. cbn [fst snd].
      destruct (Hall kv Hin) as [-> | [-> | Hin']]; cbn [fst snd].
      - left. reflexivity.
      - rewrite Hvj. right. left. reflexivity.
      - destruct (json.Marshal (snd kv)); [exact I|].
        right. right. specialize (Hun _ Hin'). unfold unmatched in Hun.
        apply andb_true_iff in Hun as [H1 H2].
        apply negb_true_iff in H1, H2. cbn [fst].
        rewrite !fieldMatch_literal. auto. }
    destruct (@intoFields_known (json.literal q) (map json.literal c) js
                Hshape "" [] [])
      as (Q' & C' & Hrun & HQ & _ & HC & _).
    unfold getQuestionInput. rewrite Hjs. cbn [decode.Unmarshal].
    rewrite Hrun.
    rewrite (HQ (@Marshal_Map_In m js "question" (Str q)
                   (json.JString (json.literal q)) Hjs Hq eq_refl)).
    rewrite (HC (@Marshal_Map_In m js "choices" v _ Hjs Hc Hvj)).
    reflexivity. }
  split; [exact Hrun|].
  intros Hvq Hvc. rewrite Hrun, (literal_valid _ Hvq). do 2 f_equal.
  rewrite forallb_forall in Hvc.
  rewrite <- (map_id c) at 2. apply map_ext_in.
  intros s Hs. apply literal_valid, Hvc, Hs.
Qed.

Lemma getQuestionInput_round_trip_witness :
  getQuestionInput
    (Map [("trace", Float64 (Finite 7 0));
          ("question", Str "What gender?");
          ("choices", Slice [Str "Boy"; Str "Girl"; Str "Both"])])
  = inr {| Question := "What gender?"; Choices := ["Boy"; "Girl"; "Both"] |}.
Proof.
  apply (@getQuestionInput_round_trip "What gender?" ["Boy"; "Girl"; "Both"]
           (Slice [Str "Boy"; Str "Girl"; Str "Both"]) _
           [("trace", Float64 (Finite 7 0))]).
  - right. reflexivity.
  - cbn. auto.
  - cbn. auto.
  - intros kv [<- | [<- | [<- | []]]]; cbn; auto.
  - vm_compute. reflexivity.
  - repeat constructor. eexists. reflexivity.
  - vm_compute. reflexivity.
  - vm_compute. reflexivity.
Defined.

(** X13. The key of the question is matched under simple case folding: a
    map whose only entry has a key that is "question" letter by letter but
    for case, where U+017F (the long s) may stand for the s, and a string
    as value decodes to that question as it is written and read back,
    with no choices; a question that is valid UTF-8 comes back
    unchanged. *)
Theorem getQuestionInput_key_case_insensitive (key q : string) :
  foldsTo key "question" ->
  getQuestionInput (Map [(key, Str q)])
  = inr {| Question := json.literal q; Choices := [] |}
  /\ (utf8.ValidString q = true ->
      getQuestionInput (Map [(key, Str q)])
      = inr {| Question := q; Choices := [] |}).
Proof.
  intros Hkey.
  assert (Hrun : getQuestionInput (Map [(key, Str q)])
                 = inr {| Question := json.literal q; Choices := [] |}).
  { unfold getQuestionInput. cbn [json.Marshal].
    cbn [json.sortByKey fold_right json.insertByKey map json.keyed snd fst
         json.sequence decode.Unmarshal decode.intoFields].
    rewrite fieldMatch_literal, fieldMatch_folded,
      (foldsTo_foldName Hkey), String.eqb_refl.
    reflexivity. }
  split; [exact Hrun|].
  intros Hvq. rewrite Hrun, (literal_valid _ Hvq). reflexivity.
Qed.

Lemma getQuestionInput_key_case_insensitive_witness :
  getQuestionInput
    (Map [(String "Q" (String "u" (String "E"
             (String "197" (String "191" "TIon")))),
           Str "Gender?")])
  = inr {| Question := "Gender?"; Choices := [] |}.
Proof.
  apply (@getQuestionInput_key_case_insensitive
           (String "Q" (String "u" (String "E"
              (String "197" (String "191" "TIon")))))
           "Gender?").
  - apply foldsTo_ascii; [reflexivity | reflexivity |].
    apply foldsTo_ascii; [reflexivity | reflexivity |].
    apply foldsTo_ascii; [reflexivity | reflexivity |].
    apply foldsTo_long_s; [reflexivity|].
    apply foldsTo_ascii; [reflexivity | reflexivity |].
    apply foldsTo_ascii; [reflexivity | reflexivity |].
    apply foldsTo_ascii; [reflexivity | reflexivity |].
    apply foldsTo_ascii; [reflexivity | reflexivity |].
    apply foldsTo_nil.
  - vm_compute. reflexivity.
Defined.

(** ** The terminal *)

Lemma append_assoc (a b c : string) :
  ((a ++ b) ++ c)%string = (a ++ b ++ c)%string.
Proof. induction a as [| x a IH]; cbn; [reflexivity | rewrite IH; reflexivity]. Qed.

Lemma append_nil_r (a : string) : (a ++ "")%string = a.
Proof. induction a as [| x a IH]; cbn; [reflexivity | rewrite IH; reflexivity]. Qed.

Lemma concat_empty_cons (x y : string) (l : list string) :
  String.concat "" (x :: y :: l) = (x ++ String.concat "" (y :: l))%string.
Proof. reflexivity. Qed.

Lemma concat_empty_snoc (l : list string) (x : string) :
  String.concat "" (l ++ [x]) = (String.concat "" l ++ x)%string.
Proof.
  induction l as [| a [| b l] IH].
  - reflexivity.
  - reflexivity.
  - change ((a :: b :: l) ++ [x]) with (a :: b :: (l ++ [x])).
    rewrite !concat_empty_cons.
    change (b :: l ++ [x]) with ((b :: l) ++ [x]).
    rewrite IH, append_assoc. reflexivity.
Qed.

Lemma printChoices_joined (n : nat) (choices : list string) :
  forall i,
    choices <> [] ->
    i + length choices = n ->
    String.concat "" (Terminal.printChoices n i choices)
    = (String.concat (", " ++ newline) choices ++ newline)%string.
Proof.
  induction choices as [| choice rest IH]; intros i Hne Hlen;
    [congruence|].
  cbn [Terminal.printChoices]. destruct rest as [| next rest].
  - cbn in Hlen. replace (Nat.eqb i (n - 1)) with true
      by (symmetry; apply Nat.eqb_eq; lia).
    reflexivity.
  - replace (Nat.eqb i (n - 1)) with false
      by (symmetry; apply Nat.eqb_neq; cbn in Hlen; lia).
    change (String.concat "" (?x :: Terminal.printChoices n (S i) (next :: rest)))
      with (x ++ "" ++ String.concat ""
                         (Terminal.printChoices n (S i) (next :: rest)))%string.
    rewrite IH by (try discriminate; cbn in *; lia).
    change (String.concat (", " ++ newline) (choice :: next :: rest))
      with (choice ++ (", " ++ newline)
            ++ String.concat (", " ++ newline) (next :: rest))%string.
    unfold newline. rewrite !append_assoc. reflexivity.
Qed.

(** X14. What Interactor writes to standard output, whichever way its wait
    ends: the question on a line of its own and, when there are choices,
    the choices one per line, each but the last followed by ", ", and
    then an empty line. *)
Theorem Interactor_prints_question_and_choices
  (input : QuestionInput) (race : Terminal.Race) :
  String.concat "" (fst (Terminal.Interactor input race))
  = (Question input ++ newline ++
     match Choices input with
     | [] => ""
     | _ => String.concat (", " ++ newline) (Choices input)
            ++ newline ++ newline
     end)%string.
Proof.
  unfold Terminal.Interactor. cbn [fst].
  destruct (Choices input) as [| choice rest] eqn:Hc.
  - cbn. unfold newline. rewrite ?append_nil_r. reflexivity.
  - change (Nat.ltb 0 (length (choice :: rest))) with true. cbv iota.
    assert (Hall :
      String.concat ""
        (Terminal.printChoices (length (choice :: rest)) 0 (choice :: rest)
         ++ [String (ascii_of_nat 10) ""])
      = (String.concat (", " ++ newline) (choice :: rest)
         ++ newline ++ newline)%string).
    { pose proof (@printChoices_joined (length (choice :: rest))
                    (choice :: rest) 0) as H.
      specialize (H ltac:(discriminate) eq_refl).
      revert H.
      generalize (Terminal.printChoices (length (choice :: rest)) 0
                    (choice :: rest)).
      intros l H. rewrite <- append_assoc, <- H.
      apply concat_empty_snoc. }
    remember (Terminal.printChoices (length (choice :: rest)) 0
                (choice :: rest) ++ [String (ascii_of_nat 10) ""]) as l.
    destruct l as [| x l].
    + exfalso. destruct (Terminal.printChoices _ _ _); discriminate.
    + change (String.concat "" ((Question input ++ String (ascii_of_nat 10) "")%string
                                :: x :: l))
        with ((Question input ++ String (ascii_of_nat 10) "") ++ ""
              ++ String.concat "" (x :: l))%string.
      rewrite Hall. unfold newline. rewrite !append_assoc. reflexivity.
Qed.

Lemma readLoop_attended (w : Terminal.World) (remainder : string)
  (err : error) :
  attended w ->
  forall (lines : list string) (t : list Terminal.Event),
    offers (Terminal.readLoop w lines remainder err t)
      = answersOf lines ++ [failed err] /\
    deliveries (Terminal.readLoop w lines remainder err t)
      = answersOf lines ++ [failed err] /\
    prints (Terminal.readLoop w lines remainder err t)
      = repeat pleaseAnswer (length (filter isBlank lines)).
Proof.
  intros [Hctx Hrecv].
  induction lines as [| line more IH]; intros t;
    cbn [Terminal.readLoop]; rewrite Hctx.
  - rewrite Hrecv. repeat split.
  - change (String.eqb (Terminal.TrimSpace line) "") with (isBlank line).
    unfold answersOf. cbn [filter].
    destruct (isBlank line) eqn:Hblank; cbn [negb].
    + match goal with
      | |- context [Terminal.readLoop w more remainder err ?t'] =>
          destruct (IH t') as (Ho & Hd & Hp)
      end.
      split; [exact Ho|]. split; [exact Hd|].
      cbn [length repeat]. unfold pleaseAnswer at 1.
      change (prints (?a :: ?b :: Terminal.Println ?m :: ?l))
        with (m :: prints l).
      rewrite Hp. reflexivity.
    + rewrite Hrecv.
      match goal with
      | |- context [Terminal.readLoop w more remainder err ?t'] =>
          destruct (IH t') as (Ho & Hd & Hp)
      end.
      cbn [map app].
      change (offers (?a :: ?b :: Terminal.Offer ?r ?s :: ?l))
        with (r :: offers l).
      change (deliveries (?a :: ?b :: Terminal.Offer ?r true :: ?l))
        with (r :: deliveries l).
      change (prints (?a :: ?b :: Terminal.Offer ?r ?s :: ?l))
        with (prints l).
      rewrite Ho, Hd, Hp. repeat split.
Qed.

Lemma noNewline_cons (c : ascii) (s : string) :
  noNewline (String c s) ->
  Ascii.eqb c (ascii_of_nat 10) = false /\ noNewline s.
Proof.
  unfold noNewline. cbn. intros H. apply andb_true_iff in H as [H1 H2].
  apply negb_true_iff in H1. auto.
Qed.

Lemma splitLines_partial (p : string) :
  noNewline p ->
  forall line, Terminal.splitLines p line = ([], (line ++ p)%string).
Proof.
  induction p as [| c p IH]; intros Hp line; cbn [Terminal.splitLines].
  - rewrite append_nil_r. reflexivity.
  - apply noNewline_cons in Hp as [Hc Hp]. rewrite Hc.
    rewrite (IH Hp). rewrite append_assoc. reflexivity.
Qed.

Lemma splitLines_line (l : string) :
  noNewline l ->
  forall line rest,
    Terminal.splitLines (l ++ newline ++ rest) line
    = ((line ++ l ++ newline)%string
         :: fst (Terminal.splitLines rest ""),
       snd (Terminal.splitLines rest "")).
Proof.
  induction l as [| c l IH]; intros Hl line rest.
  - cbn [append newline Terminal.splitLines]. unfold newline.
    cbn [append Terminal.splitLines].
    change (Ascii.eqb (ascii_of_nat 10) (ascii_of_nat 10)) with true.
    cbv iota. destruct (Terminal.splitLines rest ""). reflexivity.
  - apply noNewline_cons in Hl as [Hc Hl].
    cbn [append Terminal.splitLines]. rewrite Hc.
    rewrite (IH Hl). rewrite !append_assoc. reflexivity.
Qed.

Lemma concat_empty_cons_any (x : string) (l : list string) :
  String.concat "" (x :: l) = (x ++ String.concat "" l)%string.
Proof. destruct l; cbn; [rewrite append_nil_r|]; reflexivity. Qed.

Lemma splitLines_terminated (ls : list string) (partial : string) :
  Forall noNewline ls -> noNewline partial ->
  Terminal.splitLines (String.concat "" (terminated ls) ++ partial) ""
  = (terminated ls, partial).
Proof.
  intros Hls Hp. induction Hls as [| l ls Hl _ IH].
  - cbn. apply (splitLines_partial Hp).
  - unfold terminated in *. cbn [map]. rewrite concat_empty_cons_any.
    rewrite !append_assoc. rewrite (splitLines_line Hl).
    rewrite IH. reflexivity.
Qed.

(** X15. The reading goroutine on a source that holds lines, each ended by
    a newline, and then text without a newline, where the read fails: when
    the context is never done and every value offered is received, the
    values it sends are the lines trimmed of white space, the blank ones
    left out, in their order, and then the read error; for each blank line
    it prints "Please provide non empty answer" once.  The text after the
    last newline is never sent. *)
Theorem readLoop_sends_trimmed_lines_then_error
  (w : Terminal.World) (ls : list string) (partial : string) (err : error) :
  attended w ->
  Forall noNewline ls -> noNewline partial ->
  let evs :=
    Terminal.readSource w (String.concat "" (terminated ls) ++ partial) err in
  offers evs = answersOf (terminated ls) ++ [failed err] /\
  deliveries evs = answersOf (terminated ls) ++ [failed err] /\
  prints evs
    = repeat pleaseAnswer (length (filter isBlank (terminated ls))).
Proof.
  intros Hw Hls Hp. unfold Terminal.readSource.
  rewrite (splitLines_terminated Hls Hp).
  apply (readLoop_attended partial err Hw).
Qed.

Lemma readLoop_sends_trimmed_lines_then_error_witness :
  offers (Terminal.readSource alwaysAttended
            (String.concat "" (terminated ["  Boy "; "   "; "Girl"]) ++ "Bo")
            (errorString "EOF"))
  = answersOf (terminated ["  Boy "; "   "; "Girl"])
    ++ [failed (errorString "EOF")].
Proof.
  refine (proj1 (@readLoop_sends_trimmed_lines_then_error alwaysAttended
                   ["  Boy "; "   "; "Girl"] "Bo" (errorString "EOF")
                   _ _ _)).
  - split; reflexivity.
  - repeat constructor.
  - reflexivity.
Defined.

Example readSource_run :
  Terminal.readSource alwaysAttended
    (String.concat "" (terminated ["  Boy "; "   "; "Girl"]) ++ "Bo")
    (errorString "EOF")
  = [Terminal.Poll false;
     Terminal.ReadString ("  Boy " ++ newline) None;
     Terminal.Offer {| Terminal.Value := "Boy"; Terminal.Err := None |} true;
     Terminal.Poll false;
     Terminal.ReadString ("   " ++ newline) None;
     Terminal.Println "Please provide non empty answer";
     Terminal.Poll false;
     Terminal.ReadString ("Girl" ++ newline) None;
     Terminal.Offer {| Terminal.Value := "Girl"; Terminal.Err := None |} true;
     Terminal.Poll false;
     Terminal.ReadString "Bo" (Some (errorString "EOF"));
     Terminal.Offer (failed (errorString "EOF")) true].
Proof. vm_compute. reflexivity. Qed.

(** X16. Whatever the surroundings do, the values the reading goroutine
    offers are the first of the trimmed non-blank lines, in order, with
    the read error after the last line: it skips none and repeats none.
    An answer it offers is never empty.  All it offers is received, except
    possibly the last, and it reads the source at most once per line and
    once more. *)
Theorem readLoop_offers_answers_in_order
  (w : Terminal.World) (lines : list string) (remainder : string)
  (err : error) (t : list Terminal.Event) :
  (exists rest,
     offers (Terminal.readLoop w lines remainder err t) ++ rest
     = answersOf lines ++ [failed err])
  /\ Forall (fun r => Terminal.Err r = None -> Terminal.Value r <> "")
       (offers (Terminal.readLoop w lines remainder err t))
  /\ (deliveries (Terminal.readLoop w lines remainder err t)
        = offers (Terminal.readLoop w lines remainder err t)
      \/ deliveries (Terminal.readLoop w lines remainder err t)
         = removelast (offers (Terminal.readLoop w lines remainder err t)))
  /\ reads (Terminal.readLoop w lines remainder err t) <= S (length lines).
Proof.
  revert t. induction lines as [| line more IH]; intros t;
    cbn [Terminal.readLoop];
    destruct (Terminal.ctxDone w t);
    try (split; [eexists; reflexivity|]; split; [constructor|];
         split; [left; reflexivity | cbn; lia]).
  - destruct (Terminal.received w _ _);
      (split; [exists []; reflexivity|]); (split; [repeat constructor;
         discriminate|]); (split; [|cbn; lia]).
    + left. reflexivity.
    + right. reflexivity.
  - change (String.eqb (Terminal.TrimSpace line) "") with (isBlank line).
    unfold answersOf. cbn [filter].
    destruct (isBlank line) eqn:Hblank; cbn [negb].
    + match goal with
      | |- context [Terminal.readLoop w more remainder err ?t'] =>
          destruct (IH t') as (Hprefix & Hne & Hdel & Hreads)
      end.
      split; [exact Hprefix|]. split; [exact Hne|]. split; [exact Hdel|].
      change (reads (?a :: Terminal.ReadString ?d ?e :: ?c :: ?l))
        with (S (reads l)).
      cbn [length]. lia.
    + cbn [map].
      assert (Hvalue : Terminal.TrimSpace line <> "").
      { unfold isBlank in Hblank. apply String.eqb_neq. exact Hblank. }
      destruct (Terminal.received w _ _).
      * match goal with
        | |- context [Terminal.readLoop w more remainder err ?t'] =>
            destruct (IH t') as ([rest Hprefix] & Hne & Hdel & Hreads);
            set (rec := Terminal.readLoop w more remainder err t') in *
        end.
        change (offers (?a :: ?b :: Terminal.Offer ?r ?s :: rec))
          with (r :: offers rec).
        change (deliveries (?a :: ?b :: Terminal.Offer ?r true :: rec))
          with (r :: deliveries rec).
        change (reads (?a :: Terminal.ReadString ?d ?e :: ?c :: rec))
          with (S (reads rec)).
        split; [exists rest; cbn [app]; rewrite Hprefix; reflexivity|].
        split; [constructor; [intros _; exact Hvalue | exact Hne]|].
        split; [|cbn [length]; lia].
        destruct Hdel as [-> | Hdel]; [left; reflexivity|].
        destruct (offers rec) as [| r' l] eqn:Ho.
        -- left. rewrite Hdel. reflexivity.
        -- right. rewrite Hdel. reflexivity.
      * split; [eexists; reflexivity|].
        split; [repeat constructor; intros _; exact Hvalue|].
        split; [right; reflexivity | cbn; lia].
Qed.

Lemma readLoop_stop_is_last (w : Terminal.World) (remainder : string)
  (err : error) :
  forall (lines : list string) (t a b : list Terminal.Event)
         (e : Terminal.Event),
    Terminal.readLoop w lines remainder err t = a ++ e :: b ->
    stops e = true -> b = [].
Proof.
  induction lines as [| line more IH]; intros t a b e Heq He;
    cbn [Terminal.readLoop] in Heq;
    destruct (Terminal.ctxDone w t).
  - destruct a as [| x [| y a]]; cbn in Heq; try discriminate.
    injection Heq as _ <-. reflexivity.
  - destruct a as [| x [| y [| z [| u a]]]]; cbn in Heq;
      try discriminate.
    + injection Heq as <- _. discriminate.
    + injection Heq as _ <- _. discriminate.
    + injection Heq as _ _ _ <-. reflexivity.
  - destruct a as [| x [| y a]]; cbn in Heq; try discriminate.
    injection Heq as _ <-. reflexivity.
  - destruct (String.eqb (Terminal.TrimSpace line) "").
    + destruct a as [| x [| y [| z a]]]; cbn in Heq.
      * injection Heq as <- _. discriminate.
      * injection Heq as _ <- _. discriminate.
      * injection Heq as _ _ <- _. discriminate.
      * injection Heq as _ _ _ Heq. apply (IH _ _ _ _ Heq He).
    + destruct a as [| x [| y [| z a]]]; cbn in Heq.
      * injection Heq as <- _. discriminate.
      * injection Heq as _ <- _. discriminate.
      * injection Heq as _ _ <- Heq. cbn in He.
        destruct (Terminal.received w _ _); [discriminate|].
        symmetry. exact Heq.
      * injection Heq as _ _ _ Heq.
        destruct (Terminal.received w _ _).
        -- apply (IH _ _ _ _ Heq He).
        -- destruct a; discriminate.
Qed.

(** X17. The reading goroutine stops for good: once it has found the
    context done, or a value it offered was not received because the
    context was done first, it reads nothing more, prints nothing and
    offers nothing. *)
Theorem readLoop_stops_when_context_done
  (w : Terminal.World) (lines : list string) (remainder : string)
  (err : error) (t a b : list Terminal.Event) (e : Terminal.Event) :
  Terminal.readLoop w lines remainder err t = a ++ e :: b ->
  stops e = true ->
  b = [].
Proof. apply readLoop_stop_is_last. Qed.

Lemma readLoop_stops_when_context_done_witness : @nil Terminal.Event = [].
Proof.
  apply (@readLoop_stops_when_context_done
           {| Terminal.ctxDone := fun _ => false;
              Terminal.received := fun _ _ => false |}
           ["Boy" ++ newline; "Girl" ++ newline]%string "" (errorString "EOF")
           []
           [Terminal.Poll false; Terminal.ReadString ("Boy" ++ newline) None]
           []
           (Terminal.Offer {| Terminal.Value := "Boy"; Terminal.Err := None |}
              false)).
  - vm_compute. reflexivity.
  - reflexivity.
Defined.

(** ** The terminal as the Interaction capability *)

Lemma split_app_elt {A : Type} (e1 e2 a b : list A) (x : A) :
  e1 ++ e2 = a ++ x :: b ->
  (exists b1, e1 = a ++ x :: b1 /\ b = b1 ++ e2) \/
  (exists a2, a = e1 ++ a2 /\ e2 = a2 ++ x :: b).
Proof.
  revert a. induction e1 as [| y e1 IH]; intros a Heq.
  - right. exists a. auto.
  - destruct a as [| z a]; cbn in Heq.
    + injection Heq as -> <-. left. exists e1. auto.
    + injection Heq as -> Heq.
      destruct (IH _ Heq) as [(b1 & -> & ->) | (a2 & -> & ->)].
      * left. exists b1. auto.
      * right. exists a2. auto.
Qed.

Lemma Recorded_nil (interaction : UserInteractionFunc) (t : Transcript) :
  Recorded interaction t [].
Proof. intros a q answer err b Heq. destruct a; discriminate. Qed.

Lemma Recorded_app (interaction : UserInteractionFunc) (t : Transcript)
  (e1 e2 : list Event) :
  Recorded interaction t e1 -> Recorded interaction (t ++ e1) e2 ->
  Recorded interaction t (e1 ++ e2).
Proof.
  intros H1 H2 a q answer err b Heq.
  apply split_app_elt in Heq as [(b1 & Heq & _) | (a2 & -> & Heq)].
  - apply (H1 _ _ _ _ _ Heq).
  - rewrite app_assoc. apply (H2 _ _ _ _ _ Heq).
Qed.

Lemma Recorded_other (interaction : UserInteractionFunc) (t : Transcript)
  (e : Event) (evs : list Event) :
  isInteraction e = false ->
  Recorded interaction (t ++ [e]) evs -> Recorded interaction t (e :: evs).
Proof.
  intros He H. apply (@Recorded_app interaction t [e] evs); [|exact H].
  intros a q answer err b Heq.
  destruct a as [| x a]; cbn in Heq.
  - injection Heq as -> _. discriminate.
  - injection Heq as _ Heq. destruct a; discriminate.
Qed.

Lemma Recorded_bind {A B : Type} (interaction : UserInteractionFunc)
  (m : M A) (k : A -> M B) (t : Transcript) :
  Recorded interaction t (snd (m t)) ->
  (forall a e1, m t = (Return a, e1) ->
     Recorded interaction (t ++ e1) (snd (k a (t ++ e1)))) ->
  Recorded interaction t (snd (bind m k t)).
Proof.
  intros Hm Hk. unfold bind.
  destruct (m t) as [[a | err | | ] e1]; cbn [snd] in *; try exact Hm.
  specialize (Hk a e1 eq_refl). destruct (k a (t ++ e1)) as [o e2].
  cbn [snd] in *. apply Recorded_app; assumption.
Qed.

Lemma Recorded_forInterrupts (ih : InterruptionHandler.t) (ctx : Context)
  (askQuestion : Tool) (parts : list Part.t) :
  forall (acc : list Part.t) (t : Transcript),
    Recorded (InterruptionHandler.UserInteraction ih) t
      (snd (InterruptionHandler.forInterrupts ih ctx askQuestion parts acc t)).
Proof.
  induction parts as [| part rest IH]; intros acc t;
    cbn [InterruptionHandler.forInterrupts].
  - apply Recorded_nil.
  - destruct (ctx t) as [err|] eqn:Hctx.
    + rewrite checkDone_done with (err := err) by exact Hctx.
      apply Recorded_other; [reflexivity | apply Recorded_nil].
    + rewrite checkDone_live by exact Hctx. cbn [snd].
      apply Recorded_other; [reflexivity|].
      destruct (Part.ToolRequest part) as [toolRequest|];
        [|apply Recorded_nil].
      destruct (getQuestionInput (ToolRequest.Input toolRequest))
        as [err | q]; [apply Recorded_nil|].
      unfold userInteraction. rewrite bind_call. cbn [fst snd].
      apply (@Recorded_app _ _ [UserInteractionCall q _ _]).
      * intros a q' answer err b Heq.
        destruct a as [| x a]; cbn in Heq.
        -- injection Heq as <- <- <- _. rewrite app_nil_r.
           apply surjective_pairing.
        -- injection Heq as _ Heq. destruct a; discriminate.
      * destruct (snd (InterruptionHandler.UserInteraction ih _ q));
          [apply Recorded_nil | apply IH].
Qed.

Lemma Recorded_forInterrupted (fuel : nat) (ih : InterruptionHandler.t)
  (ctx : Context) (askQuestion : Tool) :
  forall (response : ModelResponse.t) (t : Transcript),
    Recorded (InterruptionHandler.UserInteraction ih) t
      (snd (InterruptionHandler.forInterrupted fuel ih ctx askQuestion
              response t)).
Proof.
  induction fuel as [| fuel IH]; intros response t;
    cbn [InterruptionHandler.forInterrupted];
    destruct (String.eqb (ModelResponse.FinishReason response) "interrupted");
    try apply Recorded_nil.
  destruct (ctx t) as [err|] eqn:Hctx.
  - rewrite checkDone_done with (err := err) by exact Hctx.
    apply Recorded_other; [reflexivity | apply Recorded_nil].
  - rewrite checkDone_live by exact Hctx. cbn [snd].
    apply Recorded_other; [reflexivity|].
    apply Recorded_bind; [apply Recorded_forInterrupts|].
    intros answers e1 _. rewrite bind_generate.
    destruct (Generate _ _ _) as [err | r']; cbn [snd];
      (apply Recorded_other; [reflexivity|]);
      [apply Recorded_nil | apply IH].
Qed.

Lemma Recorded_resolution (fuel : nat) (ih : InterruptionHandler.t)
  (ctx : Context) (response : ModelResponse.t) (t : Transcript) :
  Recorded (InterruptionHandler.UserInteraction ih) t
    (snd (InterruptionHandler.handleResponse fuel ih ctx response t)).
Proof.
  unfold InterruptionHandler.handleResponse, lookupTool.
  rewrite bind_call. cbn [snd].
  apply Recorded_other; [reflexivity|].
  destruct (LookupTool _ _ _);
    [apply Recorded_forInterrupted | apply Recorded_nil].
Qed.

(** X18. The Resolution Loop with the terminal's Interactor as its
    Interaction capability.  At each Interaction call, by the way the wait
    of Interactor ends: when the 30 second ticker fires first, the call is
    the last of the run and the loop returns "Response was not provided in
    time"; when the context is done first, likewise with the context's
    error; when input arrives, the answer and the error of the call are
    those of the input. *)
Theorem resolution_loop_at_the_terminal
  (fuel : nat) (g : Generator) (race : Transcript -> Terminal.Race)
  (ctx : Context) (response : ModelResponse.t) (t : Transcript)
  (a b : list Event) (q : QuestionInput) (answer : string)
  (err : option error) :
  let ih := {| InterruptionHandler.generator := g;
               InterruptionHandler.UserInteraction :=
                 Terminal.asUserInteraction race |} in
  snd (InterruptionHandler.handleResponse fuel ih ctx response t)
    = a ++ UserInteractionCall q answer err :: b ->
  match race (t ++ a) with
  | Terminal.Tick =>
      answer = "" /\ b = [] /\
      fst (InterruptionHandler.handleResponse fuel ih ctx response t)
        = Throw (errorString "Response was not provided in time")
  | Terminal.CtxDone e =>
      answer = "" /\ b = [] /\
      fst (InterruptionHandler.handleResponse fuel ih ctx response t)
        = Throw e
  | Terminal.Input res =>
      answer = Terminal.Value res /\ err = Terminal.Err res
  end.
Proof.
  intros ih Heq.
  pose proof (@Recorded_resolution fuel ih ctx response t a q answer err b Heq)
    as Hrec.
  cbn [ih InterruptionHandler.UserInteraction] in Hrec.
  unfold Terminal.asUserInteraction, Terminal.Interactor in Hrec.
  cbn [snd] in Hrec.
  destruct (race (t ++ a)) as [e | | res]; injection Hrec as <- <-.
  - split; [reflexivity|].
    apply (@failureEnds_split _ _ _
             (proj2 (Inv_resolution fuel ih ctx response t)) a _ b e Heq
             eq_refl).
  - split; [reflexivity|].
    apply (@failureEnds_split _ _ _
             (proj2 (Inv_resolution fuel ih ctx response t)) a _ b _ Heq
             eq_refl).
  - split; reflexivity.
Qed.

Lemma resolution_loop_at_the_terminal_witness :
  "" = "" /\ @nil Event = [] /\
  fst (InterruptionHandler.handleResponse 3
         {| InterruptionHandler.generator :=
              Mock.NewMockGenerator [simpleResponse] Mock.tools [];
            InterruptionHandler.UserInteraction :=
              Terminal.asUserInteraction (fun _ => Terminal.Tick) |}
         Mock.Background twoInterrupts [])
  = Throw (errorString "Response was not provided in time").
Proof.
  apply (@resolution_loop_at_the_terminal 3
           (Mock.NewMockGenerator [simpleResponse] Mock.tools [])
           (fun _ => Terminal.Tick) Mock.Background twoInterrupts []
           [LookupToolCall "askQuestion"
              (Some (Mock.createMockTool "askQuestion"));
            CtxPoll None; CtxPoll None]
           []
           {| Question := "What gender are the children?";
              Choices := ["Boy"; "Girl"; "Both"] |}
           ""
           (Some (errorString "Response was not provided in time"))).
  vm_compute. reflexivity.
Defined.
